(** * DeepWhisperer: the dispatch engine of the asynchronous notifier

    A shallow embedding of [deepwhisperer/deepwhisperer.py]: the producer
    [send_message], the request sender [_send_request], the worker loop
    [_process_queue] with its ledger retry [_retry_failed_messages], and
    [stop].  Python library calls the source relies on ([str.strip],
    [str.encode], [hashlib.sha256], [time.gmtime]/[time.strftime],
    [cachetools.TTLCache], [queue.Queue]) are given executable models, so
    that every definition can be evaluated on concrete inputs. *)

From Stdlib Require Import ZArith NArith QArith Qround List String Ascii Bool Lia Lqa.
From Stdlib Require Import Permutation.
From Stdlib.Strings Require Import Byte.
Import ListNotations.

(* ================================================================== *)
(** ** Python strings *)

Module PyStr.

(** A Python [str] is a sequence of code points. *)
Definition str := list N.

(** An ASCII literal of the source, as a [str]. *)
Definition lit (s : string) : str := map N_of_ascii (list_ascii_of_string s).

(** [str.isspace] on one code point: the characters whose bidirectional
    class is WS, B or S, or whose category is Zs. *)
Definition isspace (c : N) : bool :=
  ((0x09 <=? c) && (c <=? 0x0D) || (0x1C <=? c) && (c <=? 0x20)
   || (c =? 0x85) || (c =? 0xA0) || (c =? 0x1680)
   || (0x2000 <=? c) && (c <=? 0x200A)
   || (c =? 0x2028) || (c =? 0x2029) || (c =? 0x202F) || (c =? 0x205F)
   || (c =? 0x3000))%N.

Fixpoint lstrip (s : str) : str :=
  match s with
  | c :: t => if isspace c then lstrip t else s
  | [] => []
  end.

Definition rstrip (s : str) : str := rev (lstrip (rev s)).

(** [s.strip()] *)
Definition strip (s : str) : str := rstrip (lstrip s).

(** Truth value of a [str]: the empty string is false. *)
Definition truthy (s : str) : bool :=
  match s with [] => false | _ :: _ => true end.

(** [sep.join(parts)] *)
Fixpoint join (sep : str) (parts : list str) : str :=
  match parts with
  | [] => []
  | x :: rest =>
      match rest with
      | [] => x
      | _ :: _ => x ++ sep ++ join sep rest
      end
  end.

Definition byte_of (n : N) : option byte := Byte.of_N n.

Definition cont (n : N) : N := N.lor 0x80 (N.land n 0x3F).

(** UTF-8 encoding of one code point.  A surrogate (U+D800..U+DFFF) has
    no encoding: [str.encode] raises [UnicodeEncodeError]. *)
Definition utf8 (c : N) : option (list N) :=
  (if c <? 0x80 then Some [c]
   else if c <? 0x800 then
     Some [N.lor 0xC0 (N.shiftr c 6); cont c]
   else if c <? 0x10000 then
     if (0xD800 <=? c) && (c <=? 0xDFFF) then None
     else Some [N.lor 0xE0 (N.shiftr c 12); cont (N.shiftr c 6); cont c]
   else if c <? 0x110000 then
     Some [N.lor 0xF0 (N.shiftr c 18); cont (N.shiftr c 12);
           cont (N.shiftr c 6); cont c]
   else None)%N.

Fixpoint bytes_of (l : list N) : option (list byte) :=
  match l with
  | [] => Some []
  | n :: t =>
      match byte_of n, bytes_of t with
      | Some b, Some bs => Some (b :: bs)
      | _, _ => None
      end
  end.

(** [s.encode()] (UTF-8, strict); [None] stands for [UnicodeEncodeError]. *)
Fixpoint encode (s : str) : option (list byte) :=
  match s with
  | [] => Some []
  | c :: t =>
      match utf8 c with
      | None => None
      | Some u =>
          match bytes_of u, encode t with
          | Some bs, Some rest => Some (bs ++ rest)
          | _, _ => None
          end
      end
  end.

(** Decimal digits of a non-negative integer, zero-padded to [width]
    (the [%02d] of [strftime]). *)
Fixpoint digits (fuel : nat) (n : Z) (acc : str) : str :=
  match fuel with
  | O => acc
  | S f =>
      let acc' := (Z.to_N (48 + n mod 10)) :: acc in
      if (n / 10 =? 0)%Z then acc' else digits f (n / 10) acc'
  end.

Definition decimal (n : Z) : str := digits (S (Z.to_nat (Z.log2 n))) n [].

Definition pad (width : nat) (s : str) : str :=
  repeat 48%N (width - List.length s) ++ s.

End PyStr.

(* ================================================================== *)
(** ** [hashlib.sha256(...).hexdigest()] *)

Module SHA256.
Local Open Scope Z_scope.

Definition w32 (x : Z) : Z := Z.land x 0xFFFFFFFF.
Definition add32 (x y : Z) : Z := w32 (x + y).
Definition rotr (n x : Z) : Z := Z.lor (Z.shiftr x n) (w32 (Z.shiftl x (32 - n))).
Definition not32 (x : Z) : Z := Z.lxor x 0xFFFFFFFF.

Definition Ch (x y z : Z) : Z := Z.lxor (Z.land x y) (Z.land (not32 x) z).
Definition Maj (x y z : Z) : Z :=
  Z.lxor (Z.lxor (Z.land x y) (Z.land x z)) (Z.land y z).
Definition bsig0 (x : Z) : Z := Z.lxor (Z.lxor (rotr 2 x) (rotr 13 x)) (rotr 22 x).
Definition bsig1 (x : Z) : Z := Z.lxor (Z.lxor (rotr 6 x) (rotr 11 x)) (rotr 25 x).
Definition ssig0 (x : Z) : Z := Z.lxor (Z.lxor (rotr 7 x) (rotr 18 x)) (Z.shiftr x 3).
Definition ssig1 (x : Z) : Z := Z.lxor (Z.lxor (rotr 17 x) (rotr 19 x)) (Z.shiftr x 10).

(** The primes below 312: the first sixty-four. *)
Definition is_prime (n : Z) : bool :=
  forallb (fun d => negb (n mod Z.of_nat d =? 0)) (seq 2 (Z.to_nat n - 2)).

Definition primes : list Z :=
  Eval vm_compute in filter is_prime (map Z.of_nat (seq 2 310)).

(** Integer cube root, one bit at a time from bit [b - 1] down. *)
Fixpoint cube_root (b : nat) (n r : Z) : Z :=
  match b with
  | O => r
  | S b' =>
      let c := r + 2 ^ Z.of_nat b' in
      cube_root b' n (if c * c * c <=? n then c else r)
  end.

(** The round constants: the first 32 bits of the fractional parts of
    the cube roots of the first sixty-four primes. *)
Definition K : list Z :=
  Eval vm_compute in map (fun q => w32 (cube_root 40 (q * 2 ^ 96) 0)) primes.

(** The initial hash value: the first 32 bits of the fractional parts of
    the square roots of the first eight primes. *)
Definition H0 : list Z :=
  Eval vm_compute in map (fun q => w32 (Z.sqrt (q * 2 ^ 64))) (firstn 8 primes).

(** Big-endian bytes of the low [n] bytes of [x]. *)
Fixpoint be_bytes (n : nat) (x : Z) : list Z :=
  match n with
  | O => []
  | S m => Z.land (Z.shiftr x (8 * Z.of_nat m)) 0xFF :: be_bytes m x
  end.

(** Message padding: a 1 bit, zeros up to 56 mod 64 bytes, then the bit
    length on 8 bytes. *)
Definition padded (msg : list Z) : list Z :=
  let len := Z.of_nat (List.length msg) in
  let zeros := (55 - len) mod 64 in
  msg ++ 0x80 :: repeat 0 (Z.to_nat zeros) ++ be_bytes 8 (8 * len).

Fixpoint words (fuel : nat) (bs : list Z) : list Z :=
  match fuel, bs with
  | S f, b0 :: b1 :: b2 :: b3 :: rest =>
      (Z.lor (Z.shiftl b0 24) (Z.lor (Z.shiftl b1 16) (Z.lor (Z.shiftl b2 8) b3)))
        :: words f rest
  | _, _ => []
  end.

(** The message schedule, newest word first. *)
Fixpoint schedule (n : nat) (w : list Z) : list Z :=
  match n with
  | O => w
  | S m =>
      let x := add32 (add32 (ssig1 (nth 1 w 0)) (nth 6 w 0))
                     (add32 (ssig0 (nth 14 w 0)) (nth 15 w 0)) in
      schedule m (x :: w)
  end.

Definition round (s : list Z) (kw : Z * Z) : list Z :=
  match s with
  | [a; b; c; d; e; f; g; h] =>
      let t1 := add32 (add32 (add32 h (bsig1 e)) (add32 (Ch e f g) (fst kw))) (snd kw) in
      let t2 := add32 (bsig0 a) (Maj a b c) in
      [add32 t1 t2; a; b; c; add32 d t1; e; f; g]
  | _ => s
  end.

Definition compress (h : list Z) (block : list Z) : list Z :=
  let w := rev (schedule 48 (rev block)) in
  let s := fold_left round (combine K w) h in
  map (fun p => add32 (fst p) (snd p)) (combine h s).

Fixpoint blocks (fuel : nat) (h : list Z) (ws : list Z) : list Z :=
  match fuel with
  | O => h
  | S f =>
      match ws with
      | [] => h
      | _ :: _ => blocks f (compress h (firstn 16 ws)) (skipn 16 ws)
      end
  end.

Definition digest (msg : list byte) : list Z :=
  let bs := padded (map (fun b => Z.of_N (Byte.to_N b)) msg) in
  let ws := words (List.length bs) bs in
  flat_map (be_bytes 4) (blocks (List.length ws) H0 ws).

Definition hexchar (n : Z) : ascii :=
  ascii_of_N (Z.to_N (if n <? 10 then 48 + n else 87 + n)).

Fixpoint hex (bs : list Z) : string :=
  match bs with
  | [] => EmptyString
  | b :: t => String (hexchar (Z.shiftr b 4)) (String (hexchar (Z.land b 0xF)) (hex t))
  end.

(** [hashlib.sha256(msg).hexdigest()] *)
Definition hexdigest (msg : list byte) : string := hex (digest msg).

End SHA256.

(* ================================================================== *)
(** ** Rational clock readings *)

Module Clock.

(** [x < y] on clock readings, as a boolean. *)
Definition Qltb (x y : Q) : bool :=
  (Qnum x * QDen y <? Qnum y * QDen x)%Z.

End Clock.

(* ================================================================== *)
(** ** [time.gmtime] and [time.strftime] *)

Module PyTime.
Local Open Scope Z_scope.
Import PyStr.

Record struct_time := mk_tm {
  tm_year : Z; tm_mon : Z; tm_mday : Z;
  tm_hour : Z; tm_min : Z; tm_sec : Z
}.

(** [time.gmtime(secs)]: the proleptic Gregorian date of a number of
    seconds since the epoch. *)
Definition gmtime (secs : Z) : struct_time :=
  let days := secs / 86400 in
  let rem := secs mod 86400 in
  let z := days + 719468 in
  let era := z / 146097 in
  let doe := z - era * 146097 in
  let yoe := (doe - doe / 1460 + doe / 36524 - doe / 146096) / 365 in
  let doy := doe - (365 * yoe + yoe / 4 - yoe / 100) in
  let mp := (5 * doy + 2) / 153 in
  let d := doy - (153 * mp + 2) / 5 + 1 in
  let m := if mp <? 10 then mp + 3 else mp - 9 in
  let y := yoe + era * 400 + (if m <=? 2 then 1 else 0) in
  mk_tm y m d (rem / 3600) (rem mod 3600 / 60) (rem mod 60).

(** [time.strftime('%Y-%m-%d | %H:%M:%S', t)] *)
Definition strftime (t : struct_time) : str :=
  decimal (tm_year t) ++ lit "-" ++ pad 2 (decimal (tm_mon t)) ++ lit "-"
    ++ pad 2 (decimal (tm_mday t)) ++ lit " | "
    ++ pad 2 (decimal (tm_hour t)) ++ lit ":" ++ pad 2 (decimal (tm_min t))
    ++ lit ":" ++ pad 2 (decimal (tm_sec t)).

End PyTime.

(* ================================================================== *)
(** ** [cachetools.TTLCache] *)

Module TTLCache.
Import Clock.

(** Modelled from the spec: the class [TTLCache] comes from the
    [cachetools] package and is not part of the sources.  A cache holds
    entries [{fingerprint, insertion time}] that expire after a
    configurable TTL; it holds at most a fixed capacity, evicting
    oldest-inserted entries first when full, and re-insertion refreshes
    the TTL clock.  [links] lists the live keys with their expiry time,
    oldest insertion first; the stored values are not kept, the source
    only ever stores [True]. *)
Record t := mk {
  maxsize : Z;
  ttl : Z;
  links : list (string * Q)
}.

Definition create (maxsize ttl : Z) : t := mk maxsize ttl [].

Fixpoint find (key : string) (l : list (string * Q)) : option Q :=
  match l with
  | [] => None
  | (k, e) :: rest => if String.eqb k key then Some e else find key rest
  end.

Fixpoint remove (key : string) (l : list (string * Q)) : list (string * Q) :=
  match l with
  | [] => []
  | (k, e) :: rest =>
      if String.eqb k key then remove key rest else (k, e) :: remove key rest
  end.

(** [key in cache]: present and not yet expired at [time]. *)
Definition contains (key : string) (time : Q) (c : t) : bool :=
  match find key (links c) with
  | None => false
  | Some expires => Qltb time expires
  end.

(** [cache.expire(time)]: drop the entries at the old end whose expiry
    time has been reached. *)
Fixpoint expire (time : Q) (l : list (string * Q)) : list (string * Q) :=
  match l with
  | [] => []
  | (k, e) :: rest => if Qltb time e then l else expire time rest
  end.

(** Make room for one more entry: pop oldest-inserted entries while the
    cache is full. *)
Fixpoint evict (maxsize : Z) (l : list (string * Q)) : list (string * Q) :=
  match l with
  | [] => []
  | _ :: rest =>
      if (maxsize <? Z.of_nat (List.length l) + 1)%Z then evict maxsize rest else l
  end.

(** [cache[key] = True] at [time], for a capacity of at least one. *)
Definition setitem (key : string) (time : Q) (c : t) : t :=
  let live := expire time (links c) in
  let room :=
    match find key live with
    | None => evict (maxsize c) live
    | Some _ => live
    end in
  mk (maxsize c) (ttl c) (remove key room ++ [(key, time + inject_Z (ttl c))]).

End TTLCache.

(* ================================================================== *)
(** ** [queue.Queue] *)

Module PyQueue.

Record t (A : Type) := mk {
  maxsize : Z;
  items : list A
}.
Arguments mk {A}.
Arguments maxsize {A}.
Arguments items {A}.

Definition create {A} (maxsize : Z) : t A := mk maxsize [].

Definition qsize {A} (q : t A) : Z := Z.of_nat (List.length (items q)).

(** [q.full()]: a [maxsize] of zero or less means an unbounded queue. *)
Definition full {A} (q : t A) : bool :=
  ((0 <? maxsize q) && (maxsize q <=? qsize q))%Z.

Definition empty {A} (q : t A) : bool :=
  match items q with [] => true | _ :: _ => false end.

(** [q.put_nowait(item)]; [None] stands for [queue.Full]. *)
Definition put_nowait {A} (item : A) (q : t A) : option (t A) :=
  if full q then None else Some (mk (maxsize q) (items q ++ [item])).

(** [q.get(timeout=...)] when no producer runs during the wait: the
    oldest item, or [None] for [queue.Empty] once the timeout has passed. *)
Definition get {A} (q : t A) : option (A * t A) :=
  match items q with
  | [] => None
  | x :: rest => Some (x, mk (maxsize q) rest)
  end.

End PyQueue.

(* ================================================================== *)
(** ** The notifier *)

Module DW.
Import PyStr Clock.

(** *** Data *)

Inductive value :=
| VStr (s : str)
| VBool (b : bool)
| VInt (n : Z)
| VFloat (x : Q).

(** [Dict[str, Any]], in insertion order. *)
Definition payload := list (string * value).

(** One entry of a [files] dict: [(name, io.BytesIO(data), mime_type)].
    The stream position is not kept: the sender rewinds every stream
    before each post. *)
Definition attachment := (str * list byte * str)%type.
Definition files := option (list (string * attachment)).

(** A send task, the tuple [(endpoint, payload, files)]. *)
Definition task := (string * payload * files)%type.

(** What the failure ledger holds: tuples of two or of three fields. *)
Inductive pytuple :=
| Tuple2 (endpoint : string) (p : payload)
| Tuple3 (endpoint : string) (p : payload) (f : files).

Inductive exn :=
| ValueError
| KeyError
| TypeError
| UnicodeEncodeError
| OverflowError
| OSError.

Inductive outcome (A : Type) :=
| Returned (a : A)
| Raised (e : exn).
Arguments Returned {A}.
Arguments Raised {A}.

Record response := mk_response { status_code : Z }.

(** What [httpx_client.post] does: answer, or raise (connection refused,
    timeout, ...; never [HTTPStatusError], which only
    [raise_for_status] raises). *)
Inductive post_result :=
| Responded (r : response)
| PostRaised.

Inductive level := DEBUG | INFO | WARNING | ERROR.

(** The module constants of [_constants.py] and the sources of outside
    behaviour, each indexed by the number of calls made before: what the
    transport does with a post and the time the post takes, in
    nanoseconds; the 53 random bits behind a call of [random.random]; and
    the scheduler's choice among the futures of a worker pool on which
    something can happen next. *)
Record Env := mkEnv {
  TITLE_PREFIX : str;
  TITLE : str;
  TITLE_SUFFIX : str;
  TIMESTAMP_PREFIX : str;
  TIMESTAMP_SUFFIX : str;
  post : nat -> task -> post_result;
  latency : nat -> N;
  random_bits : nat -> N;
  pick : nat -> nat
}.

(** The object's attributes, followed by the world it acts on: the
    clock (one reading serves [time.time], [time.gmtime] and the cache
    timer), the requests posted so far, the number of random draws, the
    waits slept in [time.sleep] so far, the log, and the number of
    scheduling choices made in worker pools. *)
Record DeepWhisperer := mkDW {
  chat_id : str;
  max_retries : Z;
  retry_delay : Z;
  batch_interval : Z;
  recent_messages : TTLCache.t;
  message_queue : PyQueue.t (option task);
  failed_messages : list pytuple;
  stop_event : bool;
  clock : Q;
  posts : list task;
  draws : nat;
  slept : list Q;
  log : list (level * string);
  picks : nat
}.

Definition set_recent_messages (c : TTLCache.t) (s : DeepWhisperer) :=
  mkDW (chat_id s) (max_retries s) (retry_delay s) (batch_interval s) c
       (message_queue s) (failed_messages s) (stop_event s) (clock s)
       (posts s) (draws s) (slept s) (log s) (picks s).

Definition set_message_queue (q : PyQueue.t (option task)) (s : DeepWhisperer) :=
  mkDW (chat_id s) (max_retries s) (retry_delay s) (batch_interval s)
       (recent_messages s) q (failed_messages s) (stop_event s) (clock s)
       (posts s) (draws s) (slept s) (log s) (picks s).

Definition set_failed_messages (l : list pytuple) (s : DeepWhisperer) :=
  mkDW (chat_id s) (max_retries s) (retry_delay s) (batch_interval s)
       (recent_messages s) (message_queue s) l (stop_event s) (clock s)
       (posts s) (draws s) (slept s) (log s) (picks s).

Definition set_stop_event (b : bool) (s : DeepWhisperer) :=
  mkDW (chat_id s) (max_retries s) (retry_delay s) (batch_interval s)
       (recent_messages s) (message_queue s) (failed_messages s) b (clock s)
       (posts s) (draws s) (slept s) (log s) (picks s).

(** Time passes. *)
Definition elapse (d : Q) (s : DeepWhisperer) :=
  mkDW (chat_id s) (max_retries s) (retry_delay s) (batch_interval s)
       (recent_messages s) (message_queue s) (failed_messages s)
       (stop_event s) (clock s + d) (posts s) (draws s) (slept s) (log s) (picks s).

(** A thread's reading of the time. *)
Definition set_clock (t : Q) (s : DeepWhisperer) :=
  mkDW (chat_id s) (max_retries s) (retry_delay s) (batch_interval s)
       (recent_messages s) (message_queue s) (failed_messages s)
       (stop_event s) t (posts s) (draws s) (slept s) (log s) (picks s).

(** What a call [time.sleep(d)] that returns does: [d] seconds pass. *)
Definition pause (d : Q) (s : DeepWhisperer) :=
  mkDW (chat_id s) (max_retries s) (retry_delay s) (batch_interval s)
       (recent_messages s) (message_queue s) (failed_messages s)
       (stop_event s) (clock s + d) (posts s) (draws s) (slept s ++ [d]) (log s)
       (picks s).

(** The rounding of a timeout: away from zero. *)
Definition round_up (x : Q) : Z :=
  if Qltb x 0 then Qfloor x else Qceiling x.

(** [time.sleep(d)] for a float [d].  The timeout is taken in whole
    nanoseconds, rounded away from zero; it has to fit a signed 64-bit
    integer ([OverflowError] otherwise) and must not be negative
    ([ValueError]).  Arithmetic on floats is taken exact. *)
Definition sleep (d : Q) (s : DeepWhisperer) : DeepWhisperer * outcome unit :=
  let timeout := round_up (d * inject_Z (10 ^ 9)) in
  if ((timeout <? - 2 ^ 63) || (2 ^ 63 <=? timeout))%Z then (s, Raised OverflowError)
  else if (timeout <? 0)%Z then (s, Raised ValueError)
  else (pause d s, Returned tt).

(** [n * x] for an [int] [n] and a [float] [x]: the integer is converted
    to a float first, which raises [OverflowError] for the integers that
    round to [2^1024], those from [2^1024 - 2^970] on.  [None] stands for
    that error. *)
Definition int_times_float (n : Z) (x : Q) : option Q :=
  if (2 ^ 1024 - 2 ^ 970 <=? Z.abs n)%Z then None else Some (inject_Z n * x).

Definition record_draw (s : DeepWhisperer) :=
  mkDW (chat_id s) (max_retries s) (retry_delay s) (batch_interval s)
       (recent_messages s) (message_queue s) (failed_messages s)
       (stop_event s) (clock s) (posts s) (S (draws s)) (slept s) (log s) (picks s).

Definition record_pick (s : DeepWhisperer) :=
  mkDW (chat_id s) (max_retries s) (retry_delay s) (batch_interval s)
       (recent_messages s) (message_queue s) (failed_messages s)
       (stop_event s) (clock s) (posts s) (draws s) (slept s) (log s) (S (picks s)).

(** [LOGGER.<level>(...)], keeping the fixed part of the message. *)
Definition logger (l : level) (msg : string) (s : DeepWhisperer) :=
  mkDW (chat_id s) (max_retries s) (retry_delay s) (batch_interval s)
       (recent_messages s) (message_queue s) (failed_messages s)
       (stop_event s) (clock s) (posts s) (draws s) (slept s) (log s ++ [(l, msg)])
       (picks s).

(** The attribute assignments of [__init__] (a [chat_id] is given). *)
Definition fresh (chat_id : str)
    (max_retries retry_delay queue_size deduplication_ttl batch_interval : Z)
    (now : Q) : DeepWhisperer :=
  mkDW chat_id max_retries retry_delay batch_interval
       (TTLCache.create 100 deduplication_ttl)
       (PyQueue.create queue_size) [] false now [] O [] [] O.

Fixpoint lookup (key : string) (p : payload) : option value :=
  match p with
  | [] => None
  | (k, v) :: rest => if String.eqb k key then Some v else lookup key rest
  end.

Section WithEnv.
Variable E : Env.

(** *** Framing *)

Definition _get_formatted_time (s : DeepWhisperer) : str :=
  TIMESTAMP_PREFIX E ++ lit " "
    ++ PyTime.strftime (PyTime.gmtime (Qfloor (clock s)))
    ++ lit " | GMT " ++ TIMESTAMP_SUFFIX E.

Definition _get_formatted_title : str :=
  TITLE_PREFIX E ++ lit " " ++ TITLE E ++ lit " " ++ TITLE_SUFFIX E.

Definition wrap (message : str) (s : DeepWhisperer) : str :=
  _get_formatted_title ++ [10%N] ++ message ++ [10%N] ++ _get_formatted_time s.

(** *** Producers *)

(** One call reads the clock once: the timestamp of the framing and the
    cache's timer see the same instant. *)

Definition send_message (message parse_mode : str) (allow_duplicates : bool)
    (s : DeepWhisperer) : DeepWhisperer * outcome unit :=
  if negb (truthy (strip message)) then
    (logger WARNING "Attempted to send an empty message. Skipping." s, Returned tt)
  else
    let wrapped_message := wrap message s in
    match encode wrapped_message with
    | None => (s, Raised UnicodeEncodeError)
    | Some bytes =>
        let message_hash := SHA256.hexdigest bytes in
        if negb allow_duplicates
           && TTLCache.contains message_hash (clock s) (recent_messages s)
        then (logger INFO "Skipping duplicate message" s, Returned tt)
        else
          let s1 := set_recent_messages
                      (TTLCache.setitem message_hash (clock s) (recent_messages s)) s in
          let payload := [("chat_id"%string, VStr (chat_id s1));
                          ("parse_mode"%string, VStr parse_mode);
                          ("text"%string, VStr wrapped_message)] in
          match PyQueue.put_nowait (Some ("sendMessage"%string, payload, None))
                                   (message_queue s1) with
          | Some q =>
              (logger INFO "Message queued successfully"
                      (set_message_queue q s1), Returned tt)
          | None =>
              (logger WARNING "Message queue full. Dropping message" s1, Returned tt)
          end
    end.

Definition send_location (latitude longitude : Q) (disable_notification : bool)
    (reply_to_message_id : option Z) (s : DeepWhisperer)
    : DeepWhisperer * outcome unit :=
  let payload := [("chat_id"%string, VStr (chat_id s));
                  ("latitude"%string, VFloat latitude);
                  ("longitude"%string, VFloat longitude);
                  ("disable_notification"%string, VBool disable_notification)] in
  let payload :=
    match reply_to_message_id with
    | Some id =>
        if (id =? 0)%Z then payload
        else payload ++ [("reply_to_message_id"%string, VInt id)]
    | None => payload
    end in
  match PyQueue.put_nowait (Some ("sendLocation"%string, payload, None))
                           (message_queue s) with
  | Some q => (logger INFO "Location queued" (set_message_queue q s), Returned tt)
  | None => (logger WARNING "Message queue full. Dropping location" s, Returned tt)
  end.

(** *** The request sender *)

(** [response.raise_for_status()] lets a 2xx answer through and raises
    [HTTPStatusError] otherwise. *)
Definition is_success (r : response) : bool :=
  ((200 <=? status_code r) && (status_code r <=? 299))%Z.

(** [httpx_client.post(...)]: the request goes out, and the call takes
    the time the transport needs for it. *)
Definition record_post (r : task) (s : DeepWhisperer) :=
  mkDW (chat_id s) (max_retries s) (retry_delay s) (batch_interval s)
       (recent_messages s) (message_queue s) (failed_messages s)
       (stop_event s)
       (clock s + (Z.of_N (latency E (List.length (posts s))) # 1000000000))
       (posts s ++ [r]) (draws s) (slept s) (log s) (picks s).

(** [random.random()], the call numbered [k]: 53 random bits scaled
    into the interval from 0 to 1, 1 excluded. *)
Definition random (k : nat) : Q :=
  Z.of_N (random_bits E k mod 2 ^ 53) # 9007199254740992.

(** [random.uniform(a, b)] is [a + (b - a) * self.random()]. *)
Definition uniform (a b : Q) (k : nat) : Q := a + (b - a) * random k.

(** How one pass through the body of the sender's loop ends. *)
Inductive pass :=
| Again
| Ended (r : outcome (option response)).

(** The body of the [for attempt in range(self.max_retries)] loop.  The
    backoff is computed and slept inside the handler of
    [HTTPStatusError]: what is raised there leaves the sender. *)
Definition one_attempt (attempt : Z) (endpoint : string) (p : payload)
    (f : files) (s : DeepWhisperer) : DeepWhisperer * pass :=
  let s1 := record_post (endpoint, p, f) s in
  match post E (List.length (posts s)) (endpoint, p, f) with
  | PostRaised => (logger ERROR "Unexpected Error" s1, Ended (Returned None))
  | Responded r =>
      if is_success r then (s1, Ended (Returned (Some r)))
      else
        let s2 := logger WARNING "Retry" s1 in
        if (attempt <? max_retries s - 1)%Z then
          let jitter := uniform (1 # 2) (3 # 2) (draws s2) in
          let s3 := record_draw s2 in
          match int_times_float (retry_delay s * 2 ^ attempt) jitter with
          | None => (s3, Ended (Raised OverflowError))
          | Some sleep_time =>
              match sleep sleep_time s3 with
              | (s4, Returned _) => (s4, Again)
              | (s4, Raised e) => (s4, Ended (Raised e))
              end
          end
        else
          (logger ERROR "Max retries reached. Skipping request." s2,
           Ended (Returned None))
  end.

(** The loop, [n] attempts left.  An implicit [None] is returned when
    the loop runs out. *)
Fixpoint attempts (n : nat) (attempt : Z) (endpoint : string) (p : payload)
    (f : files) (s : DeepWhisperer) : DeepWhisperer * outcome (option response) :=
  match n with
  | O => (s, Returned None)
  | S n' =>
      match one_attempt attempt endpoint p f s with
      | (s1, Again) => attempts n' (attempt + 1)%Z endpoint p f s1
      | (s1, Ended r) => (s1, r)
      end
  end.

Definition _send_request (endpoint : string) (p : payload) (f : files)
    (s : DeepWhisperer) : DeepWhisperer * outcome (option response) :=
  attempts (Z.to_nat (max_retries s)) 0%Z endpoint p f s.

(** *** The failure ledger *)

(** The [for endpoint, payload, files in self.failed_messages] loop.
    Unpacking a tuple of two fields into three names raises
    [ValueError] in the loop header, outside the [try]. *)
Fixpoint retry_each (entries remaining_failed : list pytuple) (s : DeepWhisperer)
    : DeepWhisperer * outcome (list pytuple) :=
  match entries with
  | [] => (s, Returned remaining_failed)
  | Tuple2 _ _ :: _ => (s, Raised ValueError)
  | Tuple3 endpoint p f :: rest =>
      match _send_request endpoint p f s with
      | (s1, Returned (Some _)) => retry_each rest remaining_failed s1
      | (s1, Returned None) =>
          retry_each rest (remaining_failed ++ [Tuple3 endpoint p f]) s1
      | (s1, Raised _) =>
          retry_each rest (remaining_failed ++ [Tuple3 endpoint p f])
                     (logger ERROR "Retry failed" s1)
      end
  end.

Definition _retry_failed_messages (s : DeepWhisperer) : DeepWhisperer * outcome unit :=
  match failed_messages s with
  | [] => (s, Returned tt)
  | _ :: _ =>
      let s0 := logger INFO "Retrying failed messages..." s in
      match retry_each (failed_messages s0) [] s0 with
      | (s1, Returned remaining_failed) =>
          (set_failed_messages remaining_failed s1, Returned tt)
      | (s1, Raised e) => (s1, Raised e)
      end
  end.

(** *** The dispatch loop *)

(** How the inner [while] loop of one cycle ends. *)
Inductive collected :=
| WindowClosed (batch : list task) (collected_messages : list value)
| StopSeen
| Faulted (e : exn)
| OutOfFuel.

(** The inner loop: poll the queue while the batch window is open. *)
Fixpoint collect (fuel : nat) (start_time : Q) (batch : list task)
    (collected_messages : list value) (s : DeepWhisperer)
    : DeepWhisperer * collected :=
  match fuel with
  | O => (s, OutOfFuel)
  | S fuel' =>
      if Qltb (clock s - start_time) (inject_Z (batch_interval s)) then
        match PyQueue.get (message_queue s) with
        | None =>
            collect fuel' start_time batch collected_messages (elapse (1 # 2) s)
        | Some (item, q) =>
            let s1 := set_message_queue q s in
            match item with
            | None => (s1, StopSeen)
            | Some (endpoint, p, f) =>
                if String.eqb endpoint "STOP" then (s1, StopSeen)
                else if String.eqb endpoint "sendMessage" then
                  match lookup "text" p with
                  | None => (s1, Faulted KeyError)
                  | Some text =>
                      collect fuel' start_time batch (collected_messages ++ [text]) s1
                  end
                else collect fuel' start_time (batch ++ [(endpoint, p, f)])
                             collected_messages s1
            end
        end
      else (s, WindowClosed batch collected_messages)
  end.

(** Polls that always suffice for one window: one per queued item, one
    per half second of the window, and the closing test. *)
Definition collect_fuel (s : DeepWhisperer) : nat :=
  List.length (PyQueue.items (message_queue s))
  + Z.to_nat (2 * batch_interval s) + 1.

(** The items of a [join]: every one must be a [str]. *)
Fixpoint strs (vs : list value) : option (list str) :=
  match vs with
  | [] => Some []
  | VStr x :: rest =>
      match strs rest with
      | Some xs => Some (x :: xs)
      | None => None
      end
  | _ :: _ => None
  end.

(** The merging step; [None] stands for the [TypeError] of [join]. *)
Definition merge (chat : str) (batch : list task) (collected_messages : list value)
    : option (list task) :=
  match collected_messages with
  | [] => Some batch
  | _ :: _ =>
      match strs collected_messages with
      | None => None
      | Some texts =>
          let combined_message := join (lit (String "010" (String "010" EmptyString))) texts in
          Some (batch ++ [("sendMessage"%string,
                           [("chat_id"%string, VStr chat);
                            ("text"%string, VStr combined_message)],
                           None)])
      end
  end.

(** *** The worker pool of one cycle *)

(** The pool runs one thread per task of the batch, each in a call of
    [_send_request], while the worker handles the futures as
    [as_completed] yields them.  What a future stands at: its thread is
    about to make an attempt, or the call has ended and the future waits
    to be yielded, or the worker has handled it. *)
Inductive future :=
| Attempting (attempt : Z)
| Completed (r : outcome (option response))
| Handled.

(** A future with the task of its thread and the time on the thread's
    own time line: the threads post and sleep side by side. *)
Record worker := mk_worker {
  w_task : task;
  w_time : Q;
  w_state : future
}.

(** The body of the [for future in as_completed(future_to_task)] loop:
    the task of a call that returned nothing or raised goes on the ledger,
    as the pair [future_to_task[future]]. *)
Definition handle (t : task) (r : outcome (option response)) (s : DeepWhisperer)
    : DeepWhisperer :=
  let '(endpoint, p, _) := t in
  match r with
  | Returned (Some _) => s
  | Returned None =>
      set_failed_messages (failed_messages s ++ [Tuple2 endpoint p]) s
  | Raised _ =>
      let s1 := logger ERROR "Error processing request" s in
      set_failed_messages (failed_messages s1 ++ [Tuple2 endpoint p]) s1
  end.

(** What happens next on a future: its thread makes one pass through the
    sender's loop, or finds the loop run out; or the worker, to whom
    [as_completed] yields the finished future, handles it. *)
Definition turn (w : worker) (s : DeepWhisperer) : worker * DeepWhisperer :=
  let '(endpoint, p, f) := w_task w in
  match w_state w with
  | Attempting attempt =>
      if (attempt <? max_retries s)%Z then
        match one_attempt attempt endpoint p f (set_clock (w_time w) s) with
        | (s1, Again) =>
            (mk_worker (w_task w) (clock s1) (Attempting (attempt + 1)),
             set_clock (clock s) s1)
        | (s1, Ended r) =>
            (mk_worker (w_task w) (clock s1) (Completed r), set_clock (clock s) s1)
        end
      else (mk_worker (w_task w) (w_time w) (Completed (Returned None)), s)
  | Completed r => (mk_worker (w_task w) (w_time w) Handled, handle (w_task w) r s)
  | Handled => (w, s)
  end.

(** A future on which something can still happen. *)
Definition pending (w : worker) : bool :=
  match w_state w with
  | Handled => false
  | _ => true
  end.

(** The turn of the pending future numbered [n] among the pending ones. *)
Fixpoint advance (n : nat) (ws : list worker) (s : DeepWhisperer)
    : list worker * DeepWhisperer :=
  match ws with
  | [] => ([], s)
  | w :: rest =>
      if pending w then
        match n with
        | O => let (w1, s1) := turn w s in (w1 :: rest, s1)
        | S n' => let (rest1, s1) := advance n' rest s in (w :: rest1, s1)
        end
      else let (rest1, s1) := advance n rest s in (w :: rest1, s1)
  end.

(** The pool until every future is handled, for at most [fuel] turns;
    the scheduler picks the future of each turn.  Threads interleave at
    the granularity of one pass through the sender's loop, and a finished
    future may be yielded at any later moment: [as_completed] yields the
    futures that have ended before it is called in no particular order. *)
Fixpoint pool (fuel : nat) (ws : list worker) (s : DeepWhisperer)
    : list worker * DeepWhisperer :=
  match fuel with
  | O => (ws, s)
  | S fuel' =>
      match List.length (filter pending ws) with
      | O => (ws, s)
      | S m =>
          let (ws1, s1) := advance (pick E (picks s) mod S m) ws (record_pick s) in
          pool fuel' ws1 s1
      end
  end.

(** Turns that always suffice: for each future its passes through the
    loop, the end of its call, and its handling. *)
Definition pool_fuel (batch : list task) (s : DeepWhisperer) : nat :=
  List.length batch * (Z.to_nat (max_retries s) + 2).

(** The latest of a time and the times the threads have reached. *)
Definition last_time (ws : list worker) (t : Q) : Q :=
  fold_right (fun w t => if Qltb t (w_time w) then w_time w else t) t ws.

(** The [with ThreadPoolExecutor(max_workers=len(batch))] block: every
    task is submitted at once, and the block is left when the last thread
    has ended. *)
Definition dispatch (batch : list task) (s : DeepWhisperer) : DeepWhisperer :=
  let ws := map (fun t => mk_worker t (clock s) (Attempting 0)) batch in
  let (ws1, s1) := pool (pool_fuel batch s) ws s in
  set_clock (last_time ws1 (clock s)) s1.

(** What follows the inner loop: merge, dispatch, retry the ledger,
    pause.  An exception ends the iteration in the outer handler. *)
Definition after_collect (batch : list task) (collected_messages : list value)
    (s : DeepWhisperer) : DeepWhisperer :=
  match merge (chat_id s) batch collected_messages with
  | None => logger ERROR "Error processing messages" s
  | Some batch =>
      let s1 := match batch with [] => s | _ :: _ => dispatch batch s end in
      match _retry_failed_messages s1 with
      | (s2, Returned _) =>
          match sleep (1 # 2) s2 with
          | (s3, Returned _) => s3
          | (s3, Raised _) => logger ERROR "Error processing messages" s3
          end
      | (s2, Raised _) => logger ERROR "Error processing messages" s2
      end
  end.

Inductive cycle_end := NextIteration | ThreadReturns | Unfinished.

(** One iteration of the outer [while] loop. *)
Definition cycle (s : DeepWhisperer) : DeepWhisperer * cycle_end :=
  match collect (collect_fuel s) (clock s) [] [] s with
  | (s1, WindowClosed batch collected_messages) =>
      (after_collect batch collected_messages s1, NextIteration)
  | (s1, StopSeen) => (s1, ThreadReturns)
  | (s1, Faulted _) => (logger ERROR "Error processing messages" s1, NextIteration)
  | (s1, OutOfFuel) => (s1, Unfinished)
  end.

Inductive thread := Running | Finished.

(** The worker thread, for at most [fuel] iterations. *)
Fixpoint _process_queue (fuel : nat) (s : DeepWhisperer) : DeepWhisperer * thread :=
  match fuel with
  | O => (s, Running)
  | S fuel' =>
      if stop_event s then (s, Finished)
      else
        match cycle s with
        | (s1, NextIteration) => _process_queue fuel' s1
        | (s1, ThreadReturns) => (s1, Finished)
        | (s1, Unfinished) => (s1, Running)
        end
  end.

(** *** Shutdown *)

(** [self.stop_event.set()] *)
Definition stop_signal (s : DeepWhisperer) : DeepWhisperer := set_stop_event true s.

(** The wait of [stop] once the worker thread has finished:
    [while not self.message_queue.empty(): time.sleep(0.5)], for at
    most [fuel] polls; [false] when the polls ran out.  An exception
    would end the wait in the handler of [stop]. *)
Fixpoint stop_wait (fuel : nat) (s : DeepWhisperer) : DeepWhisperer * bool :=
  match fuel with
  | O => (s, false)
  | S fuel' =>
      if PyQueue.empty (message_queue s) then (s, true)
      else
        match sleep (1 # 2) s with
        | (s1, Returned _) => stop_wait fuel' s1
        | (s1, Raised _) => (logger ERROR "Error during shutdown" s1, true)
        end
  end.

End WithEnv.

End DW.

(* ================================================================== *)
(** * Vocabulary of the statements *)

Module Spec.
Import DW PyStr.

(** The attributes of the object are the same in both states. *)
Definition same_attrs (s s' : DeepWhisperer) : Prop :=
  chat_id s' = chat_id s /\ max_retries s' = max_retries s
  /\ retry_delay s' = retry_delay s /\ batch_interval s' = batch_interval s
  /\ recent_messages s' = recent_messages s
  /\ message_queue s' = message_queue s
  /\ failed_messages s' = failed_messages s
  /\ stop_event s' = stop_event s.


(** The draw [random.uniform(0.5, 1.5)] numbered [k]. *)
Definition jitter (E : Env) (k : nat) : Q := uniform E (1 # 2) (3 # 2) k.





(** [raise_for_status] on a 4xx or 5xx answer. *)
Definition error_status (r : response) : bool :=
  ((400 <=? status_code r) && (status_code r <=? 599))%Z.

(** The transport answers the next [k] posts of [req] with a 4xx or 5xx
    status. *)
Definition errors (E : Env) (req : task) (s : DeepWhisperer) (k : nat) : Prop :=
  forall i, (i < k)%nat ->
    exists r, post E (List.length (posts s) + i) req = Responded r
              /\ error_status r = true.

(** Every backoff wait of the budget is a time [time.sleep] accepts:
    the base delay is not negative, and the longest wait there can be, one
    and a half times [retry_delay * 2^(max_retries - 2)] seconds, is at
    most [2^63 - 1] nanoseconds. *)
Definition sleepable (s : DeepWhisperer) : Prop :=
  (0 <= retry_delay s)%Z
  /\ (3 * (retry_delay s * 2 ^ (max_retries s - 2)) * 10 ^ 9 <= 2 * (2 ^ 63 - 1))%Z.



(** *** The worker *)

(** A ledger entry of two fields, as the dispatch step stores them. *)
Definition is_pair (t : pytuple) : Prop :=
  match t with
  | Tuple2 _ _ => True
  | Tuple3 _ _ _ => False
  end.

(** A task held as a tuple of three fields. *)
Definition triple (t : task) : pytuple :=
  let '(endpoint, p, f) := t in Tuple3 endpoint p f.

(** The transport accepts every request. *)
Definition accepts_all (E : Env) : Prop :=
  forall n req, exists r, post E n req = Responded r /\ is_success r = true.

(** The transport is down for every request. *)
Definition always_down (E : Env) : Prop :=
  forall n req, post E n req = PostRaised.

(** A queued item the collecting loop takes in: a task that is not the
    stop sentinel and, if it is a text task, carries a text. *)
Definition proper (it : option task) : bool :=
  match it with
  | None => false
  | Some (endpoint, p, _) =>
      negb (String.eqb endpoint "STOP")
      && (if String.eqb endpoint "sendMessage"
          then match lookup "text" p with Some _ => true | None => false end
          else true)
  end.

(** The texts of the text tasks among the items, in arrival order. *)
Fixpoint texts_of (its : list (option task)) : list value :=
  match its with
  | [] => []
  | Some (endpoint, p, _) :: rest =>
      if String.eqb endpoint "sendMessage"
      then match lookup "text" p with
           | Some v => v :: texts_of rest
           | None => texts_of rest
           end
      else texts_of rest
  | None :: rest => texts_of rest
  end.

(** The other tasks among the items, in arrival order. *)
Fixpoint others_of (its : list (option task)) : list task :=
  match its with
  | [] => []
  | Some (endpoint, p, f) :: rest =>
      if String.eqb endpoint "sendMessage" then others_of rest
      else (endpoint, p, f) :: others_of rest
  | None :: rest => others_of rest
  end.

(** [j] queue polls that timed out. *)
Definition waited (j : nat) (s : DeepWhisperer) : DeepWhisperer :=
  Nat.iter j (elapse (1 # 2)) s.

(** The queue once the collecting loop has taken every item. *)
Definition drained (s : DeepWhisperer) : DeepWhisperer :=
  set_message_queue (PyQueue.mk (PyQueue.maxsize (message_queue s)) []) s.

(** The one text submission the merging step builds. *)
Definition merged_task (sep : str) (chat : str) (texts : list str) : task :=
  ("sendMessage"%string,
   [("chat_id"%string, VStr chat); ("text"%string, VStr (join sep texts))],
   None).

(** A queued text task carrying the text [t]. *)
Definition text_item (it : option task) (t : str) : Prop :=
  exists p f, it = Some ("sendMessage"%string, p, f)
              /\ lookup "text" p = Some (VStr t).

(** The states a notifier goes through: producers, the passing of time
    and the stop signal act between iterations of the worker loop. *)
Inductive reachable (E : Env) : DeepWhisperer -> Prop :=
| reach_fresh chat mr rd qs ttl bi now :
    reachable E (fresh chat mr rd qs ttl bi now)
| reach_send_message m pm dup s :
    reachable E s -> reachable E (fst (send_message E m pm dup s))
| reach_send_location lat long dn reply s :
    reachable E s -> reachable E (fst (send_location lat long dn reply s))
| reach_elapse d s :
    0 <= d -> reachable E s -> reachable E (elapse d s)
| reach_stop s :
    reachable E s -> reachable E (stop_signal s)
| reach_cycle s :
    reachable E s -> stop_event s = false -> reachable E (fst (cycle E s)).

(** *** The cache over several sends *)

(** The cache after [n] further fingerprints were stored in it, none
    before the time [t0] and none after the time [t1]. *)
Inductive stored (t0 t1 : Q) (c : TTLCache.t) : nat -> TTLCache.t -> Prop :=
| stored_none : stored t0 t1 c O c
| stored_more n c' key time :
    stored t0 t1 c n c' -> t0 <= time -> time <= t1 ->
    stored t0 t1 c (S n) (TTLCache.setitem key time c').

(** The cache holds [key] with an expiry time of [lim] or later, and at
    most [j] entries are younger. *)
Definition holds (key : string) (lim : Q) (j : nat) (c : TTLCache.t) : Prop :=
  exists pre e post,
    TTLCache.links c = pre ++ (key, e) :: post
    /\ TTLCache.find key pre = None /\ lim <= e
    /\ (List.length post <= j)%nat.

(** Texts sent one after the other, with duplicates disallowed. *)
Definition send_all (E : Env) (others : list str) (s : DeepWhisperer) : DeepWhisperer :=
  fold_left (fun st o => fst (send_message E o (lit "Markdown") false st)) others s.

(** The last part of C10 as the claim states it: once the fingerprint of
    a text is recorded, every later send of the same framed text within
    the TTL is suppressed, whatever was sent in between. *)
Definition suppresses_until_ttl (E : Env) (m : str) (s1 : DeepWhisperer) : Prop :=
  forall others,
    let s2 := send_all E others s1 in
    wrap E m s2 = wrap E m s1 ->
    clock s2 < clock s1 + inject_Z (TTLCache.ttl (recent_messages s1)) ->
    send_message E m (lit "Markdown") false s2
    = (logger INFO "Skipping duplicate message" s2, Returned tt).

(** *** Concrete worlds *)

(** A world in which every post is answered at once, every draw of
    [random.random] gives one half, so that every jitter is 1, and the
    scheduler always takes the first future it can. *)
Definition constants (post : nat -> task -> post_result) : Env :=
  mkEnv (lit "**") (lit "DeepWhisperer") (lit "**") (lit "[") (lit "]") post
        (fun _ => 0%N) (fun _ => (2 ^ 52)%N) (fun _ => O).

(** Every request is accepted. *)
Definition env_up : Env :=
  constants (fun _ _ => Responded (mk_response 200)).

(** Every request is answered with a server error. *)
Definition env_500 : Env :=
  constants (fun _ _ => Responded (mk_response 500)).

(** The network is down: every post raises. *)
Definition env_down : Env :=
  constants (fun _ _ => PostRaised).


(** A notifier with the default settings, created at the epoch. *)
Definition notifier : DeepWhisperer := fresh (lit "42") 5 3 100 300 15 0.

(** One message is sent while every request is answered with a server
    error, and the worker runs one iteration. *)
Definition after_failed_dispatch : DeepWhisperer :=
  fst (cycle env_500
         (fst (send_message env_500 (lit "hello") (lit "Markdown") false notifier))).

Definition locate (n : Z) (s : DeepWhisperer) : DeepWhisperer :=
  fst (send_location (inject_Z n) (inject_Z n) false None s).

(** The worker has run one idle iteration; while it pauses at the end of
    it, five locations are queued and [stop] sets the stop event. *)
Definition five_queued_at_stop : DeepWhisperer :=
  stop_signal (locate 5 (locate 4 (locate 3 (locate 2 (locate 1
    (fst (cycle env_up notifier))))))).

(** Three texts are sent within one batch window. *)
Definition three_texts : DeepWhisperer :=
  fst (send_message env_up (lit "gamma") (lit "Markdown") false
    (fst (send_message env_up (lit "beta") (lit "Markdown") false
      (fst (send_message env_up (lit "alpha") (lit "Markdown") false notifier))))).

(** A notifier whose queue, of capacity one, is full. *)
Definition crowded : DeepWhisperer :=
  fst (send_message env_up (lit "first") (lit "Markdown") false
         (fresh (lit "42") 5 3 1 300 15 0)).

(** One hundred texts that differ from each other: a, aa, aaa, ... *)
Definition hundred_texts : list str :=
  map (fun i => repeat 97%N (S i)) (seq 0 100).

End Spec.

(* ================================================================== *)
(** * The other producers and the constructor *)

Module More.
Import DW PyStr Spec.

(** *** Paths and files *)

(** A [pathlib.Path], by its parent and its final component. *)
Record Path := mk_path {
  parent : list str;
  name : str
}.

(** Scan a reversed name up to its first dot: what follows the last dot
    of the name, and the reversed part before it. *)
Fixpoint after_last_dot (reversed acc : str) : option (str * str) :=
  match reversed with
  | [] => None
  | c :: rest =>
      if (c =? 46)%N then Some (acc, rest) else after_last_dot rest (c :: acc)
  end.

(** [path.suffix]: from the last dot of the name on, unless that dot is
    the first or the last character of the name. *)
Definition suffix (file_path : Path) : str :=
  match after_last_dot (rev (name file_path)) [] with
  | Some ((_ :: _) as ext, _ :: _) => 46%N :: ext
  | _ => []
  end.

(** What [open(file_path, "rb")] followed by [read()] gives. *)
Inductive opened :=
| Data (file_data : list byte)
| FileNotFound
| OtherError.

(** The file system as one call sees it: what [file_path.exists()]
    does and what opening and reading the file gives.  [exists] answers
    [False] when [stat] fails with an error that means absence; any other
    [OSError] of [stat], a refused permission for one, it raises again. *)
Record FileSystem := mk_fs {
  path_exists : Path -> outcome bool;
  open_read : Path -> opened
}.

(** [x or ""] *)
Definition or_empty (x : option str) : str :=
  match x with
  | Some c => if truthy c then c else []
  | None => []
  end.

(** [if x:] on an optional string. *)
Definition given (x : option str) : bool :=
  match x with
  | Some c => truthy c
  | None => false
  end.

(** [if reply_to_message_id: payload["reply_to_message_id"] = ...] *)
Definition with_reply (reply_to_message_id : option Z) (p : payload) : payload :=
  match reply_to_message_id with
  | Some id =>
      if (id =? 0)%Z then p else p ++ [("reply_to_message_id"%string, VInt id)]
  | None => p
  end.

(** [if x: payload[key] = x] on an optional string. *)
Definition with_str (key : string) (x : option str) (p : payload) : payload :=
  match x with
  | Some c => if truthy c then p ++ [(key, VStr c)] else p
  | None => p
  end.

Section WithEnv.
Variable E : Env.

(** *** Media *)

Definition _send_media (fs : FileSystem) (file_path : Path)
    (endpoint media_type : string) (caption : option str)
    (disable_notification : bool) (reply_to_message_id : option Z)
    (s : DeepWhisperer) : DeepWhisperer * outcome unit :=
  match path_exists fs file_path with
  | Raised e => (s, Raised e)
  | Returned false => (logger WARNING "File doesn't exist" s, Returned tt)
  | Returned true =>
    let caption := or_empty caption in
    let wrapped_caption := wrap E caption s in
    let payload := [("chat_id"%string, VStr (chat_id s));
                    ("caption"%string, VStr wrapped_caption);
                    ("disable_notification"%string, VBool disable_notification)] in
    let payload := with_reply reply_to_message_id payload in
    match open_read fs file_path with
    | Data file_data =>
        let mime_type :=
          if truthy (suffix file_path)
          then lit media_type ++ lit "/" ++ tl (suffix file_path)
          else lit "application/octet-stream" in
        let files := Some [(media_type, (name file_path, file_data, mime_type))] in
        let s1 := logger DEBUG "Sending" s in
        match PyQueue.put_nowait (Some (endpoint, payload, files)) (message_queue s1) with
        | Some q => (logger INFO "queued successfully" (set_message_queue q s1), Returned tt)
        | None => (logger ERROR "Error sending" s1, Returned tt)
        end
    | FileNotFound => (logger ERROR "File not found" s, Returned tt)
    | OtherError => (logger ERROR "Error sending" s, Returned tt)
    end
  end.

Definition send_file fs file_path caption disable_notification reply_to_message_id :=
  _send_media fs file_path "sendDocument" "document" caption disable_notification
              reply_to_message_id.

Definition send_photo fs file_path caption disable_notification reply_to_message_id :=
  _send_media fs file_path "sendPhoto" "photo" caption disable_notification
              reply_to_message_id.

Definition send_audio fs file_path caption disable_notification reply_to_message_id :=
  _send_media fs file_path "sendAudio" "audio" caption disable_notification
              reply_to_message_id.

Definition send_video fs file_path caption disable_notification reply_to_message_id :=
  _send_media fs file_path "sendVideo" "video" caption disable_notification
              reply_to_message_id.

Definition send_animation fs file_path caption disable_notification reply_to_message_id :=
  _send_media fs file_path "sendAnimation" "animation" caption disable_notification
              reply_to_message_id.

Definition send_voice fs file_path caption disable_notification reply_to_message_id :=
  _send_media fs file_path "sendVoice" "voice" caption disable_notification
              reply_to_message_id.

Definition send_video_note fs file_path disable_notification reply_to_message_id :=
  _send_media fs file_path "sendVideoNote" "video_note" None disable_notification
              reply_to_message_id.

(** *** Contacts and venues *)

Definition send_contact (phone_number first_name : str) (last_name vcard : option str)
    (disable_notification : bool) (reply_to_message_id : option Z)
    (s : DeepWhisperer) : DeepWhisperer * outcome unit :=
  let payload := [("chat_id"%string, VStr (chat_id s));
                  ("phone_number"%string, VStr phone_number);
                  ("first_name"%string, VStr first_name);
                  ("disable_notification"%string, VBool disable_notification)] in
  let payload := with_str "last_name" last_name payload in
  let payload := with_str "vcard" vcard payload in
  let payload := with_reply reply_to_message_id payload in
  match PyQueue.put_nowait (Some ("sendContact"%string, payload, None))
                           (message_queue s) with
  | Some q => (logger INFO "Contact queued" (set_message_queue q s), Returned tt)
  | None => (logger WARNING "Message queue full. Dropping contact" s, Returned tt)
  end.

Definition send_venue (latitude longitude : Q) (title address : str)
    (foursquare_id foursquare_type google_place_id google_place_type : option str)
    (disable_notification : bool) (reply_to_message_id : option Z)
    (s : DeepWhisperer) : DeepWhisperer * outcome unit :=
  let payload := [("chat_id"%string, VStr (chat_id s));
                  ("latitude"%string, VFloat latitude);
                  ("longitude"%string, VFloat longitude);
                  ("title"%string, VStr title);
                  ("address"%string, VStr address);
                  ("disable_notification"%string, VBool disable_notification)] in
  let payload := with_str "foursquare_id" foursquare_id payload in
  let payload := with_str "foursquare_type" foursquare_type payload in
  let payload := with_str "google_place_id" google_place_id payload in
  let payload := with_str "google_place_type" google_place_type payload in
  let payload := with_reply reply_to_message_id payload in
  match PyQueue.put_nowait (Some ("sendVenue"%string, payload, None))
                           (message_queue s) with
  | Some q => (logger INFO "Venue queued" (set_message_queue q s), Returned tt)
  | None => (logger WARNING "Message queue full. Dropping venue" s, Returned tt)
  end.

(** *** Construction *)

(** [__init__].  [looked_up] is what [_get_chat_id] returns when it is
    called, [connection_message] what [random.choice] picks among the
    connection messages; the worker thread the constructor starts is run
    by [_process_queue]. *)
Definition __init__ (chat_id looked_up : option str)
    (max_retries retry_delay queue_size deduplication_ttl batch_interval : Z)
    (connection_message : str) (now : Q) : DeepWhisperer * outcome unit :=
  let chat_id := if given chat_id then chat_id else looked_up in
  match chat_id with
  | Some c =>
      if truthy c then
        let s := fresh c max_retries retry_delay queue_size deduplication_ttl
                       batch_interval now in
        send_message E connection_message (lit "Markdown") false
                     (logger INFO "DeepWhisperer initialized" s)
      else (fresh c max_retries retry_delay queue_size deduplication_ttl
                  batch_interval now, Raised ValueError)
  | None =>
      (fresh [] max_retries retry_delay queue_size deduplication_ttl
             batch_interval now, Raised ValueError)
  end.

(** *** Histories *)

(** The states a notifier goes through when every producer of this
    development may be called between iterations of the worker loop. *)
Inductive reachable_all : DeepWhisperer -> Prop :=
| all_fresh chat mr rd qs ttl bi now :
    reachable_all (fresh chat mr rd qs ttl bi now)
| all_send_message m pm dup s :
    reachable_all s -> reachable_all (fst (send_message E m pm dup s))
| all_send_location lat long dn reply s :
    reachable_all s -> reachable_all (fst (send_location lat long dn reply s))
| all_send_contact phone first last vcard dn reply s :
    reachable_all s ->
    reachable_all (fst (send_contact phone first last vcard dn reply s))
| all_send_venue lat long title address f1 f2 g1 g2 dn reply s :
    reachable_all s ->
    reachable_all (fst (send_venue lat long title address f1 f2 g1 g2 dn reply s))
| all_send_file fs file_path caption dn reply s :
    reachable_all s -> reachable_all (fst (send_file fs file_path caption dn reply s))
| all_send_photo fs file_path caption dn reply s :
    reachable_all s -> reachable_all (fst (send_photo fs file_path caption dn reply s))
| all_send_audio fs file_path caption dn reply s :
    reachable_all s -> reachable_all (fst (send_audio fs file_path caption dn reply s))
| all_send_video fs file_path caption dn reply s :
    reachable_all s -> reachable_all (fst (send_video fs file_path caption dn reply s))
| all_send_animation fs file_path caption dn reply s :
    reachable_all s ->
    reachable_all (fst (send_animation fs file_path caption dn reply s))
| all_send_voice fs file_path caption dn reply s :
    reachable_all s -> reachable_all (fst (send_voice fs file_path caption dn reply s))
| all_send_video_note fs file_path dn reply s :
    reachable_all s -> reachable_all (fst (send_video_note fs file_path dn reply s))
| all_elapse d s :
    0 <= d -> reachable_all s -> reachable_all (elapse d s)
| all_stop s :
    reachable_all s -> reachable_all (stop_signal s)
| all_cycle s :
    reachable_all s -> stop_event s = false -> reachable_all (fst (cycle E s)).

End WithEnv.

(** *** Vocabulary *)

(** A surrogate code point. *)
Definition surrogate (c : N) : bool := ((0xD800 <=? c) && (c <=? 0xDFFF))%N.

(** What the sender and the worker may change of a state: the ledger and
    the world, not the settings, the cache, the queue or the stop event. *)
Definition same_but_ledger (s s' : DeepWhisperer) : Prop :=
  chat_id s' = chat_id s /\ max_retries s' = max_retries s
  /\ retry_delay s' = retry_delay s /\ batch_interval s' = batch_interval s
  /\ recent_messages s' = recent_messages s
  /\ message_queue s' = message_queue s
  /\ stop_event s' = stop_event s.

(** Sum of a list of durations. *)
Definition total (l : list Q) : Q := fold_right Qplus 0 l.

(** No cache entry expires later than one TTL from now. *)
Definition within_ttl (s : DeepWhisperer) : Prop :=
  Forall (fun ke => snd ke <= clock s + inject_Z (TTLCache.ttl (recent_messages s)))
         (TTLCache.links (recent_messages s)).

(** A pair that the dispatch step stores for a task. *)
Definition pair_of (t : task) : pytuple :=
  let '(endpoint, p, _) := t in Tuple2 endpoint p.

(** What a producer call may do to a state: log, record a fingerprint at
    the present time, and append one proper item to a queue that is not
    full. *)
Inductive produces (s : DeepWhisperer) : DeepWhisperer -> Prop :=
| produces_nothing : produces s s
| produces_log l msg s1 :
    produces s s1 -> produces s (logger l msg s1)
| produces_record h s1 :
    produces s s1 ->
    produces s (set_recent_messages
                  (TTLCache.setitem h (clock s1) (recent_messages s1)) s1)
| produces_item it s1 :
    produces s s1 ->
    proper it = true ->
    PyQueue.full (message_queue s1) = false ->
    produces s (set_message_queue
                  (PyQueue.mk (PyQueue.maxsize (message_queue s1))
                              (PyQueue.items (message_queue s1) ++ [it])) s1).

(** What every state of a history satisfies: a bounded queue holds no
    more than its capacity, every queued item is proper, the cache keeps
    the capacity of one hundred it was created with and holds no more
    entries, no entry outlives its TTL, and the ledger holds pairs. *)
Definition sound (s : DeepWhisperer) : Prop :=
  ((0 < PyQueue.maxsize (message_queue s))%Z ->
   (PyQueue.qsize (message_queue s) <= PyQueue.maxsize (message_queue s))%Z)
  /\ forallb proper (PyQueue.items (message_queue s)) = true
  /\ TTLCache.maxsize (recent_messages s) = 100%Z
  /\ (List.length (TTLCache.links (recent_messages s)) <= 100)%nat
  /\ within_ttl s
  /\ Forall is_pair (failed_messages s).

(** *** The futures of a pool *)

(** The turns a future has before it at most. *)
Definition turns_left (budget : Z) (w : worker) : nat :=
  match w_state w with
  | Attempting a => Z.to_nat (budget - a) + 2
  | Completed _ => 1
  | Handled => 0
  end.

(** The tasks of the futures that satisfy a test. *)
Definition tasks_of (test : worker -> bool) (ws : list worker) : list task :=
  map w_task (filter test ws).

(** A future the worker has handled. *)
Definition is_handled (w : worker) : bool :=
  match w_state w with Handled => true | _ => false end.

(** A future whose call has ended. *)
Definition has_started (w : worker) : bool :=
  match w_state w with Attempting _ => false | _ => true end.

(** A call that leaves its task to the ledger. *)
Definition ledgered (r : outcome (option response)) : bool :=
  match r with Returned (Some _) => false | _ => true end.

(** A file system holding one readable file. *)
Definition one_file (file_path : Path) (file_data : list byte) : FileSystem :=
  mk_fs (fun q => if list_eq_dec N.eq_dec (name q) (name file_path)
                  then Returned true else Returned false)
        (fun q => if list_eq_dec N.eq_dec (name q) (name file_path)
                  then Data file_data else FileNotFound).

End More.

(* ================================================================== *)
(** * Properties *)

(** ** The library models on known values *)

Example sha256_abc :
  option_map SHA256.hexdigest (PyStr.encode (PyStr.lit "abc"))
  = Some "ba7816bf8f01cfea414140de5dae2223b00361a396177a9cb410ff61f20015ad"%string.
Proof. vm_compute. reflexivity. Qed.

Example sha256_empty :
  SHA256.hexdigest []
  = "e3b0c44298fc1c149afbf4c8996fb92427ae41e4649b934ca495991b7852b855"%string.
Proof. vm_compute. reflexivity. Qed.

Example sha256_two_blocks :
  option_map SHA256.hexdigest (PyStr.encode (repeat 97%N 100))
  = Some "2816597888e4a0d3a36b82b83316ab32680eb8f00f8cd3b904d681246d285a0e"%string.
Proof. vm_compute. reflexivity. Qed.

Example encode_euro_sign :
  PyStr.encode [0x20AC%N] = Some ["226"%byte; "130"%byte; "172"%byte].
Proof. reflexivity. Qed.

Example encode_lone_surrogate : PyStr.encode [0xD800%N] = None.
Proof. reflexivity. Qed.

Example strip_no_break_space :
  PyStr.strip ([0xA0%N; 32%N] ++ PyStr.lit "a b" ++ [9%N; 0x2003%N]) = PyStr.lit "a b".
Proof. reflexivity. Qed.

Example strftime_epoch :
  PyTime.strftime (PyTime.gmtime 0) = PyStr.lit "1970-01-01 | 00:00:00".
Proof. vm_compute. reflexivity. Qed.

Example strftime_leap_day :
  PyTime.strftime (PyTime.gmtime 951827696) = PyStr.lit "2000-02-29 | 12:34:56".
Proof. vm_compute. reflexivity. Qed.

Example join_three :
  PyStr.join (PyStr.lit ", ") [PyStr.lit "a"; PyStr.lit "b"; PyStr.lit "c"]
  = PyStr.lit "a, b, c".
Proof. reflexivity. Qed.

(** ** Clock comparisons *)

Lemma Qltb_lt (x y : Q) : Clock.Qltb x y = true <-> x < y.
Proof. unfold Clock.Qltb, Qlt. apply Z.ltb_lt. Qed.

Lemma Qltb_ge (x y : Q) : Clock.Qltb x y = false <-> y <= x.
Proof. unfold Clock.Qltb, Qle. rewrite Z.ltb_ge. reflexivity. Qed.

(** ** The deduplication cache *)

Lemma find_remove_same key l : TTLCache.find key (TTLCache.remove key l) = None.
Proof.
  induction l as [|[k e] l IH]; simpl; [reflexivity|].
  destruct (String.eqb k key) eqn:Hk; [exact IH|].
  simpl. rewrite Hk. exact IH.
Qed.

Lemma find_app_absent key l e :
  TTLCache.find key l = None -> TTLCache.find key (l ++ [(key, e)]) = Some e.
Proof.
  induction l as [|[k e'] l IH]; simpl; intros H.
  - rewrite String.eqb_refl. reflexivity.
  - destruct (String.eqb k key); [discriminate | auto].
Qed.

(** A key that was just set is found with a fresh expiry time. *)
Lemma find_setitem key time c :
  TTLCache.find key (TTLCache.links (TTLCache.setitem key time c))
  = Some (time + inject_Z (TTLCache.ttl c)).
Proof.
  unfold TTLCache.setitem. simpl. apply find_app_absent, find_remove_same.
Qed.

(** ... and is reported present until its TTL has run out. *)
Lemma contains_setitem_within_ttl key time d c :
  d < inject_Z (TTLCache.ttl c) ->
  TTLCache.contains key (time + d) (TTLCache.setitem key time c) = true.
Proof.
  intros Hd. unfold TTLCache.contains. rewrite find_setitem.
  apply Qltb_lt. lra.
Qed.

Lemma contains_respects_time key t1 t2 c :
  t1 == t2 -> TTLCache.contains key t1 c = TTLCache.contains key t2 c.
Proof.
  intros Ht. unfold TTLCache.contains.
  destruct (TTLCache.find key (TTLCache.links c)) as [e|]; [|reflexivity].
  destruct (Clock.Qltb t2 e) eqn:H2.
  - apply Qltb_lt. apply Qltb_lt in H2. lra.
  - apply Qltb_ge. apply Qltb_ge in H2. lra.
Qed.

(** *** A fingerprint stays while fewer stores than the capacity follow *)

Lemma find_cons_absent key k e l :
  TTLCache.find key ((k, e) :: l) = None ->
  String.eqb k key = false /\ TTLCache.find key l = None.
Proof.
  simpl. destruct (String.eqb k key); [discriminate | auto].
Qed.

Lemma find_middle key pre e post :
  TTLCache.find key pre = None ->
  TTLCache.find key (pre ++ (key, e) :: post) = Some e.
Proof.
  induction pre as [|[k e'] pre IH]; intros H.
  - simpl. rewrite String.eqb_refl. reflexivity.
  - apply find_cons_absent in H. destruct H as [Hk H].
    simpl. rewrite Hk. apply IH. exact H.
Qed.

Lemma find_app_none key l1 l2 :
  TTLCache.find key l1 = None -> TTLCache.find key l2 = None ->
  TTLCache.find key (l1 ++ l2) = None.
Proof.
  induction l1 as [|[k e] l1 IH]; intros H1 H2; [exact H2|].
  apply find_cons_absent in H1. destruct H1 as [Hk H1].
  simpl. rewrite Hk. apply IH; assumption.
Qed.

Lemma remove_absent key l : TTLCache.find key l = None -> TTLCache.remove key l = l.
Proof.
  induction l as [|[k e] l IH]; intros H; [reflexivity|].
  apply find_cons_absent in H. destruct H as [Hk H].
  simpl. rewrite Hk, IH by exact H. reflexivity.
Qed.

Lemma find_remove_other key key' l :
  TTLCache.find key l = None -> TTLCache.find key (TTLCache.remove key' l) = None.
Proof.
  induction l as [|[k e] l IH]; intros H; [reflexivity|].
  apply find_cons_absent in H. destruct H as [Hk H].
  simpl. destruct (String.eqb k key'); [apply IH; exact H|].
  simpl. rewrite Hk. apply IH. exact H.
Qed.

Lemma remove_app key l1 l2 :
  TTLCache.remove key (l1 ++ l2) = TTLCache.remove key l1 ++ TTLCache.remove key l2.
Proof.
  induction l1 as [|[k e] l1 IH]; [reflexivity|].
  simpl. destruct (String.eqb k key); [exact IH|]. simpl. rewrite IH. reflexivity.
Qed.

Lemma remove_shorter key l :
  (List.length (TTLCache.remove key l) <= List.length l)%nat.
Proof.
  induction l as [|[k e] l IH]; simpl; [lia|].
  destruct (String.eqb k key); simpl; lia.
Qed.

(** Expiry stops at an entry that has not expired. *)
Lemma expire_middle key time pre e post :
  time < e -> TTLCache.find key pre = None ->
  exists pre',
    TTLCache.expire time (pre ++ (key, e) :: post) = pre' ++ (key, e) :: post
    /\ TTLCache.find key pre' = None.
Proof.
  intros He. induction pre as [|[k e'] pre IH]; intros Hpre.
  - exists []. simpl. apply Qltb_lt in He. rewrite He. auto.
  - apply find_cons_absent in Hpre. destruct Hpre as [Hk Hpre].
    cbn [app TTLCache.expire]. destruct (Clock.Qltb time e').
    + exists ((k, e') :: pre). split; [reflexivity|]. simpl. rewrite Hk. exact Hpre.
    + apply IH. exact Hpre.
Qed.

(** Eviction stops before an entry that has room behind it. *)
Lemma evict_middle key m pre e post :
  (Z.of_nat (List.length post) + 2 <= m)%Z -> TTLCache.find key pre = None ->
  exists pre',
    TTLCache.evict m (pre ++ (key, e) :: post) = pre' ++ (key, e) :: post
    /\ TTLCache.find key pre' = None.
Proof.
  intros Hroom. induction pre as [|[k e'] pre IH]; intros Hpre.
  - exists []. cbn [app TTLCache.evict].
    replace (m <? Z.of_nat (List.length ((key, e) :: post)) + 1)%Z with false; [auto|].
    symmetry. apply Z.ltb_ge. cbn [List.length]. lia.
  - apply find_cons_absent in Hpre. destruct Hpre as [Hk Hpre].
    cbn [app]. change (TTLCache.evict m ((k, e') :: pre ++ (key, e) :: post))
      with (if (m <? Z.of_nat (List.length ((k, e') :: pre ++ (key, e) :: post)) + 1)%Z
            then TTLCache.evict m (pre ++ (key, e) :: post)
            else (k, e') :: pre ++ (key, e) :: post).
    destruct (m <? _)%Z.
    + apply IH. exact Hpre.
    + exists ((k, e') :: pre). split; [reflexivity|]. simpl. rewrite Hk. exact Hpre.
Qed.

Lemma holds_contains key lim j c time :
  Spec.holds key lim j c -> time < lim -> TTLCache.contains key time c = true.
Proof.
  intros (pre & e & post & Hl & Hpre & He & _) Ht.
  unfold TTLCache.contains. rewrite Hl, (find_middle key pre e post Hpre).
  apply Qltb_lt. lra.
Qed.

Lemma holds_setitem key lim j c key' time :
  Spec.holds key lim j c -> time < lim ->
  lim <= time + inject_Z (TTLCache.ttl c) ->
  (Z.of_nat j + 2 <= TTLCache.maxsize c)%Z ->
  Spec.holds key lim (S j) (TTLCache.setitem key' time c).
Proof.
  intros (pre & e & post & Hl & Hpre & He & Hj) Ht Hlim Hroom.
  unfold Spec.holds, TTLCache.setitem. cbn [TTLCache.links]. rewrite Hl.
  destruct (expire_middle key time pre e post ltac:(lra) Hpre) as (pre1 & -> & Hpre1).
  destruct (String.eqb_spec key key') as [<- | Hneq].
  - rewrite (find_middle key pre1 e post Hpre1).
    rewrite remove_app. cbn [TTLCache.remove]. rewrite String.eqb_refl.
    rewrite (remove_absent key pre1 Hpre1).
    exists (pre1 ++ TTLCache.remove key post), (time + inject_Z (TTLCache.ttl c)), [].
    split; [rewrite <- app_assoc; reflexivity|].
    split; [apply find_app_none; [exact Hpre1 | apply find_remove_same]|].
    split; [exact Hlim | simpl; lia].
  - assert (Hk : String.eqb key key' = false) by (apply String.eqb_neq; exact Hneq).
    assert (Hroom' : exists pre2,
              match TTLCache.find key' (pre1 ++ (key, e) :: post) with
              | Some _ => pre1 ++ (key, e) :: post
              | None => TTLCache.evict (TTLCache.maxsize c) (pre1 ++ (key, e) :: post)
              end = pre2 ++ (key, e) :: post
              /\ TTLCache.find key pre2 = None).
    { destruct (TTLCache.find key' (pre1 ++ (key, e) :: post)).
      - exists pre1. auto.
      - apply evict_middle; [lia | exact Hpre1]. }
    destruct Hroom' as (pre2 & -> & Hpre2).
    rewrite remove_app. cbn [TTLCache.remove]. rewrite Hk.
    exists (TTLCache.remove key' pre2), e,
           (TTLCache.remove key' post ++ [(key', time + inject_Z (TTLCache.ttl c))]).
    split; [rewrite <- app_assoc; reflexivity|].
    split; [apply find_remove_other; exact Hpre2|].
    split; [exact He|].
    rewrite length_app. cbn [List.length].
    pose proof (remove_shorter key' post). lia.
Qed.

(** A fingerprint stored at [t0] is still held, unexpired, after fewer
    further stores than the cache has places, as long as the TTL has not
    run out. *)
Lemma stored_holds key t0 t1 c0 n c :
  Spec.stored t0 t1 (TTLCache.setitem key t0 c0) n c ->
  t1 < t0 + inject_Z (TTLCache.ttl c0) ->
  (Z.of_nat n < TTLCache.maxsize c0)%Z ->
  Spec.holds key (t0 + inject_Z (TTLCache.ttl c0)) n c
  /\ TTLCache.maxsize c = TTLCache.maxsize c0 /\ TTLCache.ttl c = TTLCache.ttl c0.
Proof.
  intros Hst Ht1. induction Hst as [|n c' key' time Hst IH H0 H1]; intros Hn.
  - split; [|split; reflexivity].
    exists (TTLCache.remove key
              match TTLCache.find key (TTLCache.expire t0 (TTLCache.links c0)) with
              | Some _ => TTLCache.expire t0 (TTLCache.links c0)
              | None => TTLCache.evict (TTLCache.maxsize c0)
                          (TTLCache.expire t0 (TTLCache.links c0))
              end),
           (t0 + inject_Z (TTLCache.ttl c0)), [].
    split; [reflexivity|]. split; [apply find_remove_same|].
    split; [apply Qle_refl | simpl; lia].
  - destruct (IH ltac:(lia)) as (Hh & Hmax & Httl).
    split; [|split; [exact Hmax | exact Httl]].
    apply holds_setitem; [exact Hh | lra | rewrite Httl; lra | rewrite Hmax; lia].
Qed.

(** ** The request sender *)

Section Sender.
Import DW PyStr Spec.
Variable E : Env.

Lemma same_attrs_refl s : same_attrs s s.
Proof. repeat split. Qed.

Lemma same_attrs_trans s1 s2 s3 :
  same_attrs s1 s2 -> same_attrs s2 s3 -> same_attrs s1 s3.
Proof.
  unfold same_attrs. intros H1 H2.
  repeat match goal with H : _ /\ _ |- _ => destruct H end.
  repeat split; congruence.
Qed.

Lemma inject_Z_nonneg z : (0 <= z)%Z -> 0 <= inject_Z z.
Proof. intros H. unfold Qle. simpl. lia. Qed.

(** *** Jitter *)

(** [random.random()] lies between 0 and 1, 1 excluded. *)
Lemma random_range k : 0 <= random E k /\ random E k < 1.
Proof.
  unfold random, Qle, Qlt. cbn [Qnum Qden].
  assert (H : (random_bits E k mod 2 ^ 53 < 2 ^ 53)%N)
    by (apply N.mod_upper_bound; discriminate).
  change (2 ^ 53)%N with 9007199254740992%N in *.
  set (x := (random_bits E k mod 9007199254740992)%N) in *.
  split; lia.
Qed.

(** [random.uniform(a, b)] stays within its bounds. *)
Lemma uniform_range a b k : a <= b -> a <= uniform E a b k <= b.
Proof.
  intros Hab. unfold uniform. destruct (random_range k) as [H0 H1].
  assert (H : 0 <= (b - a) * random E k) by (apply Qmult_le_0_compat; lra).
  assert (H' : (b - a) * random E k <= (b - a) * 1).
  { rewrite !(Qmult_comm (b - a)). apply Qmult_le_compat_r; lra. }
  split; lra.
Qed.

(** The jitter of a backoff lies between one half and one and a half. *)
Lemma jitter_range k : 1 # 2 <= jitter E k <= 3 # 2.
Proof. apply uniform_range. lra. Qed.

(** *** Sleeping *)



Lemma sleep_half_second s : sleep (1 # 2) s = (pause (1 # 2) s, Returned tt).
Proof. reflexivity. Qed.

(** A negative wait is refused. *)
Lemma sleep_negative d s :
  d < 0 -> snd (sleep d s) = Raised ValueError \/ snd (sleep d s) = Raised OverflowError.
Proof.
  intros Hd. unfold sleep.
  assert (Hx : d * inject_Z (10 ^ 9) < 0).
  { setoid_replace 0 with (0 * inject_Z (10 ^ 9)) by ring.
    apply Qmult_lt_compat_r; [reflexivity | exact Hd]. }
  unfold round_up. apply Qltb_lt in Hx. rewrite Hx. apply Qltb_lt in Hx.
  assert (Hf : (Qfloor (d * inject_Z (10 ^ 9)) < 0)%Z).
  { pose proof (Qfloor_le (d * inject_Z (10 ^ 9))) as Hle.
    destruct (Z_lt_le_dec (Qfloor (d * inject_Z (10 ^ 9))) 0) as [Hlt|Hge]; [exact Hlt|].
    apply inject_Z_nonneg in Hge. lra. }
  destruct ((_ <? - 2 ^ 63) || (2 ^ 63 <=? _))%Z; [right; reflexivity|].
  replace (Qfloor (d * inject_Z (10 ^ 9)) <? 0)%Z with true
    by (symmetry; apply Z.ltb_lt; exact Hf).
  left. reflexivity.
Qed.



(** *** One pass through the loop *)

(** A pass posts the request once and touches none of the object's
    attributes; time does not run backwards. *)
Lemma one_attempt_effects a endpoint p f s :
  let s' := fst (one_attempt E a endpoint p f s) in
  same_attrs s s' /\ posts s' = posts s ++ [(endpoint, p, f)]
  /\ clock s <= clock s' /\ picks s' = picks s.
Proof.
  cbv zeta. unfold one_attempt.
  assert (Hlat : clock s <= clock (record_post E (endpoint, p, f) s)).
  { cbn [clock record_post].
    assert (0 <= Z.of_N (latency E (List.length (posts s))) # 1000000000)
      by (unfold Qle; cbn [Qnum Qden]; lia).
    lra. }
  destruct (post E (List.length (posts s)) (endpoint, p, f)) as [resp|];
    [|cbn [fst]; repeat split; exact Hlat].
  destruct (is_success resp); [cbn [fst]; repeat split; exact Hlat|].
  destruct (a <? max_retries s - 1)%Z; [|cbn [fst]; repeat split; exact Hlat].
  destruct (int_times_float _ _) as [w|]; [|cbn [fst]; repeat split; exact Hlat].
  unfold sleep.
  destruct ((_ <? - 2 ^ 63) || (2 ^ 63 <=? _))%Z eqn:Hover;
    [cbn [fst]; repeat split; exact Hlat|].
  destruct (round_up (w * inject_Z (10 ^ 9)) <? 0)%Z eqn:Hneg;
    [cbn [fst]; repeat split; exact Hlat|].
  cbn [fst]. repeat split.
  cbn [clock pause record_draw logger].
  assert (Hw : 0 <= w).
  { apply Z.ltb_ge in Hneg. unfold round_up in Hneg.
    destruct (Clock.Qltb (w * inject_Z (10 ^ 9)) 0) eqn:Hs.
    - apply Qltb_lt in Hs. pose proof (Qfloor_le (w * inject_Z (10 ^ 9))) as Hle.
      apply inject_Z_nonneg in Hneg. lra.
    - apply Qltb_ge in Hs.
      destruct (Qlt_le_dec w 0) as [Hlt|Hge]; [|exact Hge].
      assert (w * inject_Z (10 ^ 9) < 0 * inject_Z (10 ^ 9))
        by (apply Qmult_lt_compat_r; [reflexivity | exact Hlt]).
      lra. }
  lra.
Qed.



(** *** The loop *)

(** The sender touches none of the object's attributes. *)
Lemma attempts_frame endpoint p f n : forall a s s' r,
  attempts E n a endpoint p f s = (s', r) -> same_attrs s s'.
Proof.
  induction n as [|n IH]; intros a s s' r H; cbn [attempts] in H.
  - inversion H. apply same_attrs_refl.
  - destruct (one_attempt_effects a endpoint p f s) as [Hf _].
    destruct (one_attempt E a endpoint p f s) as [s1 [|r1]]; cbn [fst] in Hf.
    + apply IH in H. eapply same_attrs_trans; eassumption.
    + inversion H. subst. exact Hf.
Qed.

Lemma send_request_frame endpoint p f s s' r :
  _send_request E endpoint p f s = (s', r) -> same_attrs s s'.
Proof. apply attempts_frame. Qed.








Lemma errors_fewer req s k k' : (k' <= k)%nat -> errors E req s k -> errors E req s k'.
Proof. intros Hk H i Hi. apply H. lia. Qed.


(** Every attempt posts the request once. *)
Lemma attempts_posts endpoint p f n : forall a s s' r,
  attempts E n a endpoint p f s = (s', r) ->
  exists k, (k <= n)%nat /\ posts s' = posts s ++ repeat (endpoint, p, f) k
            /\ (n <> O -> k <> O).
Proof.
  induction n as [|n IH]; intros a s s' r H; cbn [attempts] in H.
  - inversion H. exists O. simpl. rewrite app_nil_r. auto.
  - destruct (one_attempt_effects a endpoint p f s) as (_ & Hp1 & _).
    destruct (one_attempt E a endpoint p f s) as [s1 [|r1]]; cbn [fst] in Hp1.
    + apply IH in H. destruct H as [k [Hk [Hp _]]].
      exists (S k). split; [lia|]. split; [|discriminate].
      rewrite Hp, Hp1, <- app_assoc. reflexivity.
    + inversion H. subst. exists 1%nat. split; [lia|]. split; [exact Hp1 | discriminate].
Qed.







End Sender.



(* ================================================================== *)
(** * The claims about the request sender *)

Import DW PyStr Spec.




(** Outside a sleepable budget the sender does raise: the backoff is
    slept inside the handler of the status error, and [time.sleep] refuses
    a negative wait with [ValueError] ... *)
Lemma negative_delay_raises :
  snd (_send_request env_500 "sendLocation" [] None
         (fresh (lit "42") 5 (-3) 100 300 15 0)) = Raised ValueError.
Proof. vm_compute. reflexivity. Qed.

(** ... and a wait of [2^63] nanoseconds or more, which a base delay of
    ten thousand million seconds asks for, with [OverflowError].  One
    request has been posted by then. *)
Lemma huge_delay_raises :
  let run := _send_request env_500 "sendLocation" [] None
               (fresh (lit "42") 5 (10 ^ 10) 100 300 15 0) in
  snd run = Raised OverflowError /\ List.length (posts (fst run)) = 1%nat.
Proof. vm_compute. split; reflexivity. Qed.

(** The largest base delay that the default budget of five attempts can
    sleep on is 768614336 seconds. *)
Lemma sleepable_default_budget rd :
  sleepable (fresh (lit "42") 5 rd 100 300 15 0) <-> (0 <= rd <= 768614336)%Z.
Proof.
  unfold sleepable. cbn [retry_delay max_retries fresh].
  change (2 ^ (5 - 2))%Z with 8%Z. change (10 ^ 9)%Z with 1000000000%Z.
  change (2 * (2 ^ 63 - 1))%Z with 18446744073709551614%Z. lia.
Qed.




(** A transport error is no failure after which the schedule goes on:
    when the first post raises and the second would be accepted, a budget
    of two attempts ends in failure after one post. *)
Lemma transport_error_ends_the_schedule :
  let E := constants (fun n _ => match n with
                                 | O => PostRaised
                                 | S _ => Responded (mk_response 200)
                                 end) in
  let run := _send_request E "sendLocation" [] None
               (fresh (lit "42") 2 3 100 300 15 0) in
  snd run = Returned None /\ List.length (posts (fst run)) = 1%nat.
Proof. vm_compute. split; reflexivity. Qed.

(* ================================================================== *)
(** * The claims about the producer *)

(** The text task built by [send_message]. *)
Lemma send_message_blank (E : Env) m pm dup s :
  truthy (strip m) = false ->
  send_message E m pm dup s
  = (logger WARNING "Attempted to send an empty message. Skipping." s, Returned tt).
Proof. intros H. unfold send_message. rewrite H. reflexivity. Qed.

(** A send that passes the duplicate check records the fingerprint, then
    tries to enqueue. *)
Lemma send_message_passes (E : Env) m pm dup s bytes :
  truthy (strip m) = true ->
  encode (wrap E m s) = Some bytes ->
  dup = true
  \/ TTLCache.contains (SHA256.hexdigest bytes) (clock s) (recent_messages s) = false ->
  send_message E m pm dup s
  = let s1 := set_recent_messages
                (TTLCache.setitem (SHA256.hexdigest bytes) (clock s) (recent_messages s)) s in
    match PyQueue.put_nowait
            (Some ("sendMessage"%string,
                   [("chat_id"%string, VStr (chat_id s));
                    ("parse_mode"%string, VStr pm);
                    ("text"%string, VStr (wrap E m s))], None))
            (message_queue s) with
    | Some q => (logger INFO "Message queued successfully" (set_message_queue q s1),
                 Returned tt)
    | None => (logger WARNING "Message queue full. Dropping message" s1, Returned tt)
    end.
Proof.
  intros Hm Henc Hpass. unfold send_message. rewrite Hm, Henc. cbn [negb].
  replace (negb dup
           && TTLCache.contains (SHA256.hexdigest bytes) (clock s) (recent_messages s))
    with false; [reflexivity|].
  destruct Hpass as [-> | ->]; [reflexivity | symmetry; apply andb_false_r].
Qed.

(** A send whose fingerprint is present and unexpired is suppressed. *)
Lemma send_message_suppressed (E : Env) m pm s bytes :
  truthy (strip m) = true ->
  encode (wrap E m s) = Some bytes ->
  TTLCache.contains (SHA256.hexdigest bytes) (clock s) (recent_messages s) = true ->
  send_message E m pm false s = (logger INFO "Skipping duplicate message" s, Returned tt).
Proof.
  intros Hm Henc Hc. unfold send_message. rewrite Hm, Henc, Hc. reflexivity.
Qed.

Lemma put_nowait_full {A} (x : A) q : PyQueue.full q = true -> PyQueue.put_nowait x q = None.
Proof. intros H. unfold PyQueue.put_nowait. rewrite H. reflexivity. Qed.

Lemma put_nowait_room {A} (x : A) q :
  PyQueue.full q = false ->
  PyQueue.put_nowait x q = Some (PyQueue.mk (PyQueue.maxsize q) (PyQueue.items q ++ [x])).
Proof. intros H. unfold PyQueue.put_nowait. rewrite H. reflexivity. Qed.

(** Two sends in the same second carry the same framing. *)
Lemma wrap_same_second (E : Env) m s s' :
  Qfloor (clock s') = Qfloor (clock s) -> wrap E m s' = wrap E m s.
Proof. intros H. unfold wrap, _get_formatted_time. rewrite H. reflexivity. Qed.

(** C2, as amended.  A non-blank text message sent with
    [allow_duplicates=True] whose framed text cannot be encoded (it holds
    a lone surrogate) leaves the call with [UnicodeEncodeError] at the
    hashing step, nothing changed.  Any other bypasses the duplicate
    check: whatever the cache holds, the call returns and the message is
    enqueued when the queue has room (dropped when it is full).  The cache
    is updated by that send all the same: the fingerprint of the framed
    text is recorded with a fresh expiry time, and a send with duplicates
    disallowed that is not suppressed does exactly the same. *)
Theorem allow_duplicates_bypasses_check_and_records (E : Env) (m pm : str)
    (s : DeepWhisperer) :
  truthy (strip m) = true ->
  match encode (wrap E m s) with
  | None => send_message E m pm true s = (s, Raised UnicodeEncodeError)
  | Some bytes =>
      let h := SHA256.hexdigest bytes in
      let item := Some ("sendMessage"%string,
                        [("chat_id"%string, VStr (chat_id s));
                         ("parse_mode"%string, VStr pm);
                         ("text"%string, VStr (wrap E m s))], None) in
      (exists s',
         send_message E m pm true s = (s', Returned tt)
         /\ PyQueue.items (message_queue s')
            = (if PyQueue.full (message_queue s) then PyQueue.items (message_queue s)
               else PyQueue.items (message_queue s) ++ [item])
         /\ recent_messages s' = TTLCache.setitem h (clock s) (recent_messages s)
         /\ TTLCache.find h (TTLCache.links (recent_messages s'))
            = Some (clock s + inject_Z (TTLCache.ttl (recent_messages s))))
      /\ (TTLCache.contains h (clock s) (recent_messages s) = false ->
          send_message E m pm false s = send_message E m pm true s)
  end.
Proof.
  intros Hm. destruct (encode (wrap E m s)) as [bytes|] eqn:Henc.
  - intros h item. split.
    + rewrite (send_message_passes E m pm true s bytes Hm Henc (or_introl eq_refl)).
      cbv zeta. fold item. fold h.
      destruct (PyQueue.full (message_queue s)) eqn:Hfull.
      * rewrite (put_nowait_full item _ Hfull). eexists. split; [reflexivity|].
        cbn [message_queue recent_messages logger set_recent_messages].
        repeat split. apply find_setitem.
      * rewrite (put_nowait_room item _ Hfull). eexists. split; [reflexivity|].
        cbn [message_queue recent_messages logger set_recent_messages set_message_queue
             PyQueue.items].
        repeat split. apply find_setitem.
    + intros Hnew.
      rewrite (send_message_passes E m pm true s bytes Hm Henc (or_introl eq_refl)).
      rewrite (send_message_passes E m pm false s bytes Hm Henc (or_intror Hnew)).
      reflexivity.
  - unfold send_message. rewrite Hm, Henc. reflexivity.
Qed.

Lemma allow_duplicates_bypasses_check_and_records_witness :
  exists s',
    send_message env_up (lit "hello") (lit "Markdown") true notifier = (s', Returned tt)
    /\ List.length (PyQueue.items (message_queue s')) = 1%nat
    /\ TTLCache.find
         "52d250b113f6c8c5223eea21d152735533d5cdf4271d793a17ec4bdd9b23e52e"
         (TTLCache.links (recent_messages s')) = Some 300.
Proof.
  pose proof (allow_duplicates_bypasses_check_and_records env_up (lit "hello")
                (lit "Markdown") notifier eq_refl) as H.
  destruct (encode (wrap env_up (lit "hello") notifier)) as [bytes|] eqn:Henc;
    [|vm_compute in Henc; discriminate Henc].
  destruct H as [[s' [Hrun [Hq [_ Hfind]]]] _].
  exists s'. split; [exact Hrun|]. split.
  - rewrite Hq. reflexivity.
  - vm_compute in Henc. inversion Henc. subst bytes.
    vm_compute in Hfind. exact Hfind.
Defined.

(** C2 as stated fails: a send with [allow_duplicates=True] changes the
    deduplication cache. *)
Lemma allow_duplicates_send_changes_cache :
  ~ (forall (E : Env) (m pm : str) (s : DeepWhisperer),
       recent_messages (fst (send_message E m pm true s)) = recent_messages s).
Proof.
  intros H.
  specialize (H env_up (lit "hello") (lit "Markdown") notifier).
  apply (f_equal (fun c => List.length (TTLCache.links c))) in H.
  vm_compute in H. discriminate H.
Qed.

(** C7.  When the queue is at capacity a text send adds no task to it,
    and the call returns to its caller without an error; a task that got
    as far as the enqueue attempt is rejected with a logged warning and
    nothing else.  (A text whose framing cannot be encoded never becomes a
    task: hashing it fails before any enqueue is attempted.) *)
Theorem full_queue_rejects_quietly (E : Env) (m pm : str) (dup : bool)
    (s : DeepWhisperer) :
  PyQueue.full (message_queue s) = true ->
  message_queue (fst (send_message E m pm dup s)) = message_queue s
  /\ (encode (wrap E m s) <> None ->
      snd (send_message E m pm dup s) = Returned tt)
  /\ (forall bytes,
        truthy (strip m) = true -> encode (wrap E m s) = Some bytes ->
        dup = true
        \/ TTLCache.contains (SHA256.hexdigest bytes) (clock s) (recent_messages s)
           = false ->
        snd (send_message E m pm dup s) = Returned tt
        /\ log (fst (send_message E m pm dup s))
           = log s ++ [(WARNING, "Message queue full. Dropping message"%string)]
        /\ posts (fst (send_message E m pm dup s)) = posts s
        /\ failed_messages (fst (send_message E m pm dup s)) = failed_messages s).
Proof.
  intros Hfull.
  assert (Hshape :
    forall bytes, truthy (strip m) = true -> encode (wrap E m s) = Some bytes ->
      send_message E m pm dup s
      = (logger INFO "Skipping duplicate message" s, Returned tt)
      \/ send_message E m pm dup s
         = (logger WARNING "Message queue full. Dropping message"
              (set_recent_messages
                 (TTLCache.setitem (SHA256.hexdigest bytes) (clock s)
                    (recent_messages s)) s), Returned tt)).
  { intros bytes Hm Henc.
    destruct (negb dup
              && TTLCache.contains (SHA256.hexdigest bytes) (clock s) (recent_messages s))
      eqn:Hcheck.
    - left. apply andb_true_iff in Hcheck. destruct Hcheck as [Hdup Hc].
      apply negb_true_iff in Hdup. subst dup.
      apply (send_message_suppressed E m pm s bytes Hm Henc Hc).
    - right. rewrite (send_message_passes E m pm dup s bytes Hm Henc).
      + cbv zeta. rewrite put_nowait_full by exact Hfull. reflexivity.
      + apply andb_false_iff in Hcheck. destruct Hcheck as [Hdup | Hc].
        * left. apply negb_false_iff. exact Hdup.
        * right. exact Hc. }
  destruct (truthy (strip m)) eqn:Hm.
  - destruct (encode (wrap E m s)) as [bytes|] eqn:Henc.
    + split; [|split].
      * destruct (Hshape bytes eq_refl eq_refl) as [-> | ->]; reflexivity.
      * intros _. destruct (Hshape bytes eq_refl eq_refl) as [-> | ->]; reflexivity.
      * intros bytes' _ Hb Hpass. inversion Hb. subst bytes'.
        rewrite (send_message_passes E m pm dup s bytes Hm Henc Hpass).
        cbv zeta. rewrite put_nowait_full by exact Hfull.
        repeat split.
    + split; [|split].
      * unfold send_message. rewrite Hm, Henc. reflexivity.
      * intros Hne. exfalso. apply Hne. reflexivity.
      * intros bytes _ Hb. discriminate Hb.
  - rewrite (send_message_blank E m pm dup s Hm). split; [|split].
    + reflexivity.
    + reflexivity.
    + intros bytes Hm'. discriminate Hm'.
Qed.

(** A notifier whose queue of capacity one is already full. *)
Lemma full_queue_rejects_quietly_witness :
  let s := fst (send_message env_up (lit "first") (lit "Markdown") false
                  (fresh (lit "42") 5 3 1 300 15 0)) in
  let s' := fst (send_message env_up (lit "second") (lit "Markdown") false s) in
  PyQueue.full (message_queue s) = true
  /\ message_queue s' = message_queue s
  /\ snd (send_message env_up (lit "second") (lit "Markdown") false s) = Returned tt.
Proof.
  intros s s'.
  assert (Hfull : PyQueue.full (message_queue s) = true) by (vm_compute; reflexivity).
  destruct (full_queue_rejects_quietly env_up (lit "second") (lit "Markdown") false s Hfull)
    as [Hq [Hret _]].
  split; [exact Hfull|]. split; [exact Hq|].
  apply Hret. vm_compute. discriminate.
Defined.

(** The other producers reject in the same way; the location producer: *)
Lemma send_location_full_queue lat long dn reply s :
  PyQueue.full (message_queue s) = true ->
  send_location lat long dn reply s
  = (logger WARNING "Message queue full. Dropping location" s, Returned tt).
Proof.
  intros Hfull. unfold send_location. rewrite put_nowait_full by exact Hfull.
  reflexivity.
Qed.

(** A text send leaves the clock alone, and stores at most one
    fingerprint, at the present time. *)
Lemma send_message_stores (E : Env) m pm dup s :
  clock (fst (send_message E m pm dup s)) = clock s
  /\ (recent_messages (fst (send_message E m pm dup s)) = recent_messages s
      \/ exists h, recent_messages (fst (send_message E m pm dup s))
                   = TTLCache.setitem h (clock s) (recent_messages s)).
Proof.
  unfold send_message.
  destruct (negb (truthy (strip m))); [split; [reflexivity | left; reflexivity]|].
  destruct (encode (wrap E m s)) as [bytes|]; [|split; [reflexivity | left; reflexivity]].
  match goal with |- context [if ?c then _ else _] => destruct c end;
    [split; [reflexivity | left; reflexivity]|].
  destruct (PyQueue.put_nowait _ _); (split; [reflexivity | right; eexists; reflexivity]).
Qed.

(** Texts sent one after the other store at most one fingerprint
    each. *)
Lemma send_all_stored (E : Env) others : forall s c n,
  stored (clock s) (clock s) c n (recent_messages s) ->
  clock (send_all E others s) = clock s
  /\ exists n', (n' <= n + List.length others)%nat
                /\ stored (clock s) (clock s) c n' (recent_messages (send_all E others s)).
Proof.
  induction others as [|o others IH]; intros s c n Hst.
  - split; [reflexivity|]. exists n. split; [simpl; lia | exact Hst].
  - cbn [send_all fold_left].
    fold (send_all E others (fst (send_message E o (lit "Markdown") false s))).
    destruct (send_message_stores E o (lit "Markdown") false s) as [Hclock Hcache].
    set (s1 := fst (send_message E o (lit "Markdown") false s)) in *.
    assert (Hnext : exists n1, (n1 <= S n)%nat
                               /\ stored (clock s1) (clock s1) c n1 (recent_messages s1)).
    { rewrite Hclock. destruct Hcache as [-> | [h ->]].
      - exists n. split; [lia | exact Hst].
      - exists (S n). split; [lia|]. constructor; [exact Hst | |]; apply Qle_refl. }
    destruct Hnext as (n1 & Hn1 & Hst1).
    destruct (IH s1 c n1 Hst1) as (Hc & n' & Hn' & Hst').
    rewrite Hclock in Hc, Hst'. split; [exact Hc|].
    exists n'. split; [cbn [List.length]; lia | exact Hst'].
Qed.

(** C10, as amended.  A non-blank text message whose framed text can be
    encoded, sent with duplicates disallowed while the queue is at
    capacity, and not itself a duplicate, is dropped: the call returns,
    the queue is unchanged.  Its fingerprint is recorded all the same, so
    a later send of the same framed text is suppressed, whatever room the
    queue has by then, as long as the TTL has not run out and fewer
    fingerprints than the cache has places, one hundred, were stored in
    between. *)
Theorem dropped_message_is_still_recorded (E : Env) (m pm : str)
    (s : DeepWhisperer) (bytes : list byte) :
  truthy (strip m) = true ->
  encode (wrap E m s) = Some bytes ->
  PyQueue.full (message_queue s) = true ->
  TTLCache.contains (SHA256.hexdigest bytes) (clock s) (recent_messages s) = false ->
  let s1 := fst (send_message E m pm false s) in
  snd (send_message E m pm false s) = Returned tt
  /\ message_queue s1 = message_queue s
  /\ TTLCache.find (SHA256.hexdigest bytes) (TTLCache.links (recent_messages s1))
     = Some (clock s + inject_Z (TTLCache.ttl (recent_messages s)))
  /\ forall n s2 pm2,
       stored (clock s) (clock s2) (recent_messages s1) n (recent_messages s2) ->
       (Z.of_nat n < TTLCache.maxsize (recent_messages s))%Z ->
       wrap E m s2 = wrap E m s ->
       clock s2 < clock s + inject_Z (TTLCache.ttl (recent_messages s)) ->
       send_message E m pm2 false s2
       = (logger INFO "Skipping duplicate message" s2, Returned tt).
Proof.
  intros Hm Henc Hfull Hnew s1. subst s1.
  rewrite (send_message_passes E m pm false s bytes Hm Henc (or_intror Hnew)).
  cbv zeta. rewrite put_nowait_full by exact Hfull.
  cbn [fst snd message_queue recent_messages logger set_recent_messages].
  split; [reflexivity|]. split; [reflexivity|]. split; [apply find_setitem|].
  intros n s2 pm2 Hst Hn Hwrap Hlate.
  apply (send_message_suppressed E m pm2 s2 bytes Hm).
  - rewrite Hwrap. exact Henc.
  - destruct (stored_holds _ _ _ _ _ _ Hst Hlate Hn) as [Hh _].
    apply (holds_contains _ _ _ _ _ Hh Hlate).
Qed.

Lemma dropped_message_is_still_recorded_witness :
  let s1 := fst (send_message env_up (lit "second") (lit "Markdown") false crowded) in
  let s2 := set_message_queue (PyQueue.create 1)
              (send_all env_up [lit "third"; lit "fourth"] s1) in
  message_queue s1 = message_queue crowded
  /\ send_message env_up (lit "second") (lit "Markdown") false s2
     = (logger INFO "Skipping duplicate message" s2, Returned tt).
Proof.
  intros s1 s2.
  destruct (dropped_message_is_still_recorded env_up (lit "second") (lit "Markdown")
              crowded
              (match encode (wrap env_up (lit "second") crowded) with
               | Some b => b
               | None => []
               end))
    as [_ [Hq [_ Hlater]]].
  - reflexivity.
  - vm_compute. reflexivity.
  - vm_compute. reflexivity.
  - vm_compute. reflexivity.
  - split; [exact Hq|].
    destruct (send_all_stored env_up [lit "third"; lit "fourth"] s1 (recent_messages s1)
                O (stored_none _ _ _))
      as (Hclock & n & Hn & Hst).
    apply (Hlater n).
    + exact Hst.
    + cbn [List.length] in Hn. change (TTLCache.maxsize (recent_messages crowded))
        with 100%Z. lia.
    + apply wrap_same_second. vm_compute. reflexivity.
    + vm_compute. reflexivity.
Defined.

(** C10 as stated fails: the cache has one hundred places.  A text is
    dropped at a full queue and recorded; one hundred other texts follow
    within the same second, each of them dropped and recorded as well; the
    first text, sent again in that second, well within the TTL of 300
    seconds, is not suppressed: its fingerprint has been pushed out of the
    cache, and the send gets as far as the full queue once more. *)
Lemma later_texts_push_the_fingerprint_out :
  ~ suppresses_until_ttl env_up (lit "hello")
      (fst (send_message env_up (lit "hello") (lit "Markdown") false crowded)).
Proof.
  intros H. specialize (H hundred_texts). cbv zeta in H.
  assert (Hrun : send_message env_up (lit "hello") (lit "Markdown") false
                   (send_all env_up hundred_texts
                      (fst (send_message env_up (lit "hello") (lit "Markdown") false
                              crowded)))
                 = (logger INFO "Skipping duplicate message"
                      (send_all env_up hundred_texts
                         (fst (send_message env_up (lit "hello") (lit "Markdown") false
                                 crowded))), Returned tt)).
  { apply H.
    - apply wrap_same_second. vm_compute. reflexivity.
    - vm_compute. reflexivity. }
  apply (f_equal (fun r => last (log (fst r)) (DEBUG, EmptyString))) in Hrun.
  vm_compute in Hrun. discriminate Hrun.
Qed.

(** The same run, computed: after the hundred other texts the cache is
    full, the fingerprint of the first text is no longer in it, and the
    repeat is dropped at the queue with the warning of a full queue. *)
Lemma repeat_after_hundred_texts :
  let s1 := fst (send_message env_up (lit "hello") (lit "Markdown") false crowded) in
  let s2 := send_all env_up hundred_texts s1 in
  let h := "52d250b113f6c8c5223eea21d152735533d5cdf4271d793a17ec4bdd9b23e52e"%string in
  TTLCache.find h (TTLCache.links (recent_messages s1)) = Some 300
  /\ List.length (TTLCache.links (recent_messages s2)) = 100%nat
  /\ TTLCache.find h (TTLCache.links (recent_messages s2)) = None
  /\ clock s2 = clock s1
  /\ last (log (fst (send_message env_up (lit "hello") (lit "Markdown") false s2)))
          (DEBUG, EmptyString)
     = (WARNING, "Message queue full. Dropping message"%string).
Proof. vm_compute. repeat split. Qed.

(** C3 fails on the code.  The fingerprint covers the timestamp line,
    which changes every second: the same text sent again one second
    later, well within the TTL of 300 seconds and with duplicates
    disallowed, is not suppressed, and two tasks reach the queue. *)
Theorem repeat_after_one_second_is_enqueued :
  let s1 := fst (send_message env_up (lit "hello") (lit "Markdown") false notifier) in
  let s2 := fst (send_message env_up (lit "hello") (lit "Markdown") false (elapse 1 s1)) in
  TTLCache.ttl (recent_messages notifier) = 300%Z
  /\ List.length (PyQueue.items (message_queue s1)) = 1%nat
  /\ List.length (PyQueue.items (message_queue s2)) = 2%nat
  /\ log s2 = [(INFO, "Message queued successfully"%string);
               (INFO, "Message queued successfully"%string)].
Proof. vm_compute. repeat split. Qed.

(** What the code does keep of C3: a repeat whose framing is the same,
    that is, sent within the same clock second, is suppressed. *)
Lemma repeat_within_same_second_suppressed (E : Env) (m pm pm2 : str)
    (s : DeepWhisperer) (bytes : list byte) (d : Q) :
  truthy (strip m) = true ->
  encode (wrap E m s) = Some bytes ->
  0 <= d -> d < inject_Z (TTLCache.ttl (recent_messages s)) ->
  Qfloor (clock s + d) = Qfloor (clock s) ->
  TTLCache.contains (SHA256.hexdigest bytes) (clock s) (recent_messages s) = false ->
  let s1 := fst (send_message E m pm false s) in
  send_message E m pm2 false (elapse d s1)
  = (logger INFO "Skipping duplicate message" (elapse d s1), Returned tt).
Proof.
  intros Hm Henc Hd Httl Hsec Hnew s1.
  assert (Hcache : recent_messages s1
                   = TTLCache.setitem (SHA256.hexdigest bytes) (clock s) (recent_messages s)
                   /\ clock s1 = clock s).
  { subst s1. rewrite (send_message_passes E m pm false s bytes Hm Henc (or_intror Hnew)).
    cbv zeta. destruct (PyQueue.put_nowait _ _); split; reflexivity. }
  destruct Hcache as [Hcache Hclock].
  apply (send_message_suppressed E m pm2 (elapse d s1) bytes Hm).
  - rewrite <- Henc. f_equal. apply wrap_same_second.
    cbn [clock elapse]. rewrite Hclock. exact Hsec.
  - cbn [clock elapse recent_messages]. rewrite Hcache, Hclock.
    apply contains_setitem_within_ttl. exact Httl.
Qed.

(* ================================================================== *)
(** * The worker pool *)

Section Pool.
Import DW PyStr Spec More.
Variable E : Env.

Lemma same_attrs_but_ledger s s' : same_attrs s s' -> same_but_ledger s s'.
Proof. unfold same_attrs, same_but_ledger. tauto. Qed.

Lemma same_but_ledger_refl s : same_but_ledger s s.
Proof. repeat split. Qed.

Lemma same_but_ledger_trans s1 s2 s3 :
  same_but_ledger s1 s2 -> same_but_ledger s2 s3 -> same_but_ledger s1 s3.
Proof.
  unfold same_but_ledger. intros H1 H2.
  repeat match goal with H : _ /\ _ |- _ => destruct H end.
  repeat split; congruence.
Qed.

(** ** One turn *)

(** The three turns there are on a pending future. *)
Lemma turn_cases w s endpoint p f :
  w_task w = (endpoint, p, f) -> pending w = true ->
  (exists a s1 e,
     w_state w = Attempting a /\ (a < max_retries s)%Z
     /\ one_attempt E a endpoint p f (set_clock (w_time w) s) = (s1, e)
     /\ turn E w s
        = (mk_worker (w_task w) (clock s1)
             (match e with Again => Attempting (a + 1) | Ended r => Completed r end),
           set_clock (clock s) s1))
  \/ (exists a,
        w_state w = Attempting a /\ (max_retries s <= a)%Z
        /\ turn E w s = (mk_worker (w_task w) (w_time w) (Completed (Returned None)), s))
  \/ (exists r,
        w_state w = Completed r
        /\ turn E w s = (mk_worker (w_task w) (w_time w) Handled, handle (w_task w) r s)).
Proof.
  intros Htask Hpending. unfold turn, pending in *. rewrite Htask.
  destruct (w_state w) as [a|r|]; [| |discriminate Hpending].
  - destruct (a <? max_retries s)%Z eqn:Hlt.
    + left. apply Z.ltb_lt in Hlt.
      destruct (one_attempt E a endpoint p f (set_clock (w_time w) s)) as [s1 e] eqn:Hrun.
      exists a, s1, e. destruct e; auto.
    + right. left. apply Z.ltb_ge in Hlt. exists a. auto.
  - right. right. exists r. auto.
Qed.

(** Only an attempt that is not the last of the budget is followed by
    another one. *)
Lemma one_attempt_again a endpoint p f s :
  snd (one_attempt E a endpoint p f s) = Again -> (a < max_retries s - 1)%Z.
Proof.
  unfold one_attempt.
  destruct (post E (List.length (posts s)) (endpoint, p, f)) as [resp|]; [|discriminate].
  destruct (is_success resp); [discriminate|].
  destruct (a <? max_retries s - 1)%Z eqn:Hlt; [|discriminate].
  intros _. apply Z.ltb_lt. exact Hlt.
Qed.

Lemma handle_effects t r s :
  same_but_ledger s (handle t r s) /\ posts (handle t r s) = posts s
  /\ clock (handle t r s) = clock s
  /\ failed_messages (handle t r s)
     = failed_messages s ++ match r with
                            | Returned (Some _) => []
                            | _ => [pair_of t]
                            end.
Proof.
  destruct t as [[endpoint p] f]. unfold handle, pair_of.
  destruct r as [[resp|]|e];
    cbn [posts clock failed_messages set_failed_messages logger];
    rewrite ?app_nil_r; repeat split.
Qed.

(** A turn changes neither settings nor cache, queue or stop event, and
    leaves the worker's clock alone; it posts the task of its future or
    nothing, and puts the pair of that task on the ledger or nothing. *)
Lemma turn_effects w s :
  pending w = true ->
  let w' := fst (turn E w s) in
  let s' := snd (turn E w s) in
  same_but_ledger s s' /\ clock s' = clock s
  /\ w_task w' = w_task w /\ w_time w <= w_time w'
  /\ (posts s' = posts s \/ posts s' = posts s ++ [w_task w])
  /\ (failed_messages s' = failed_messages s
      \/ failed_messages s' = failed_messages s ++ [pair_of (w_task w)]).
Proof.
  intros Hpending. cbv zeta.
  destruct (w_task w) as [[endpoint p] f] eqn:Htask.
  destruct (turn_cases w s endpoint p f Htask Hpending)
    as [(a & s1 & e & _ & _ & Hrun & ->) | [(a & _ & _ & ->) | (r & _ & ->)]];
    cbn [fst snd w_task w_time]; rewrite ?Htask.
  - pose proof (one_attempt_effects E a endpoint p f (set_clock (w_time w) s)) as H.
    cbv zeta in H. rewrite Hrun in H. cbn [fst] in H.
    destruct H as (Hattrs & Hposts & Hclock & _).
    cbn [clock posts set_clock] in Hposts, Hclock.
    split; [|split; [reflexivity|split; [reflexivity|split; [exact Hclock|split]]]].
    + apply same_attrs_but_ledger in Hattrs. destruct Hattrs as (? & ? & ? & ? & ? & ? & ?).
      repeat split; assumption.
    + right. exact Hposts.
    + left. destruct Hattrs as (_ & _ & _ & _ & _ & _ & Hled & _). exact Hled.
  - repeat split; try apply same_but_ledger_refl; try apply Qle_refl; auto.
  - destruct (handle_effects (endpoint, p, f) r s) as (Hf & Hp & Hc & Hl).
    split; [exact Hf|]. split; [exact Hc|]. split; [reflexivity|].
    split; [apply Qle_refl|]. split; [left; exact Hp|].
    rewrite Hl. destruct r as [[resp|]|e]; [left; apply app_nil_r | right | right];
      reflexivity.
Qed.

(** The turn of a thread leaves the ledger to the worker. *)
Lemma turn_of_thread_ledger w s a :
  w_state w = Attempting a ->
  failed_messages (snd (turn E w s)) = failed_messages s.
Proof.
  intros Hst. unfold turn. destruct (w_task w) as [[endpoint p] f]. rewrite Hst.
  destruct (a <? max_retries s)%Z; [|reflexivity].
  pose proof (one_attempt_effects E a endpoint p f (set_clock (w_time w) s)) as H.
  cbv zeta in H.
  destruct (one_attempt E a endpoint p f (set_clock (w_time w) s)) as [s1 e].
  cbn [fst] in H. destruct H as ((_ & _ & _ & _ & _ & _ & Hled & _) & _).
  destruct e; exact Hled.
Qed.

(** ** The scheduler *)

(** A turn of the scheduler is a turn on one pending future, the others
    staying as they are. *)
Lemma advance_turn ws : forall n s,
  advance E n ws s = (ws, s)
  \/ exists pre w post,
       ws = pre ++ w :: post /\ pending w = true
       /\ advance E n ws s = (pre ++ fst (turn E w s) :: post, snd (turn E w s)).
Proof.
  induction ws as [|w rest IH]; intros n s; cbn [advance]; [left; reflexivity|].
  assert (Hrest : forall m,
            (let (rest1, s1) := advance E m rest s in (w :: rest1, s1)) = (w :: rest, s)
            \/ exists pre w0 post,
                 w :: rest = pre ++ w0 :: post /\ pending w0 = true
                 /\ (let (rest1, s1) := advance E m rest s in (w :: rest1, s1))
                    = (pre ++ fst (turn E w0 s) :: post, snd (turn E w0 s))).
  { intros m. destruct (IH m s) as [-> | (pre & w0 & post & Hws & Hp & ->)].
    - left. reflexivity.
    - right. exists (w :: pre), w0, post. rewrite Hws. auto. }
  destruct (pending w) eqn:Hp; [|apply Hrest].
  destruct n as [|n]; [|apply Hrest].
  right. exists [], w, rest. destruct (turn E w s). auto.
Qed.

(** When the scheduler's number is below the number of pending futures,
    the turn takes place. *)
Lemma advance_takes_place ws : forall n s,
  (n < List.length (filter pending ws))%nat ->
  exists pre w post,
    ws = pre ++ w :: post /\ pending w = true
    /\ advance E n ws s = (pre ++ fst (turn E w s) :: post, snd (turn E w s)).
Proof.
  induction ws as [|w rest IH]; intros n s Hn; cbn [filter List.length] in Hn; [lia|].
  cbn [advance]. destruct (pending w) eqn:Hp.
  - destruct n as [|n].
    + exists [], w, rest. destruct (turn E w s). auto.
    + cbn [List.length] in Hn.
      destruct (IH n s ltac:(lia)) as (pre & w0 & post & Hws & Hp0 & ->).
      exists (w :: pre), w0, post. rewrite Hws. auto.
  - destruct (IH n s Hn) as (pre & w0 & post & Hws & Hp0 & ->).
    exists (w :: pre), w0, post. rewrite Hws. auto.
Qed.

(** What holds of the futures and the world at the start of the pool,
    and is kept by every turn on a pending future, whichever it is, holds
    when the pool ends. *)
Lemma pool_invariant (I : list worker -> DeepWhisperer -> Prop) :
  (forall ws s, I ws s -> I ws (record_pick s)) ->
  (forall pre w post s,
     pending w = true -> I (pre ++ w :: post) s ->
     I (pre ++ fst (turn E w s) :: post) (snd (turn E w s))) ->
  forall fuel ws s,
    I ws s -> I (fst (pool E fuel ws s)) (snd (pool E fuel ws s)).
Proof.
  intros Hpick Hturn. induction fuel as [|fuel IH]; intros ws s H; cbn [pool];
    [exact H|].
  destruct (List.length (filter pending ws)) as [|m]; [exact H|].
  destruct (advance_turn ws (pick E (picks s) mod S m) (record_pick s))
    as [-> | (pre & w & post & -> & Hp & ->)].
  - apply IH. apply Hpick. exact H.
  - apply IH. apply Hturn; [exact Hp|]. apply Hpick. exact H.
Qed.

(** ** The pool comes to its end *)

Lemma turn_uses_a_turn w s :
  pending w = true ->
  (turns_left (max_retries s) (fst (turn E w s)) < turns_left (max_retries s) w)%nat
  /\ max_retries (snd (turn E w s)) = max_retries s.
Proof.
  intros Hp. destruct (turn_effects w s Hp) as ((_ & Hmax & _) & _). split; [|exact Hmax].
  destruct (w_task w) as [[endpoint p] f] eqn:Htask.
  destruct (turn_cases w s endpoint p f Htask Hp)
    as [(a & s1 & e & Hst & Ha & Hrun & ->) | [(a & Hst & Ha & ->) | (r & Hst & ->)]];
    unfold turns_left; rewrite Hst; cbn [fst w_state].
  - destruct e; lia.
  - lia.
  - lia.
Qed.

Lemma turns_left_none budget ws :
  list_sum (map (turns_left budget) ws) = O -> filter pending ws = [].
Proof.
  unfold list_sum. induction ws as [|w ws IH]; [reflexivity|].
  cbn [map fold_right filter]. intros H.
  assert (Hw : turns_left budget w = O) by lia.
  unfold turns_left in Hw. unfold pending.
  destruct (w_state w); [lia | lia |]. apply IH. lia.
Qed.

(** With as many turns as the futures have before them, every future is
    handled when the pool ends. *)
Lemma pool_ends : forall fuel ws s,
  (list_sum (map (turns_left (max_retries s)) ws) <= fuel)%nat ->
  filter pending (fst (pool E fuel ws s)) = [].
Proof.
  induction fuel as [|fuel IH]; intros ws s Hfuel; cbn [pool].
  - cbn [fst]. apply (turns_left_none (max_retries s)). lia.
  - destruct (List.length (filter pending ws)) as [|m] eqn:Hlen.
    + cbn [fst]. apply length_zero_iff_nil. exact Hlen.
    + destruct (advance_takes_place ws (pick E (picks s) mod S m) (record_pick s))
        as (pre & w & post & Hws & Hp & ->).
      { rewrite Hlen. apply Nat.mod_upper_bound. discriminate. }
      destruct (turn_uses_a_turn w (record_pick s) Hp) as [Hless Hmax].
      cbn [max_retries record_pick] in Hless, Hmax.
      apply IH. rewrite Hmax. subst ws.
      rewrite !map_app, !list_sum_app in *. cbn [map list_sum fold_right] in *. lia.
Qed.

Lemma pool_fuel_suffices batch s :
  (list_sum (map (turns_left (max_retries s))
               (map (fun t => mk_worker t (clock s) (Attempting 0)) batch))
   <= pool_fuel batch s)%nat.
Proof.
  unfold pool_fuel. induction batch as [|t batch IH]; [simpl; lia|].
  cbn [map list_sum fold_right List.length Nat.mul]. fold (list_sum (map (turns_left (max_retries s)) (map (fun t => mk_worker t (clock s) (Attempting 0)) batch))). unfold turns_left at 1. cbn [w_state].
  rewrite Z.sub_0_r. lia.
Qed.

(** ** What the pool leaves alone *)

Lemma last_time_later ws t : t <= last_time ws t.
Proof.
  induction ws as [|w ws IH]; cbn [last_time fold_right]; [apply Qle_refl|].
  fold (last_time ws t).
  destruct (Clock.Qltb (last_time ws t) (w_time w)) eqn:H; [|exact IH].
  apply Qltb_lt in H. lra.
Qed.

(** The dispatch step runs its pool to the end: [pool_fuel] turns
    suffice for every future to be handled. *)
Lemma dispatch_handles_all batch s :
  filter pending
    (fst (pool E (pool_fuel batch s)
            (map (fun t => mk_worker t (clock s) (Attempting 0)) batch) s)) = [].
Proof. apply pool_ends. apply pool_fuel_suffices. Qed.

(** From a property of the futures and the world that every turn keeps
    to a property of the state after the dispatch step. *)
Lemma dispatch_invariant (I : list worker -> DeepWhisperer -> Prop) batch s :
  (forall ws s, I ws s -> I ws (record_pick s)) ->
  (forall pre w post s,
     pending w = true -> I (pre ++ w :: post) s ->
     I (pre ++ fst (turn E w s) :: post) (snd (turn E w s))) ->
  I (map (fun t => mk_worker t (clock s) (Attempting 0)) batch) s ->
  exists ws s1,
    I ws s1 /\ filter pending ws = []
    /\ dispatch E batch s = set_clock (last_time ws (clock s)) s1.
Proof.
  intros Hpick Hturn Hstart. unfold dispatch.
  pose proof (pool_invariant I Hpick Hturn (pool_fuel batch s) _ s Hstart) as Hend.
  pose proof (dispatch_handles_all batch s) as Hall.
  destruct (pool E (pool_fuel batch s)
              (map (fun t => mk_worker t (clock s) (Attempting 0)) batch) s)
    as [ws s1].
  exists ws, s1. auto.
Qed.

(** The dispatch step changes neither settings nor cache, queue or stop
    event, and time does not run backwards; every request it posts is a
    task of its batch, and the ledger only gets pairs appended. *)
Lemma dispatch_effects batch s :
  same_but_ledger s (dispatch E batch s)
  /\ clock s <= clock (dispatch E batch s)
  /\ (exists l, posts (dispatch E batch s) = posts s ++ l
                /\ Forall (fun r => In r batch) l)
  /\ (exists new, failed_messages (dispatch E batch s) = failed_messages s ++ new
                  /\ Forall is_pair new).
Proof.
  destruct (dispatch_invariant
              (fun ws s1 =>
                 Forall (fun w => In (w_task w) batch) ws
                 /\ same_but_ledger s s1
                 /\ (exists l, posts s1 = posts s ++ l /\ Forall (fun r => In r batch) l)
                 /\ (exists new, failed_messages s1 = failed_messages s ++ new
                                 /\ Forall is_pair new))
              batch s) as (ws & s1 & (_ & Hf & Hp & Hl) & _ & ->).
  - intros ws s1 H. exact H.
  - intros pre w post s1 Hpending (Hws & Hf & (l & Hl & Hin) & (new & Hn & Hpairs)).
    destruct (turn_effects w s1 Hpending) as (Hf1 & _ & Htask & _ & Hposts & Hled).
    cbv zeta in *.
    assert (Hw : In (w_task w) batch).
    { rewrite Forall_forall in Hws. apply Hws. apply in_or_app. right. left. reflexivity. }
    split; [|split; [|split]].
    + apply Forall_app in Hws. destruct Hws as [Hpre Hpost].
      apply Forall_app. split; [exact Hpre|].
      inversion Hpost; subst. constructor; [rewrite Htask; exact Hw | assumption].
    + eapply same_but_ledger_trans; eassumption.
    + destruct Hposts as [-> | ->].
      * exists l. auto.
      * exists (l ++ [w_task w]). rewrite Hl, <- app_assoc. split; [reflexivity|].
        apply Forall_app. split; [exact Hin | repeat constructor; exact Hw].
    + destruct Hled as [-> | ->].
      * exists new. auto.
      * exists (new ++ [pair_of (w_task w)]). rewrite Hn, <- app_assoc.
        split; [reflexivity|]. apply Forall_app. split; [exact Hpairs|].
        repeat constructor. destruct (w_task w) as [[? ?] ?]. exact I.
  - split; [|split; [apply same_but_ledger_refl|split]].
    + apply Forall_forall. intros w Hw. apply in_map_iff in Hw.
      destruct Hw as [t [<- Ht]]. exact Ht.
    + exists []. rewrite app_nil_r. auto.
    + exists []. rewrite app_nil_r. auto.
  - cbn [clock posts failed_messages set_clock].
    split; [|split; [apply last_time_later | auto]].
    destruct Hf as (? & ? & ? & ? & ? & ? & ?). repeat split; assumption.
Qed.

Lemma dispatch_frame batch s :
  same_but_ledger s (dispatch E batch s) /\ clock s <= clock (dispatch E batch s).
Proof. destruct (dispatch_effects batch s) as (H1 & H2 & _). auto. Qed.

Lemma dispatch_queue batch s :
  message_queue (dispatch E batch s) = message_queue s.
Proof. destruct (dispatch_effects batch s) as ((_ & _ & _ & _ & _ & H & _) & _). exact H. Qed.

(** The dispatch step only ever appends pairs to the ledger. *)
Lemma dispatch_ledger_pairs batch s :
  Forall is_pair (failed_messages s) ->
  Forall is_pair (failed_messages (dispatch E batch s)).
Proof.
  intros Hs. destruct (dispatch_effects batch s) as (_ & _ & _ & new & -> & Hnew).
  apply Forall_app. auto.
Qed.

(** ** A pool of one thread *)

(** A batch of one task is posted as one call of the sender posts it:
    between one and [max_retries] times, and not at all without a
    budget. *)
Lemma dispatch_one_task req s :
  exists k,
    posts (dispatch E [req] s) = posts s ++ repeat req k
    /\ (k <= Z.to_nat (max_retries s))%nat
    /\ ((1 <= max_retries s)%Z -> (1 <= k)%nat).
Proof.
  destruct (dispatch_invariant
              (fun ws s1 =>
                 max_retries s1 = max_retries s
                 /\ exists w k,
                      ws = [w] /\ w_task w = req
                      /\ posts s1 = posts s ++ repeat req k
                      /\ match w_state w with
                         | Attempting a =>
                             a = Z.of_nat k /\ (k = O \/ (a < max_retries s)%Z)
                         | _ => (k <= Z.to_nat (max_retries s))%nat
                                /\ ((1 <= max_retries s)%Z -> (1 <= k)%nat)
                         end)
              [req] s) as (ws & s1 & (_ & w & k & -> & _ & Hposts & Hk) & Hall & ->).
  - intros ws s1 H. exact H.
  - intros pre w post s1 Hpending (Hmax & w0 & k & Hws & Htask & Hposts & Hk).
    assert (pre = [] /\ w = w0 /\ post = []) as (-> & -> & ->).
    { destruct pre as [|x pre]; [|destruct pre; discriminate Hws].
      inversion Hws. auto. }
    clear Hws. cbn [app].
    destruct (turn_effects w0 s1 Hpending) as ((_ & Hmax1 & _) & _).
    cbv zeta in Hmax1. split; [congruence|].
    destruct req as [[endpoint p] f].
    destruct (turn_cases w0 s1 endpoint p f Htask Hpending)
      as [(a & s2 & e & Hst & Ha & Hrun & ->) | [(a & Hst & Ha & ->) | (r & Hst & ->)]];
      rewrite Hst in Hk; cbn [fst snd w_state w_task].
    + destruct Hk as [-> _].
      pose proof (one_attempt_effects E (Z.of_nat k) endpoint p f
                    (set_clock (w_time w0) s1)) as H.
      pose proof (one_attempt_again (Z.of_nat k) endpoint p f
                    (set_clock (w_time w0) s1)) as Hagain.
      cbv zeta in H. rewrite Hrun in H, Hagain. cbn [fst snd] in H, Hagain.
      destruct H as (_ & Hp2 & _). cbn [posts set_clock max_retries] in Hp2, Hagain.
      eexists _, (S k). split; [reflexivity|]. split; [exact Htask|]. split.
      * cbn [posts set_clock]. rewrite Hp2, Hposts, <- app_assoc.
        f_equal. symmetry. apply repeat_cons.
      * cbn [w_state]. rewrite Hmax in *.
        destruct e as [|r]; [specialize (Hagain eq_refl)|]; lia.
    + destruct Hk as [-> Hk0].
      eexists _, k. split; [reflexivity|]. split; [exact Htask|].
      split; [exact Hposts|]. cbn [w_state]. rewrite Hmax in *. lia.
    + eexists _, k. split; [reflexivity|]. split; [exact Htask|]. split; [|exact Hk].
      destruct (handle_effects (w_task w0) r s1) as (_ & -> & _). exact Hposts.
  - split; [reflexivity|]. eexists _, O. split; [reflexivity|].
    cbn [w_task w_state repeat]. rewrite app_nil_r. repeat split. left. reflexivity.
  - exists k. cbn [posts set_clock]. split; [exact Hposts|].
    cbn [filter] in Hall. unfold pending in Hall.
    destruct (w_state w); [discriminate Hall | discriminate Hall | exact Hk].
Qed.

(** ** Pools in which every call ends at its first turn *)

Lemma tasks_of_turned test pre w w' post :
  w_task w' = w_task w -> test w = false -> test w' = true ->
  Permutation.Permutation (tasks_of test (pre ++ w' :: post))
                          (w_task w :: tasks_of test (pre ++ w :: post)).
Proof.
  intros Htask Hw Hw'. unfold tasks_of.
  rewrite !filter_app. cbn [filter]. rewrite Hw, Hw', !map_app. cbn [map].
  rewrite Htask. symmetry. apply Permutation.Permutation_middle.
Qed.

Lemma tasks_of_kept test pre w w' post :
  w_task w' = w_task w -> test w' = test w ->
  tasks_of test (pre ++ w' :: post) = tasks_of test (pre ++ w :: post).
Proof.
  intros Htask Hw. unfold tasks_of.
  rewrite !filter_app. cbn [filter]. rewrite Hw.
  destruct (test w); rewrite !map_app; cbn [map]; rewrite ?Htask; reflexivity.
Qed.

Lemma tasks_of_all test ws :
  (forall w, In w ws -> test w = true) -> tasks_of test ws = map w_task ws.
Proof.
  intros H. unfold tasks_of. f_equal.
  induction ws as [|w ws IH]; [reflexivity|].
  cbn [filter]. rewrite (H w (or_introl eq_refl)). f_equal.
  apply IH. intros x Hx. apply H. right. exact Hx.
Qed.

Lemma tasks_of_none test ws :
  (forall w, In w ws -> test w = false) -> tasks_of test ws = [].
Proof.
  intros H. unfold tasks_of.
  induction ws as [|w ws IH]; [reflexivity|].
  cbn [filter]. rewrite (H w (or_introl eq_refl)).
  apply IH. intros x Hx. apply H. right. exact Hx.
Qed.

Lemma all_handled ws w :
  filter pending ws = [] -> In w ws -> w_state w = Handled.
Proof.
  intros H Hin.
  destruct (w_state w) eqn:Hst; [| |reflexivity]; exfalso;
    (assert (Hf : In w (filter pending ws))
       by (apply filter_In; split; [exact Hin | unfold pending; rewrite Hst; reflexivity]);
     rewrite H in Hf; exact Hf).
Qed.

(** When the first turn of every thread ends its call, with [c] posts of
    its task (none or one) and a result that is or is not left to the
    ledger, the dispatch step posts every task of the batch [c] times, the
    posts of the threads in the order of the scheduler, and the ledger
    gets the pair of every task, in the order in which the futures are
    yielded, or nothing. *)
Lemma dispatch_at_first_turn (c : nat) (failing : bool) batch s :
  (forall t tm s1,
     max_retries s1 = max_retries s ->
     exists tm' r,
       turn E (mk_worker t tm (Attempting 0)) s1
       = (mk_worker t tm' (Completed r), snd (turn E (mk_worker t tm (Attempting 0)) s1))
       /\ ledgered r = failing
       /\ posts (snd (turn E (mk_worker t tm (Attempting 0)) s1))
          = posts s1 ++ repeat t c) ->
  (exists l, posts (dispatch E batch s) = posts s ++ l
             /\ Permutation.Permutation l (flat_map (fun t => repeat t c) batch))
  /\ (exists new, failed_messages (dispatch E batch s) = failed_messages s ++ new
                  /\ Permutation.Permutation new
                       (if failing then map pair_of batch else [])).
Proof.
  intros Hfirst.
  destruct (dispatch_invariant
              (fun ws s1 =>
                 max_retries s1 = max_retries s
                 /\ map w_task ws = batch
                 /\ Forall (fun w => match w_state w with
                                     | Attempting a => a = 0%Z
                                     | Completed r => ledgered r = failing
                                     | Handled => True
                                     end) ws
                 /\ (exists l, posts s1 = posts s ++ l
                               /\ Permutation.Permutation l
                                    (flat_map (fun t => repeat t c)
                                              (tasks_of has_started ws)))
                 /\ (exists new, failed_messages s1 = failed_messages s ++ new
                                 /\ Permutation.Permutation new
                                      (if failing
                                       then map pair_of (tasks_of is_handled ws)
                                       else [])))
              batch s)
    as (ws & s1 & (_ & Htasks & _ & (l & Hl & Hpl) & (new & Hn & Hpn)) & Hall & ->).
  - intros ws s1 H. exact H.
  - intros pre w post s1 Hpending (Hmax & Htasks & Hst & (l & Hl & Hpl) & (new & Hn & Hpn)).
    destruct (turn_effects w s1 Hpending) as ((_ & Hmax1 & _) & _ & Htask & _ & _ & _).
    cbv zeta in Hmax1, Htask.
    assert (Hw : match w_state w with
                 | Attempting a => a = 0%Z
                 | Completed r => ledgered r = failing
                 | Handled => True
                 end).
    { rewrite Forall_forall in Hst. apply Hst. apply in_or_app. right. left. reflexivity. }
    assert (Hothers : forall w',
              match w_state w' with
              | Attempting a => a = 0%Z
              | Completed r => ledgered r = failing
              | Handled => True
              end ->
              Forall (fun w => match w_state w with
                               | Attempting a => a = 0%Z
                               | Completed r => ledgered r = failing
                               | Handled => True
                               end) (pre ++ w' :: post)).
    { intros w' Hw'. apply Forall_app in Hst. destruct Hst as [Hpre Hpost].
      apply Forall_app. split; [exact Hpre|]. inversion Hpost; subst.
      constructor; assumption. }
    split; [congruence|]. split.
    { rewrite <- Htasks, !map_app. cbn [map]. rewrite Htask. reflexivity. }
    destruct (w_state w) as [a|r|] eqn:Hstate;
      [|clear Hfirst|unfold pending in Hpending; rewrite Hstate in Hpending;
                     discriminate Hpending].
    + subst a. destruct w as [t tm st]. cbn [w_state] in Hstate. subst st.
      cbn [w_task] in *.
      destruct (Hfirst t tm s1 Hmax) as (tm' & r & Hturn & Hr & Hposts).
      rewrite Hturn in *. cbn [fst snd] in *.
      split; [apply Hothers; exact Hr|]. split.
      * exists (l ++ repeat t c). rewrite Hposts, Hl, <- app_assoc.
        split; [reflexivity|].
        eapply Permutation.perm_trans;
          [apply Permutation.Permutation_app_comm|].
        eapply Permutation.perm_trans;
          [apply Permutation.Permutation_app_head; exact Hpl|].
        pose proof (tasks_of_turned has_started pre
                      (mk_worker t tm (Attempting 0)) (mk_worker t tm' (Completed r))
                      post eq_refl eq_refl eq_refl) as Hperm.
        cbn [w_task] in Hperm.
        change (repeat t c ++ flat_map (fun t0 => repeat t0 c)
                                  (tasks_of has_started
                                     (pre ++ mk_worker t tm (Attempting 0) :: post)))
          with (flat_map (fun t0 => repeat t0 c)
                  (t :: tasks_of has_started
                          (pre ++ mk_worker t tm (Attempting 0) :: post))).
        symmetry. apply Permutation.Permutation_flat_map. exact Hperm.
      * exists new. split.
        -- pose proof (turn_of_thread_ledger (mk_worker t tm (Attempting 0)) s1 0
                         eq_refl) as Hled.
           rewrite Hturn in Hled. cbn [snd] in Hled. congruence.
        -- destruct failing; [|exact Hpn].
           rewrite (tasks_of_kept is_handled pre (mk_worker t tm (Attempting 0))
                      (mk_worker t tm' (Completed r)) post eq_refl eq_refl).
           exact Hpn.
    + destruct (w_task w) as [[endpoint p] f] eqn:Htw.
      destruct (turn_cases w s1 endpoint p f Htw Hpending)
        as [(a & s2 & e & Hc & _) | [(a & Hc & _) | (r0 & Hc & Hturn)]];
        [congruence | congruence |].
      assert (r0 = r) by congruence. subst r0.
      rewrite Hturn in *. cbn [fst snd] in *.
      destruct (handle_effects (w_task w) r s1) as (_ & Hposts & _ & Hled).
      split; [apply Hothers; exact I|]. split.
      * exists l. rewrite Hposts. split; [exact Hl|].
        rewrite (tasks_of_kept has_started pre w
                   (mk_worker (w_task w) (w_time w) Handled) post eq_refl).
        -- exact Hpl.
        -- unfold has_started. rewrite Hstate. reflexivity.
      * rewrite Hled, Hn.
        destruct failing.
        -- assert (Hr : match r with Returned (Some _) => [] | _ => [pair_of (w_task w)] end
                        = [pair_of (w_task w)]).
           { destruct r as [[resp|]|e]; [discriminate Hw | reflexivity | reflexivity]. }
           rewrite Hr. exists (new ++ [pair_of (w_task w)]).
           rewrite <- app_assoc. split; [reflexivity|].
           eapply Permutation.perm_trans;
             [apply Permutation.Permutation_app_comm|].
           cbn [app].
           eapply Permutation.perm_trans;
             [apply Permutation.perm_skip; exact Hpn|].
           pose proof (tasks_of_turned is_handled pre w
                         (mk_worker (w_task w) (w_time w) Handled) post eq_refl) as Hperm.
           change (pair_of (w_task w)
                   :: map pair_of (tasks_of is_handled (pre ++ w :: post)))
             with (map pair_of (w_task w :: tasks_of is_handled (pre ++ w :: post))).
           symmetry. apply Permutation.Permutation_map. apply Hperm.
           ++ unfold is_handled. rewrite Hstate. reflexivity.
           ++ reflexivity.
        -- assert (Hr : match r with Returned (Some _) => [] | _ => [pair_of (w_task w)] end
                        = []).
           { destruct r as [[resp|]|e]; [reflexivity | discriminate Hw | discriminate Hw]. }
           rewrite Hr, app_nil_r. exists new. auto.
  - split; [reflexivity|]. split; [rewrite map_map; apply map_id|]. split.
    + apply Forall_forall. intros w Hw. apply in_map_iff in Hw.
      destruct Hw as [t [<- _]]. reflexivity.
    + assert (Hnone : forall test,
                (forall w, w_state w = Attempting 0 -> test w = false) ->
                tasks_of test (map (fun t => mk_worker t (clock s) (Attempting 0)) batch)
                = []).
      { intros test Htest. apply tasks_of_none. intros w Hw. apply in_map_iff in Hw.
        destruct Hw as [t [<- _]]. apply Htest. reflexivity. }
      split.
      * exists []. rewrite app_nil_r. split; [reflexivity|].
        rewrite Hnone; [constructor|]. intros w Hw. unfold has_started. rewrite Hw.
        reflexivity.
      * exists []. rewrite app_nil_r. split; [reflexivity|].
        rewrite Hnone; [destruct failing; constructor|].
        intros w Hw. unfold is_handled. rewrite Hw. reflexivity.
  - cbn [posts failed_messages set_clock].
    assert (Hstarted : tasks_of has_started ws = batch).
    { rewrite tasks_of_all; [exact Htasks|]. intros w Hw.
      unfold has_started. rewrite (all_handled ws w Hall Hw). reflexivity. }
    assert (Hhandled : tasks_of is_handled ws = batch).
    { rewrite tasks_of_all; [exact Htasks|]. intros w Hw.
      unfold is_handled. rewrite (all_handled ws w Hall Hw). reflexivity. }
    rewrite Hstarted in Hpl. rewrite Hhandled in Hpn.
    split; [exists l | exists new]; auto.
Qed.

End Pool.

(* ================================================================== *)
(** * The claims about the failure ledger *)

(** C9.  With an empty ledger the retry step returns at once: the state
    is unchanged, nothing is posted, and so it stays however often the step
    is replayed. *)
Theorem retry_on_empty_ledger_is_noop (E : Env) (s : DeepWhisperer) (n : nat) :
  failed_messages s = [] ->
  _retry_failed_messages E s = (s, Returned tt)
  /\ Nat.iter n (fun st => fst (_retry_failed_messages E st)) s = s
  /\ posts (Nat.iter n (fun st => fst (_retry_failed_messages E st)) s) = posts s.
Proof.
  intros Hempty.
  assert (Hstep : _retry_failed_messages E s = (s, Returned tt)).
  { unfold _retry_failed_messages. rewrite Hempty. reflexivity. }
  assert (Hiter : Nat.iter n (fun st => fst (_retry_failed_messages E st)) s = s).
  { induction n as [|n IH]; [reflexivity|].
    cbn [Nat.iter nat_rect]. unfold Nat.iter in IH. rewrite IH, Hstep. reflexivity. }
  split; [exact Hstep|]. split; [exact Hiter|]. rewrite Hiter. reflexivity.
Qed.

Lemma retry_on_empty_ledger_is_noop_witness :
  _retry_failed_messages env_500 notifier = (notifier, Returned tt)
  /\ Nat.iter 7 (fun st => fst (_retry_failed_messages env_500 st)) notifier = notifier.
Proof.
  destruct (retry_on_empty_ledger_is_noop env_500 notifier 7) as [Hstep [Hiter _]].
  - reflexivity.
  - split; [exact Hstep | exact Hiter].
Defined.

(** The ledger is left alone by the producers ... *)
Lemma send_message_ledger (E : Env) m pm dup s :
  failed_messages (fst (send_message E m pm dup s)) = failed_messages s.
Proof.
  unfold send_message.
  destruct (negb (truthy (strip m))); [reflexivity|].
  destruct (encode (wrap E m s)); [|reflexivity].
  match goal with |- context [if ?c then _ else _] => destruct c end; [reflexivity|].
  destruct (PyQueue.put_nowait _ _); reflexivity.
Qed.

Lemma send_location_ledger lat long dn reply s :
  failed_messages (fst (send_location lat long dn reply s)) = failed_messages s.
Proof. unfold send_location. destruct (PyQueue.put_nowait _ _); reflexivity. Qed.

(** ... and by the collecting loop. *)
Lemma collect_ledger fuel : forall start batch msgs s,
  failed_messages (fst (collect fuel start batch msgs s)) = failed_messages s.
Proof.
  induction fuel as [|fuel IH]; intros start batch msgs s; cbn [collect]; [reflexivity|].
  destruct (Clock.Qltb _ _); [|reflexivity].
  destruct (PyQueue.get (message_queue s)) as [[[[[endpoint p] f]|] q]|].
  - destruct (String.eqb endpoint "STOP"); [reflexivity|].
    destruct (String.eqb endpoint "sendMessage").
    + destruct (lookup "text" p); [|reflexivity]. rewrite IH. reflexivity.
    + rewrite IH. reflexivity.
  - reflexivity.
  - rewrite IH. reflexivity.
Qed.

(** On a ledger of pairs the retry step fails in the loop header, before
    any request is sent, and the ledger stays as it is. *)
Lemma retry_on_pairs (E : Env) s :
  Forall is_pair (failed_messages s) -> failed_messages s <> [] ->
  _retry_failed_messages E s
  = (logger INFO "Retrying failed messages..." s, Raised ValueError).
Proof.
  intros Hpairs Hne. unfold _retry_failed_messages.
  destruct (failed_messages s) as [|t rest] eqn:Hled; [contradiction|].
  cbn [failed_messages logger]. rewrite Hled.
  inversion Hpairs as [|? ? Ht _]. destruct t; [reflexivity | contradiction].
Qed.

Lemma after_collect_ledger_pairs (E : Env) batch msgs s :
  Forall is_pair (failed_messages s) ->
  Forall is_pair (failed_messages (after_collect E batch msgs s)).
Proof.
  intros Hs. unfold after_collect.
  destruct (merge (chat_id s) batch msgs) as [b|]; [|exact Hs].
  set (s1 := match b with [] => s | _ :: _ => dispatch E b s end).
  assert (Hs1 : Forall is_pair (failed_messages s1)).
  { subst s1. destruct b; [exact Hs | apply dispatch_ledger_pairs; exact Hs]. }
  clearbody s1.
  destruct (failed_messages s1) as [|t rest] eqn:Hled.
  - unfold _retry_failed_messages. rewrite Hled, sleep_half_second.
    cbn [failed_messages pause]. rewrite Hled. constructor.
  - rewrite retry_on_pairs.
    + cbn [failed_messages logger]. rewrite Hled. exact Hs1.
    + rewrite Hled. exact Hs1.
    + rewrite Hled. discriminate.
Qed.

(** Every ledger a notifier ever holds consists of pairs. *)
Lemma reachable_ledger_pairs (E : Env) s :
  reachable E s -> Forall is_pair (failed_messages s).
Proof.
  induction 1 as [| m pm dup s _ IH | lat long dn reply s _ IH | d s _ _ IH
                  | s _ IH | s _ IH _].
  - constructor.
  - rewrite send_message_ledger. exact IH.
  - rewrite send_location_ledger. exact IH.
  - exact IH.
  - exact IH.
  - unfold cycle.
    pose proof (collect_ledger (collect_fuel s) (clock s) [] [] s) as Hc.
    destruct (collect (collect_fuel s) (clock s) [] [] s) as [s1 [b msgs| |e|]];
      cbn [fst] in *.
    + apply after_collect_ledger_pairs. rewrite Hc. exact IH.
    + rewrite Hc. exact IH.
    + cbn [failed_messages logger]. rewrite Hc. exact IH.
    + rewrite Hc. exact IH.
Qed.

(** On a ledger of triples the retry loop does resubmit every entry once,
    in order: with a transport that accepts everything the ledger empties,
    with a transport that is down every entry is kept. *)
Lemma send_request_accepted (E : Env) endpoint p f s :
  accepts_all E -> (1 <= max_retries s)%Z ->
  exists r, _send_request E endpoint p f s
            = (record_post E (endpoint, p, f) s, Returned (Some r)).
Proof.
  intros Hup Hm. unfold _send_request.
  destruct (Z.to_nat (max_retries s)) as [|n] eqn:Hn; [lia|].
  cbn [attempts]. unfold one_attempt.
  destruct (Hup (List.length (posts s)) (endpoint, p, f)) as [r [Hp Hr]].
  rewrite Hp, Hr. exists r. reflexivity.
Qed.

Lemma send_request_down (E : Env) endpoint p f s :
  always_down E -> (1 <= max_retries s)%Z ->
  _send_request E endpoint p f s
  = (logger ERROR "Unexpected Error" (record_post E (endpoint, p, f) s), Returned None).
Proof.
  intros Hdown Hm. unfold _send_request.
  destruct (Z.to_nat (max_retries s)) as [|n] eqn:Hn; [lia|].
  cbn [attempts]. unfold one_attempt. rewrite Hdown. reflexivity.
Qed.

Lemma retry_each_all_accepted (E : Env) tasks : forall remaining s,
  accepts_all E -> (1 <= max_retries s)%Z ->
  exists s', retry_each E (map triple tasks) remaining s = (s', Returned remaining)
             /\ posts s' = posts s ++ tasks.
Proof.
  induction tasks as [|[[endpoint p] f] tasks IH]; intros remaining s Hup Hm.
  - exists s. simpl. rewrite app_nil_r. split; reflexivity.
  - cbn [map triple retry_each].
    destruct (send_request_accepted E endpoint p f s Hup Hm) as [r ->].
    destruct (IH remaining (record_post E (endpoint, p, f) s) Hup Hm) as [s' [Hrun Hp]].
    exists s'. split; [exact Hrun|]. rewrite Hp. cbn [posts record_post].
    rewrite <- app_assoc. reflexivity.
Qed.

Lemma retry_each_all_down (E : Env) tasks : forall remaining s,
  always_down E -> (1 <= max_retries s)%Z ->
  exists s', retry_each E (map triple tasks) remaining s
             = (s', Returned (remaining ++ map triple tasks))
             /\ posts s' = posts s ++ tasks.
Proof.
  induction tasks as [|[[endpoint p] f] tasks IH]; intros remaining s Hdown Hm.
  - exists s. simpl. rewrite !app_nil_r. split; reflexivity.
  - cbn [map triple retry_each].
    rewrite (send_request_down E endpoint p f s Hdown Hm).
    destruct (IH (remaining ++ [Tuple3 endpoint p f])
                 (logger ERROR "Unexpected Error" (record_post E (endpoint, p, f) s))
                 Hdown Hm) as [s' [Hrun Hp]].
    exists s'. split.
    + rewrite Hrun, <- app_assoc. reflexivity.
    + rewrite Hp. cbn [posts record_post logger]. rewrite <- app_assoc. reflexivity.
Qed.

Lemma retry_on_triples (E : Env) tasks s :
  failed_messages s = map triple tasks -> (1 <= max_retries s)%Z ->
  (accepts_all E ->
   posts (fst (_retry_failed_messages E s)) = posts s ++ tasks
   /\ failed_messages (fst (_retry_failed_messages E s)) = [])
  /\ (always_down E ->
      posts (fst (_retry_failed_messages E s)) = posts s ++ tasks
      /\ failed_messages (fst (_retry_failed_messages E s)) = map triple tasks).
Proof.
  intros Hled Hm. unfold _retry_failed_messages. rewrite Hled.
  destruct tasks as [|[[endpoint p] f] tasks].
  - simpl. rewrite app_nil_r. split; intros _; (split; [reflexivity | exact Hled]).
  - cbn [map triple]. cbn [failed_messages logger]. rewrite Hled.
    split; intros Hnet.
    + destruct (retry_each_all_accepted E ((endpoint, p, f) :: tasks) []
                  (logger INFO "Retrying failed messages..." s) Hnet Hm)
        as [s' [Hrun Hp]].
      match goal with
      | |- context [retry_each ?a ?b ?c ?d] => set (run := retry_each a b c d)
      end.
      assert (Hr : run = (s', Returned [])) by exact Hrun.
      rewrite Hr. cbn [fst posts failed_messages set_failed_messages].
      split; [exact Hp | reflexivity].
    + destruct (retry_each_all_down E ((endpoint, p, f) :: tasks) []
                  (logger INFO "Retrying failed messages..." s) Hnet Hm)
        as [s' [Hrun Hp]].
      match goal with
      | |- context [retry_each ?a ?b ?c ?d] => set (run := retry_each a b c d)
      end.
      assert (Hr : run = (s', Returned ([] ++ map triple ((endpoint, p, f) :: tasks))))
        by exact Hrun.
      rewrite Hr. cbn [fst posts failed_messages set_failed_messages app].
      split; [exact Hp | reflexivity].
Qed.

(** C1 fails on the code.  The dispatch step stores a failed task as the
    pair [(endpoint, payload)], and the retry loop unpacks every entry into
    three names: in any state a notifier can reach, a retry step that finds
    the ledger non-empty raises [ValueError] before the first resubmission.
    No request is posted, no entry is removed, and the same happens in every
    later cycle. *)
Theorem ledger_is_never_resubmitted (E : Env) (s : DeepWhisperer) :
  reachable E s -> failed_messages s <> [] ->
  _retry_failed_messages E s
  = (logger INFO "Retrying failed messages..." s, Raised ValueError)
  /\ posts (fst (_retry_failed_messages E s)) = posts s
  /\ failed_messages (fst (_retry_failed_messages E s)) = failed_messages s.
Proof.
  intros Hreach Hne.
  rewrite (retry_on_pairs E s (reachable_ledger_pairs E s Hreach) Hne).
  repeat split.
Qed.

Lemma ledger_is_never_resubmitted_witness :
  List.length (failed_messages after_failed_dispatch) = 1%nat
  /\ _retry_failed_messages env_500 after_failed_dispatch
     = (logger INFO "Retrying failed messages..." after_failed_dispatch,
        Raised ValueError).
Proof.
  destruct (ledger_is_never_resubmitted env_500 after_failed_dispatch) as [Hrun _].
  - unfold after_failed_dispatch. apply reach_cycle; [|reflexivity].
    apply reach_send_message. apply reach_fresh.
  - vm_compute. discriminate.
  - split; [vm_compute; reflexivity | exact Hrun].
Defined.

(** The ledger entry left by one failed dispatch, and the next cycle on
    it: five posts in the first cycle, none in the second. *)
Lemma failed_dispatch_then_next_cycle :
  (exists p, failed_messages after_failed_dispatch = [Tuple2 "sendMessage" p])
  /\ List.length (posts after_failed_dispatch) = 5%nat
  /\ posts (fst (cycle env_500 after_failed_dispatch)) = posts after_failed_dispatch
  /\ failed_messages (fst (cycle env_500 after_failed_dispatch))
     = failed_messages after_failed_dispatch.
Proof.
  split; [eexists; vm_compute; reflexivity|].
  vm_compute. repeat split.
Qed.

(* ================================================================== *)
(** * The claims about the dispatch loop *)

(** ** Collecting *)

Lemma half_steps_lt (k w : Z) :
  inject_Z k * (1 # 2) < inject_Z w <-> (k < 2 * w)%Z.
Proof. unfold Qlt, Qmult, inject_Z. cbn [Qnum Qden]. lia. Qed.

Lemma waited_succ j s : waited (S j) s = waited j (elapse (1 # 2) s).
Proof. unfold waited. apply Nat.iter_succ_r. Qed.

(** While the queue is empty the loop polls until the window closes;
    nothing but the clock moves. *)
Lemma collect_waits start batch msgs : forall fuel k s,
  PyQueue.items (message_queue s) = [] ->
  clock s - start == inject_Z k * (1 # 2) ->
  (Z.to_nat (2 * batch_interval s - k) < fuel)%nat ->
  exists j, collect fuel start batch msgs s = (waited j s, WindowClosed batch msgs).
Proof.
  induction fuel as [|fuel IH]; intros k s Hq Hk Hfuel; [lia|].
  cbn [collect].
  destruct (Clock.Qltb (clock s - start) (inject_Z (batch_interval s))) eqn:Hopen.
  - apply Qltb_lt in Hopen. rewrite Hk in Hopen. apply half_steps_lt in Hopen.
    unfold PyQueue.get. rewrite Hq.
    destruct (IH (k + 1)%Z (elapse (1 # 2) s)) as [j Hj].
    + exact Hq.
    + cbn [clock elapse]. rewrite inject_Z_plus.
      setoid_replace (clock s + (1 # 2) - start) with (clock s - start + (1 # 2)) by ring.
      rewrite Hk. ring.
    + cbn [batch_interval elapse]. lia.
    + exists (S j). rewrite waited_succ. exact Hj.
  - exists O. reflexivity.
Qed.

(** While the window is open every proper item is taken from the queue,
    texts and other tasks each in arrival order, and the clock stands
    still. *)
Lemma collect_takes start : forall its fuel batch msgs s,
  PyQueue.items (message_queue s) = its ->
  forallb proper its = true ->
  Clock.Qltb (clock s - start) (inject_Z (batch_interval s)) = true ->
  collect (List.length its + fuel) start batch msgs s
  = collect fuel start (batch ++ others_of its) (msgs ++ texts_of its) (drained s).
Proof.
  induction its as [|it its IH]; intros fuel batch msgs s Hq Hproper Hopen.
  - simpl. rewrite !app_nil_r. unfold drained. rewrite <- Hq.
    destruct s as [? ? ? ? ? [? ?] ? ? ? ? ? ? ?]. reflexivity.
  - cbn [List.length Nat.add collect]. rewrite Hopen.
    unfold PyQueue.get. rewrite Hq.
    cbn [forallb] in Hproper. apply andb_true_iff in Hproper.
    destruct Hproper as [Hit Hrest].
    destruct it as [[[endpoint p] f]|]; [|discriminate Hit].
    cbn [proper] in Hit. apply andb_true_iff in Hit. destruct Hit as [Hstop Htext].
    apply negb_true_iff in Hstop. rewrite Hstop.
    set (s1 := set_message_queue (PyQueue.mk (PyQueue.maxsize (message_queue s)) its) s).
    assert (Hd : drained s1 = drained s) by reflexivity.
    cbn [others_of texts_of].
    destruct (String.eqb endpoint "sendMessage").
    + destruct (lookup "text" p) as [v|]; [|discriminate Htext].
      rewrite (IH fuel batch (msgs ++ [v]) s1 eq_refl Hrest Hopen).
      rewrite Hd, <- app_assoc. reflexivity.
    + rewrite (IH fuel (batch ++ [(endpoint, p, f)]) msgs s1 eq_refl Hrest Hopen).
      rewrite Hd, <- app_assoc. reflexivity.
Qed.

(** One iteration over a queue of proper items, with a window that
    opens: the whole queue is taken in, and the rest of the iteration
    works on its texts and its other tasks. *)
Lemma cycle_collects (E : Env) s :
  (0 < batch_interval s)%Z ->
  forallb proper (PyQueue.items (message_queue s)) = true ->
  exists j,
    cycle E s
    = (after_collect E (others_of (PyQueue.items (message_queue s)))
                     (texts_of (PyQueue.items (message_queue s)))
                     (waited j (drained s)),
       NextIteration).
Proof.
  intros Hw Hproper. unfold cycle, collect_fuel.
  assert (Hopen : Clock.Qltb (clock s - clock s) (inject_Z (batch_interval s)) = true).
  { apply Qltb_lt. setoid_replace (clock s - clock s) with (inject_Z 0 * (1 # 2)) by ring.
    apply half_steps_lt. lia. }
  rewrite <- Nat.add_assoc.
  rewrite (collect_takes (clock s) _ _ [] [] s eq_refl Hproper Hopen).
  cbn [app].
  destruct (collect_waits (clock s) (others_of (PyQueue.items (message_queue s)))
              (texts_of (PyQueue.items (message_queue s)))
              (Z.to_nat (2 * batch_interval s) + 1) 0%Z (drained s)) as [j Hj].
  - reflexivity.
  - cbn [clock drained set_message_queue]. ring.
  - cbn [batch_interval drained set_message_queue]. lia.
  - exists j. rewrite Hj. reflexivity.
Qed.

(** The collecting loop always comes to an end within the polls the
    cycle allows it. *)
Lemma collect_ends start : forall fuel k batch msgs s,
  clock s - start == inject_Z k * (1 # 2) ->
  (List.length (PyQueue.items (message_queue s))
   + Z.to_nat (2 * batch_interval s - k) < fuel)%nat ->
  snd (collect fuel start batch msgs s) <> OutOfFuel.
Proof.
  induction fuel as [|fuel IH]; intros k batch msgs s Hk Hfuel; [lia|].
  cbn [collect].
  destruct (Clock.Qltb (clock s - start) (inject_Z (batch_interval s))) eqn:Hopen;
    [|discriminate].
  apply Qltb_lt in Hopen. rewrite Hk in Hopen. apply half_steps_lt in Hopen.
  unfold PyQueue.get.
  destruct (PyQueue.items (message_queue s)) as [|it its] eqn:Hq.
  - apply (IH (k + 1)%Z).
    + cbn [clock elapse]. rewrite inject_Z_plus.
      setoid_replace (clock s + (1 # 2) - start) with (clock s - start + (1 # 2)) by ring.
      rewrite Hk. ring.
    + cbn [message_queue batch_interval elapse]. rewrite Hq. cbn [List.length] in *. lia.
  - destruct it as [[[endpoint p] f]|]; [|discriminate].
    destruct (String.eqb endpoint "STOP"); [discriminate|].
    destruct (String.eqb endpoint "sendMessage").
    + destruct (lookup "text" p); [|discriminate].
      apply (IH k); [exact Hk|].
      cbn [message_queue batch_interval set_message_queue PyQueue.items].
      cbn [List.length] in Hfuel. lia.
    + apply (IH k); [exact Hk|].
      cbn [message_queue batch_interval set_message_queue PyQueue.items].
      cbn [List.length] in Hfuel. lia.
Qed.

Lemma cycle_ends (E : Env) s : snd (cycle E s) <> Unfinished.
Proof.
  unfold cycle.
  pose proof (collect_ends (clock s) (collect_fuel s) 0%Z [] [] s) as H.
  destruct (collect (collect_fuel s) (clock s) [] [] s) as [s1 [b msgs| |e|]];
    try discriminate.
  exfalso. apply H; [ring | unfold collect_fuel; lia | reflexivity].
Qed.

(** ** What the rest of an iteration leaves alone *)

Lemma waited_frame j : forall s,
  same_attrs s (waited j s) /\ posts (waited j s) = posts s.
Proof.
  induction j as [|j IH]; intros s.
  - split; [apply same_attrs_refl | reflexivity].
  - rewrite waited_succ. destruct (IH (elapse (1 # 2) s)) as [Ha Hp].
    split; [|rewrite Hp; reflexivity].
    eapply same_attrs_trans; [|exact Ha]. repeat split.
Qed.

Lemma retry_each_queue (E : Env) entries : forall remaining s,
  message_queue (fst (retry_each E entries remaining s)) = message_queue s.
Proof.
  induction entries as [|[endpoint p|endpoint p f] entries IH]; intros remaining s;
    cbn [retry_each]; try reflexivity.
  destruct (_send_request E endpoint p f s) as [s1 r] eqn:Hrun.
  destruct (send_request_frame E _ _ _ _ _ _ Hrun) as (_ & _ & _ & _ & _ & Hq & _).
  destruct r as [[resp|]|e]; rewrite IH; exact Hq.
Qed.

Lemma retry_queue (E : Env) s :
  message_queue (fst (_retry_failed_messages E s)) = message_queue s.
Proof.
  unfold _retry_failed_messages.
  destruct (failed_messages s) as [|t rest] eqn:Hled; [reflexivity|].
  cbn [failed_messages logger]. rewrite Hled.
  pose proof (retry_each_queue E (t :: rest) []
                (logger INFO "Retrying failed messages..." s)) as Hq.
  destruct (retry_each E (t :: rest) [] (logger INFO "Retrying failed messages..." s))
    as [s1 [remaining|e]]; exact Hq.
Qed.

Lemma after_collect_queue (E : Env) batch msgs s :
  message_queue (after_collect E batch msgs s) = message_queue s.
Proof.
  unfold after_collect.
  destruct (merge (chat_id s) batch msgs) as [b|]; [|reflexivity].
  set (s1 := match b with [] => s | _ :: _ => dispatch E b s end).
  assert (Hs1 : message_queue s1 = message_queue s).
  { subst s1. destruct b; [reflexivity | apply dispatch_queue]. }
  clearbody s1. pose proof (retry_queue E s1) as Hq.
  destruct (_retry_failed_messages E s1) as [s2 [u|e]]; cbn [fst] in Hq;
    rewrite ?sleep_half_second; cbn [message_queue pause logger]; congruence.
Qed.

(** One iteration that starts with an open window and a queue of proper
    items leaves the queue empty. *)
Lemma cycle_drains_queue (E : Env) s :
  (0 < batch_interval s)%Z ->
  forallb proper (PyQueue.items (message_queue s)) = true ->
  PyQueue.items (message_queue (fst (cycle E s))) = [].
Proof.
  intros Hw Hproper. destruct (cycle_collects E s Hw Hproper) as [j Hj].
  rewrite Hj. cbn [fst]. rewrite after_collect_queue.
  destruct (waited_frame j (drained s)) as [(_ & _ & _ & _ & _ & Hq & _) _].
  rewrite Hq. reflexivity.
Qed.

(** ** Merging *)

Lemma strs_of_texts texts : strs (map VStr texts) = Some texts.
Proof.
  induction texts as [|t texts IH]; [reflexivity|].
  cbn [map strs]. rewrite IH. reflexivity.
Qed.

Lemma merge_texts chat batch texts :
  texts <> [] ->
  merge chat batch (map VStr texts)
  = Some (batch ++ [merged_task [10%N; 10%N] chat texts]).
Proof.
  intros Hne. unfold merge. rewrite strs_of_texts.
  destruct texts as [|t texts]; [contradiction | reflexivity].
Qed.

Lemma text_items_collected its : forall texts,
  Forall2 text_item its texts ->
  forallb proper its = true /\ others_of its = [] /\ texts_of its = map VStr texts.
Proof.
  induction its as [|it its IH]; intros texts H; inversion H as [|? t ? ts Hit Hrest];
    subst.
  - repeat split.
  - destruct Hit as [p [f [-> Htext]]]. destruct (IH ts Hrest) as [Hp [Ho Ht]].
    cbn [forallb proper others_of texts_of String.eqb Ascii.eqb Bool.eqb andb negb].
    rewrite Htext, Hp, Ho, Ht. repeat split.
Qed.

(** On a ledger of pairs, what an iteration posts after its collecting
    loop is what its dispatch step posts. *)
Lemma after_collect_posts (E : Env) batch msgs s b :
  Forall is_pair (failed_messages s) ->
  merge (chat_id s) batch msgs = Some b ->
  posts (after_collect E batch msgs s)
  = posts (match b with [] => s | _ :: _ => dispatch E b s end).
Proof.
  intros Hs Hmerge. unfold after_collect. rewrite Hmerge.
  set (s1 := match b with [] => s | _ :: _ => dispatch E b s end).
  assert (Hs1 : Forall is_pair (failed_messages s1)).
  { subst s1. destruct b; [exact Hs | apply dispatch_ledger_pairs; exact Hs]. }
  clearbody s1.
  destruct (failed_messages s1) as [|t rest] eqn:Hled.
  - unfold _retry_failed_messages. rewrite Hled, sleep_half_second. reflexivity.
  - rewrite retry_on_pairs; [reflexivity | rewrite Hled; exact Hs1 |].
    rewrite Hled. discriminate.
Qed.

(** C4, as amended.  Whenever the collecting loop of a cycle ends with
    at least one text collected, the merging step adds exactly one text
    submission to the batch, after the other tasks; its text is the
    collected texts in arrival order, joined by a blank line, that is, by
    two newline characters.  End to end: when the queue holds text tasks
    only, three of them for one, a cycle with an open batch window and an
    empty ledger takes them all, and every request it posts is that one
    merged submission. *)
Theorem merging_joins_texts_with_blank_line (E : Env) :
  (forall chat batch texts,
     texts <> [] ->
     merge chat batch (map VStr texts)
     = Some (batch ++ [merged_task [10%N; 10%N] chat texts]))
  /\ (forall s texts,
        texts <> [] ->
        (0 < batch_interval s)%Z ->
        failed_messages s = [] ->
        Forall2 text_item (PyQueue.items (message_queue s)) texts ->
        exists k,
          posts (fst (cycle E s))
          = posts s ++ repeat (merged_task [10%N; 10%N] (chat_id s) texts) k
          /\ (k <= Z.to_nat (max_retries s))%nat
          /\ ((1 <= max_retries s)%Z -> (1 <= k)%nat)
          /\ PyQueue.items (message_queue (fst (cycle E s))) = []).
Proof.
  split.
  - intros chat batch texts Hne. apply merge_texts. exact Hne.
  - intros s texts Hne Hw Hled Hitems.
    destruct (text_items_collected _ _ Hitems) as [Hproper [Hothers Htexts]].
    pose proof (cycle_drains_queue E s Hw Hproper) as Hdrained.
    destruct (cycle_collects E s Hw Hproper) as [j Hj].
    rewrite Hothers, Htexts in Hj.
    set (req := merged_task [10%N; 10%N] (chat_id s) texts).
    assert (Hmain : exists k,
              posts (after_collect E [] (map VStr texts) (waited j (drained s)))
              = posts s ++ repeat req k
              /\ (k <= Z.to_nat (max_retries s))%nat
              /\ ((1 <= max_retries s)%Z -> (1 <= k)%nat)).
    { destruct (waited_frame j (drained s))
        as [(Hchat & Hmax & _ & _ & _ & _ & Hled' & _) Hposts].
      cbn [chat_id max_retries failed_messages posts drained set_message_queue]
        in Hchat, Hmax, Hled', Hposts.
      generalize dependent (waited j (drained s)). intros s0 _ Hchat Hmax Hled' Hposts.
      rewrite (after_collect_posts E [] (map VStr texts) s0 _
                 ltac:(rewrite Hled', Hled; constructor)
                 (merge_texts (chat_id s0) [] texts Hne)).
      cbn [app]. rewrite Hchat. fold req.
      destruct (dispatch_one_task E req s0) as [k (Hp & Hk & Hone)].
      exists k. rewrite Hp, Hposts, <- Hmax. auto. }
    destruct Hmain as [k (H1 & H2 & H3)]. exists k.
    split; [rewrite Hj; exact H1|]. split; [exact H2|]. split; [exact H3|].
    exact Hdrained.
Qed.

Lemma merging_joins_texts_with_blank_line_witness :
  Forall2 text_item (PyQueue.items (message_queue three_texts))
          [wrap env_up (lit "alpha") notifier; wrap env_up (lit "beta") notifier;
           wrap env_up (lit "gamma") notifier]
  /\ exists k,
       posts (fst (cycle env_up three_texts))
       = repeat (merged_task [10%N; 10%N] (lit "42")
                   [wrap env_up (lit "alpha") notifier; wrap env_up (lit "beta") notifier;
                    wrap env_up (lit "gamma") notifier]) k
       /\ (1 <= k <= 5)%nat.
Proof.
  assert (Hitems :
    Forall2 text_item (PyQueue.items (message_queue three_texts))
            [wrap env_up (lit "alpha") notifier; wrap env_up (lit "beta") notifier;
             wrap env_up (lit "gamma") notifier]).
  { vm_compute. repeat constructor; do 2 eexists; split; reflexivity. }
  split; [exact Hitems|].
  destruct (merging_joins_texts_with_blank_line env_up) as [_ Hcycle].
  destruct (Hcycle three_texts
              [wrap env_up (lit "alpha") notifier; wrap env_up (lit "beta") notifier;
               wrap env_up (lit "gamma") notifier]
              ltac:(discriminate) ltac:(reflexivity) eq_refl Hitems)
    as [k (Hposts & Hk & Hone & _)].
  exists k. split; [exact Hposts|].
  split; [apply Hone; vm_compute; discriminate | exact Hk].
Defined.

(** C4 as stated fails: the separator of the merged text is not a single
    newline. *)
Lemma merged_texts_are_not_joined_by_one_newline :
  ~ (forall chat batch texts,
       texts <> [] ->
       merge chat batch (map VStr texts)
       = Some (batch ++ [merged_task [10%N] chat texts])).
Proof.
  intros H.
  specialize (H (lit "42") [] [lit "a"; lit "b"] ltac:(discriminate)).
  vm_compute in H. discriminate H.
Qed.

(** The posts of the three-text cycle, computed: one request, whose text
    is the three framed texts in arrival order with blank lines between. *)
Lemma three_texts_one_submission :
  posts (fst (cycle env_up three_texts))
  = [merged_task [10%N; 10%N] (lit "42")
       [wrap env_up (lit "alpha") notifier; wrap env_up (lit "beta") notifier;
        wrap env_up (lit "gamma") notifier]].
Proof. vm_compute. reflexivity. Qed.

(** ** Shutdown *)

(** The loop head is the one place where the worker looks at the stop
    event, and it does not look at the queue there. *)
Lemma process_queue_stopped (E : Env) n s :
  stop_event s = true -> _process_queue E (S n) s = (s, Finished).
Proof. intros H. cbn [_process_queue]. rewrite H. reflexivity. Qed.

(** Once the worker has finished, the wait of [stop] on a non-empty
    queue never ends. *)
Lemma stop_wait_never_returns k : forall s,
  PyQueue.empty (message_queue s) = false -> snd (stop_wait k s) = false.
Proof.
  induction k as [|k IH]; intros s Hne; cbn [stop_wait]; [reflexivity|].
  rewrite Hne. apply IH. exact Hne.
Qed.

(** C8 fails on the code.  Five tasks are queued and [stop] is called
    while the worker pauses at the end of an iteration.  The worker then
    finds the stop event set at the loop head and finishes at once: the
    five tasks are still queued, none has been posted or moved to the
    ledger, and the wait of [stop] for an empty queue never ends. *)
Theorem stop_strands_queued_tasks (n k : nat) :
  reachable env_up five_queued_at_stop
  /\ List.length (PyQueue.items (message_queue five_queued_at_stop)) = 5%nat
  /\ _process_queue env_up (S n) five_queued_at_stop = (five_queued_at_stop, Finished)
  /\ posts five_queued_at_stop = []
  /\ failed_messages five_queued_at_stop = []
  /\ snd (stop_wait k five_queued_at_stop) = false.
Proof.
  split; [|split; [|split; [|split; [|split]]]].
  - unfold five_queued_at_stop, locate. apply reach_stop.
    do 5 apply reach_send_location. apply reach_cycle; [apply reach_fresh | reflexivity].
  - vm_compute. reflexivity.
  - apply process_queue_stopped. reflexivity.
  - vm_compute. reflexivity.
  - vm_compute. reflexivity.
  - apply stop_wait_never_returns. vm_compute. reflexivity.
Qed.

(** What the code does keep of C8: a stop signal that arrives while the
    worker is still collecting lets that iteration take the whole queue
    and dispatch it before the loop head is reached again. *)
Lemma stop_during_collection_drains (E : Env) s n :
  stop_event s = false ->
  (0 < batch_interval s)%Z ->
  forallb proper (PyQueue.items (message_queue s)) = true ->
  let s' := stop_signal (fst (cycle E s)) in
  _process_queue E (S n) s' = (s', Finished)
  /\ PyQueue.items (message_queue s') = [].
Proof.
  intros _ Hw Hproper s'. split.
  - apply process_queue_stopped. reflexivity.
  - subst s'. cbn [message_queue stop_signal set_stop_event].
    apply cycle_drains_queue; assumption.
Qed.


(* ================================================================== *)
(** * Further properties of the code *)

Import More.

(** ** Text messages *)

Lemma lstrip_head s c t : lstrip s = c :: t -> isspace c = false.
Proof.
  induction s as [|a s IH]; simpl; [discriminate|].
  destruct (isspace a) eqn:Ha; [exact IH|].
  intros H. inversion H. subst. exact Ha.
Qed.

Lemma lstrip_nil s : lstrip s = [] <-> forallb isspace s = true.
Proof.
  induction s as [|a s IH]; simpl; [tauto|].
  destruct (isspace a); simpl; [exact IH|]. split; discriminate.
Qed.

Lemma forallb_rev {A} (f : A -> bool) l : forallb f (rev l) = forallb f l.
Proof.
  induction l as [|a l IH]; [reflexivity|].
  simpl. rewrite forallb_app, IH. simpl. rewrite andb_true_r. apply andb_comm.
Qed.

(** [strip] leaves nothing exactly of the strings made of whitespace. *)
Lemma strip_nil s : strip s = [] <-> forallb isspace s = true.
Proof.
  unfold strip, rstrip. split.
  - intros H. apply (f_equal (@rev N)) in H. rewrite rev_involutive in H.
    simpl in H. apply lstrip_nil in H. rewrite forallb_rev in H.
    destruct (lstrip s) as [|c t] eqn:Hl; [apply lstrip_nil; exact Hl|].
    apply lstrip_head in Hl. simpl in H. rewrite Hl in H. discriminate.
  - intros H. apply lstrip_nil in H. rewrite H. reflexivity.
Qed.

Lemma truthy_strip s : truthy (strip s) = negb (forallb isspace s).
Proof.
  destruct (forallb isspace s) eqn:H.
  - apply strip_nil in H. rewrite H. reflexivity.
  - destruct (strip s) eqn:Hs; [|reflexivity].
    apply strip_nil in Hs. congruence.
Qed.

(** X1.  A text message is skipped as empty exactly when every one of its
    characters is whitespace (the empty message included): the call then
    returns with one warning logged and changes nothing else. *)
Theorem send_message_skips_exactly_blank (E : Env) (m pm : str) (dup : bool)
    (s : DeepWhisperer) :
  send_message E m pm dup s
  = (logger WARNING "Attempted to send an empty message. Skipping." s, Returned tt)
  <-> forallb isspace m = true.
Proof.
  split.
  - intros H. destruct (forallb isspace m) eqn:Hm; [reflexivity|]. exfalso.
    unfold send_message in H. rewrite truthy_strip, Hm in H. cbn [negb] in H.
    destruct (encode (wrap E m s)); [|discriminate H].
    match type of H with
    | (if ?c then _ else _) = _ => destruct c
    end.
    + apply (f_equal (fun r => log (fst r))) in H. cbn [fst log logger] in H.
      apply app_inv_head in H. discriminate H.
    + destruct (PyQueue.put_nowait _ _);
        apply (f_equal (fun r => log (fst r))) in H;
        cbn [fst log logger set_message_queue set_recent_messages] in H;
        apply app_inv_head in H; discriminate H.
  - intros H. apply send_message_blank. rewrite truthy_strip, H. reflexivity.
Qed.

Lemma utf8_surrogate c : surrogate c = true -> utf8 c = None.
Proof.
  unfold surrogate, utf8. intros H. apply andb_true_iff in H. destruct H as [H1 H2].
  rewrite H1, H2. apply N.leb_le in H1. apply N.leb_le in H2.
  replace (c <? 128)%N with false by (symmetry; apply N.ltb_ge; lia).
  replace (c <? 2048)%N with false by (symmetry; apply N.ltb_ge; lia).
  replace (c <? 65536)%N with true by (symmetry; apply N.ltb_lt; lia).
  reflexivity.
Qed.

Lemma encode_surrogate c s : In c s -> surrogate c = true -> encode s = None.
Proof.
  intros Hin Hc. induction s as [|a s IH]; [contradiction|].
  simpl. destruct Hin as [-> | Hin].
  - rewrite (utf8_surrogate c Hc). reflexivity.
  - rewrite (IH Hin). destruct (utf8 a) as [u|]; [|reflexivity].
    destruct (bytes_of u); reflexivity.
Qed.

(** X2.  A non-blank text message that holds a surrogate code point
    cannot be hashed: the call raises [UnicodeEncodeError] to its caller
    and leaves the notifier as it was. *)
Theorem send_message_raises_on_surrogate (E : Env) (m pm : str) (dup : bool)
    (s : DeepWhisperer) (c : N) :
  In c m -> surrogate c = true -> forallb isspace m = false ->
  send_message E m pm dup s = (s, Raised UnicodeEncodeError).
Proof.
  intros Hin Hc Hm. unfold send_message. rewrite truthy_strip, Hm. cbn [negb].
  rewrite (encode_surrogate c (wrap E m s)); [reflexivity | | exact Hc].
  unfold wrap. apply in_or_app. right. apply in_or_app. right.
  apply in_or_app. left. exact Hin.
Qed.

Lemma send_message_raises_on_surrogate_witness :
  send_message env_up (lit "a" ++ [0xD83D%N]) (lit "Markdown") false notifier
  = (notifier, Raised UnicodeEncodeError).
Proof.
  apply (send_message_raises_on_surrogate env_up _ _ _ _ 0xD83D%N).
  - simpl. right. left. reflexivity.
  - reflexivity.
  - reflexivity.
Defined.

(** ** The request sender *)

(** X3.  One submission posts the same request between one and
    [max_retries] times (not at all when [max_retries] is below one), and
    touches nothing of the notifier but its world: settings, cache, queue,
    ledger and stop event are as before. *)
Theorem send_request_posts_within_budget (E : Env) (endpoint : string)
    (p : payload) (f : files) (s : DeepWhisperer) :
  exists k,
    posts (fst (_send_request E endpoint p f s)) = posts s ++ repeat (endpoint, p, f) k
    /\ (k <= Z.to_nat (max_retries s))%nat
    /\ ((1 <= max_retries s)%Z -> (1 <= k)%nat)
    /\ same_attrs s (fst (_send_request E endpoint p f s)).
Proof.
  destruct (_send_request E endpoint p f s) as [s' r] eqn:Hrun. cbn [fst].
  pose proof (send_request_frame E _ _ _ _ _ _ Hrun) as Hframe.
  unfold _send_request in Hrun. apply attempts_posts in Hrun.
  destruct Hrun as [k [Hk [Hp Hpos]]]. exists k.
  split; [exact Hp|]. split; [exact Hk|]. split; [|exact Hframe].
  intros Hm. assert (k <> O) by (apply Hpos; lia). lia.
Qed.

Lemma send_request_no_budget (E : Env) endpoint p f s :
  (max_retries s <= 0)%Z -> _send_request E endpoint p f s = (s, Returned None).
Proof.
  intros Hm. unfold _send_request.
  replace (Z.to_nat (max_retries s)) with O by lia. reflexivity.
Qed.

Lemma flat_map_no_copy {A} (l : list A) : flat_map (fun t => repeat t 0) l = [].
Proof. induction l as [|x l IH]; [reflexivity | exact IH]. Qed.

Lemma flat_map_one_copy {A} (l : list A) : flat_map (fun t => repeat t 1) l = l.
Proof.
  induction l as [|x l IH]; [reflexivity|].
  change (flat_map (fun t => repeat t 1) (x :: l))
    with (x :: flat_map (fun t => repeat t 1) l).
  rewrite IH. reflexivity.
Qed.

(** X4.  With a retry budget of zero or less the dispatch step contacts
    nobody: every task of the batch goes to the ledger, as a pair.  The
    pairs are appended as the futures are yielded, which need not be the
    order of the batch. *)
Theorem dispatch_without_budget_ledgers_all (E : Env) (batch : list task)
    (s : DeepWhisperer) :
  (max_retries s <= 0)%Z ->
  posts (dispatch E batch s) = posts s
  /\ exists new,
       failed_messages (dispatch E batch s) = failed_messages s ++ new
       /\ Permutation new (map pair_of batch).
Proof.
  intros Hm.
  destruct (dispatch_at_first_turn E 0 true batch s) as [(l & Hl & Hpl) Hled].
  - intros t tm s1 Hmax. exists tm, (Returned None).
    unfold turn. destruct t as [[endpoint p] f]. cbn [w_task w_state w_time].
    replace (0 <? max_retries s1)%Z with false by (symmetry; apply Z.ltb_ge; lia).
    cbn [snd repeat]. rewrite app_nil_r. auto.
  - rewrite flat_map_no_copy in Hpl. apply Permutation_sym, Permutation_nil in Hpl.
    subst l. rewrite app_nil_r in Hl. split; [exact Hl | exact Hled].
Qed.

Lemma dispatch_without_budget_ledgers_all_witness :
  let s := fresh (lit "42") 0 3 100 300 15 0 in
  let a := ("sendLocation"%string, [("chat_id"%string, VStr (lit "42"))], None) in
  let b := ("sendMessage"%string, [("text"%string, VStr (lit "hi"))], None) in
  posts (dispatch env_up [a; b] s) = []
  /\ exists new,
       failed_messages (dispatch env_up [a; b] s) = new
       /\ Permutation new
            [Tuple2 "sendLocation" [("chat_id"%string, VStr (lit "42"))];
             Tuple2 "sendMessage" [("text"%string, VStr (lit "hi"))]].
Proof.
  intros s a b.
  destruct (dispatch_without_budget_ledgers_all env_up [a; b] s) as [Hp Hl].
  - simpl. lia.
  - split; [exact Hp | exact Hl].
Defined.

(** A scheduler that lets the second future be handled first: the
    ledger then holds the pairs in the reverse of the order of the
    batch. *)
Example ledger_order_is_the_order_of_handling :
  let E := mkEnv (lit "**") (lit "DeepWhisperer") (lit "**") (lit "[") (lit "]")
                 (fun _ _ => PostRaised) (fun _ => 0%N) (fun _ => 0%N) (fun _ => 1%nat) in
  let a := ("sendLocation"%string, [("chat_id"%string, VStr (lit "42"))], None) in
  let b := ("sendVenue"%string, [("chat_id"%string, VStr (lit "42"))], None) in
  failed_messages (dispatch E [a; b] notifier) = [pair_of b; pair_of a]
  /\ posts (dispatch E [a; b] notifier) = [b; a].
Proof. vm_compute. split; reflexivity. Qed.

Lemma total_app l1 l2 : total (l1 ++ l2) == total l1 + total l2.
Proof.
  induction l1 as [|x l1 IH]; simpl.
  - ring.
  - rewrite IH. ring.
Qed.

(** The wait of one pass: none, or, before another attempt, one that is
    not negative and at most one and a half times the undithered
    delay. *)
Lemma one_attempt_slept (E : Env) a endpoint p f s :
  (0 <= retry_delay s)%Z -> (0 <= a)%Z ->
  let run := one_attempt E a endpoint p f s in
  (snd run <> Again -> slept (fst run) = slept s)
  /\ (snd run = Again ->
      exists w, slept (fst run) = slept s ++ [w]
                /\ 0 <= w <= (3 # 2) * inject_Z (retry_delay s * 2 ^ a)).
Proof.
  intros Hd Ha. cbv zeta. unfold one_attempt.
  destruct (post E (List.length (posts s)) (endpoint, p, f)) as [resp|];
    [|cbn [fst snd]; split; [reflexivity | discriminate]].
  destruct (is_success resp); [cbn [fst snd]; split; [reflexivity | discriminate]|].
  destruct (a <? max_retries s - 1)%Z;
    [|cbn [fst snd]; split; [reflexivity | discriminate]].
  cbn [draws logger record_post]. fold (jitter E (draws s)).
  unfold int_times_float.
  destruct (2 ^ 1024 - 2 ^ 970 <=? Z.abs (retry_delay s * 2 ^ a))%Z;
    [cbn [fst snd]; split; [reflexivity | discriminate]|].
  set (w := inject_Z (retry_delay s * 2 ^ a) * jitter E (draws s)).
  unfold sleep.
  destruct ((_ <? - 2 ^ 63) || (2 ^ 63 <=? _))%Z;
    [cbn [fst snd]; split; [reflexivity | discriminate]|].
  destruct (round_up (w * inject_Z (10 ^ 9)) <? 0)%Z;
    [cbn [fst snd]; split; [reflexivity | discriminate]|].
  cbn [fst snd]. split; [intros H; contradiction|]. intros _.
  exists w. split; [reflexivity|].
  destruct (jitter_range E (draws s)) as [Hj1 Hj2].
  assert (Hn : 0 <= inject_Z (retry_delay s * 2 ^ a)).
  { apply inject_Z_nonneg. apply Z.mul_nonneg_nonneg; [lia|]. apply Z.pow_nonneg. lia. }
  unfold w. split.
  - apply Qmult_le_0_compat; [exact Hn | lra].
  - rewrite (Qmult_comm (3 # 2)).
    rewrite !(Qmult_comm (inject_Z (retry_delay s * 2 ^ a))).
    apply Qmult_le_compat_r; assumption.
Qed.

(** The sleeps of one submission, whatever the transport answers: their
    total stays below one and a half times the undithered delays that are
    left. *)
Lemma attempts_sleep_bound (E : Env) endpoint p f n : forall a s,
  (0 <= retry_delay s)%Z -> (0 <= a)%Z ->
  exists l,
    slept (fst (attempts E n a endpoint p f s)) = slept s ++ l
    /\ 0 <= total l
    /\ total l <= (3 # 2) * inject_Z (retry_delay s
                                      * (2 ^ Z.max a (max_retries s - 1) - 2 ^ a)).
Proof.
  induction n as [|n IH]; intros a s Hd Ha.
  - exists []. cbn [attempts fst total fold_right]. rewrite app_nil_r.
    split; [reflexivity|]. split; [apply Qle_refl|].
    assert (2 ^ a <= 2 ^ Z.max a (max_retries s - 1))%Z
      by (apply Z.pow_le_mono_r; lia).
    assert (H0 : 0 <= inject_Z (retry_delay s
                                * (2 ^ Z.max a (max_retries s - 1) - 2 ^ a)))
      by (apply inject_Z_nonneg; nia).
    lra.
  - assert (Hnone : forall t, slept t = slept s ->
              exists l, slept t = slept s ++ l /\ 0 <= total l
                        /\ total l <= (3 # 2) * inject_Z (retry_delay s
                                        * (2 ^ Z.max a (max_retries s - 1) - 2 ^ a))).
    { intros t Hs. exists []. rewrite Hs, app_nil_r.
      cbn [total fold_right]. split; [reflexivity|]. split; [apply Qle_refl|].
      assert (2 ^ a <= 2 ^ Z.max a (max_retries s - 1))%Z
        by (apply Z.pow_le_mono_r; lia).
      assert (H0 : 0 <= inject_Z (retry_delay s
                                  * (2 ^ Z.max a (max_retries s - 1) - 2 ^ a)))
        by (apply inject_Z_nonneg; nia).
      lra. }
    cbn [attempts].
    destruct (one_attempt_slept E a endpoint p f s Hd Ha) as [Hstop Hgo].
    pose proof (one_attempt_again E a endpoint p f s) as Hlast.
    destruct (one_attempt_effects E a endpoint p f s) as ((_ & Hmax & Hrd & _) & _).
    destruct (one_attempt E a endpoint p f s) as [s1 [|r]]; cbn [fst snd] in *.
    + specialize (Hlast eq_refl). destruct (Hgo eq_refl) as [w (Hs1 & Hw0 & Hw1)].
      destruct (IH (a + 1)%Z s1 ltac:(lia) ltac:(lia)) as [l (Hs & H0 & Hb)].
      exists (w :: l). rewrite Hs, Hs1.
      change (total (w :: l)) with (w + total l).
      split; [rewrite <- app_assoc; reflexivity|].
      split; [lra|].
      rewrite Hmax, Hrd in Hb.
      rewrite Z.max_r in Hb by lia. rewrite Z.max_r by lia.
      assert (Hsplit : inject_Z (retry_delay s * (2 ^ (max_retries s - 1) - 2 ^ a))
                       == inject_Z (retry_delay s * 2 ^ a)
                          + inject_Z (retry_delay s
                                      * (2 ^ (max_retries s - 1) - 2 ^ (a + 1)))).
      { rewrite <- inject_Z_plus. apply inject_Z_injective.
        rewrite Z.pow_add_r by lia. ring. }
      rewrite Hsplit. lra.
    + apply Hnone. apply Hstop. discriminate.
Qed.

(** X5.  With a base delay that is not negative, and whatever the
    transport answers, the backoff sleeps of one submission add up to at
    most [1.5 * retry_delay * (2^(max_retries-1) - 1)] seconds (67.5
    seconds with the default settings): every jitter is at most one and a
    half, and a wait that [time.sleep] refuses is not slept. *)
Theorem send_request_backoff_is_bounded (E : Env) (endpoint : string)
    (p : payload) (f : files) (s : DeepWhisperer) :
  (0 <= retry_delay s)%Z -> (1 <= max_retries s)%Z ->
  exists l,
    slept (fst (_send_request E endpoint p f s)) = slept s ++ l
    /\ 0 <= total l
    /\ total l <= (3 # 2) * inject_Z (retry_delay s * (2 ^ (max_retries s - 1) - 1)).
Proof.
  intros Hd Hm.
  destruct (attempts_sleep_bound E endpoint p f (Z.to_nat (max_retries s)) 0 s
              Hd ltac:(lia)) as [l (Hs & H0 & Hb)].
  exists l. split; [exact Hs|]. split; [exact H0|].
  rewrite Z.max_r in Hb by lia. exact Hb.
Qed.

Lemma send_request_backoff_is_bounded_witness :
  exists l,
    slept (fst (_send_request env_500 "sendLocation" [] None notifier)) = l
    /\ total l <= 135 # 2.
Proof.
  destruct (send_request_backoff_is_bounded env_500 "sendLocation" [] None notifier)
    as [l (Hs & _ & Hb)].
  - simpl. lia.
  - simpl. lia.
  - exists l. split; [exact Hs|].
    eapply Qle_trans; [exact Hb|]. vm_compute. discriminate.
Defined.

(** ** The worker: what its phases leave alone *)

Lemma retry_frame (E : Env) s :
  Forall is_pair (failed_messages s) ->
  same_attrs s (fst (_retry_failed_messages E s))
  /\ posts (fst (_retry_failed_messages E s)) = posts s
  /\ clock (fst (_retry_failed_messages E s)) = clock s.
Proof.
  intros Hpairs. destruct (failed_messages s) as [|t rest] eqn:Hled.
  - unfold _retry_failed_messages. rewrite Hled. repeat split.
  - rewrite retry_on_pairs;
      [repeat split | rewrite Hled; exact Hpairs | rewrite Hled; discriminate].
Qed.

(** After the collecting loop an iteration changes neither settings nor
    cache, queue or stop event; on a ledger of pairs it posts tasks of its
    batch only, and only appends pairs to the ledger. *)
Lemma after_collect_effects (E : Env) batch msgs s :
  Forall is_pair (failed_messages s) ->
  same_but_ledger s (after_collect E batch msgs s)
  /\ clock s <= clock (after_collect E batch msgs s)
  /\ (exists new, failed_messages (after_collect E batch msgs s)
                  = failed_messages s ++ new /\ Forall is_pair new)
  /\ (forall b, merge (chat_id s) batch msgs = Some b ->
        exists l, posts (after_collect E batch msgs s) = posts s ++ l
                  /\ Forall (fun r => In r b) l).
Proof.
  intros Hpairs. unfold after_collect.
  destruct (merge (chat_id s) batch msgs) as [b|].
  - set (s1 := match b with [] => s | _ :: _ => dispatch E b s end).
    assert (Hd : same_but_ledger s s1 /\ clock s <= clock s1
                 /\ (exists l, posts s1 = posts s ++ l /\ Forall (fun r => In r b) l)
                 /\ (exists new, failed_messages s1 = failed_messages s ++ new
                                 /\ Forall is_pair new)).
    { subst s1. destruct b as [|t b]; [|apply dispatch_effects].
      split; [apply same_but_ledger_refl|]. split; [apply Qle_refl|].
      split; exists []; rewrite app_nil_r; auto. }
    clearbody s1.
    destruct Hd as (Hf & Hc & (l & Hpl & Hfl) & (new & Hnl & Hfn)).
    assert (Hp1 : Forall is_pair (failed_messages s1)).
    { rewrite Hnl. apply Forall_app. split; assumption. }
    destruct (retry_frame E s1 Hp1) as [Ha [Hpr Hcr]].
    destruct (_retry_failed_messages E s1) as [s2 [u|e]]; cbn [fst] in *.
    + rewrite sleep_half_second. split; [|split; [|split]].
      * eapply same_but_ledger_trans; [exact Hf|].
        eapply same_but_ledger_trans; [apply same_attrs_but_ledger; exact Ha|].
        repeat split.
      * cbn [clock pause]. rewrite Hcr. lra.
      * exists new. cbn [failed_messages pause].
        destruct Ha as (_ & _ & _ & _ & _ & _ & Hl & _). rewrite Hl. auto.
      * intros b' Hb. inversion Hb. subst b'. exists l.
        cbn [posts pause]. rewrite Hpr. auto.
    + split; [|split; [|split]].
      * eapply same_but_ledger_trans; [exact Hf|].
        eapply same_but_ledger_trans; [apply same_attrs_but_ledger; exact Ha|].
        repeat split.
      * cbn [clock logger]. rewrite Hcr. exact Hc.
      * exists new. cbn [failed_messages logger].
        destruct Ha as (_ & _ & _ & _ & _ & _ & Hl & _). rewrite Hl. auto.
      * intros b' Hb. inversion Hb. subst b'. exists l.
        cbn [posts logger]. rewrite Hpr. auto.
  - split; [repeat split|]. split; [apply Qle_refl|]. split.
    + exists []. rewrite app_nil_r. split; [reflexivity | constructor].
    + intros b Hb. discriminate Hb.
Qed.

(** The collecting loop changes the queue and the clock only: it takes
    items from the front of the queue and lets time pass. *)
Lemma collect_effects fuel : forall start batch msgs s,
  let s' := fst (collect fuel start batch msgs s) in
  chat_id s' = chat_id s /\ max_retries s' = max_retries s
  /\ retry_delay s' = retry_delay s /\ batch_interval s' = batch_interval s
  /\ recent_messages s' = recent_messages s
  /\ failed_messages s' = failed_messages s
  /\ stop_event s' = stop_event s /\ posts s' = posts s
  /\ clock s <= clock s'
  /\ PyQueue.maxsize (message_queue s') = PyQueue.maxsize (message_queue s)
  /\ exists taken, PyQueue.items (message_queue s)
                   = taken ++ PyQueue.items (message_queue s').
Proof.
  induction fuel as [|fuel IH]; intros start batch msgs s; cbn [collect].
  - cbn [fst]. repeat split; try apply Qle_refl. exists []. reflexivity.
  - destruct (Clock.Qltb _ _);
      [|cbn [fst]; repeat split; try apply Qle_refl; exists []; reflexivity].
    unfold PyQueue.get.
    destruct (PyQueue.items (message_queue s)) as [|it its] eqn:Hq.
    + specialize (IH start batch msgs (elapse (1 # 2) s)). cbv zeta in IH.
      destruct IH as (H1 & H2 & H3 & H4 & H5 & H6 & H7 & H8 & H9 & H10 & taken & H11).
      cbn [chat_id max_retries retry_delay batch_interval recent_messages
           failed_messages stop_event posts clock message_queue elapse] in *.
      repeat split; try assumption; [lra|].
      exists taken. rewrite Hq in H11. exact H11.
    + assert (Hstep : forall batch' msgs',
        let s1 := set_message_queue (PyQueue.mk (PyQueue.maxsize (message_queue s)) its) s in
        let s' := fst (collect fuel start batch' msgs' s1) in
        chat_id s' = chat_id s /\ max_retries s' = max_retries s
        /\ retry_delay s' = retry_delay s /\ batch_interval s' = batch_interval s
        /\ recent_messages s' = recent_messages s
        /\ failed_messages s' = failed_messages s
        /\ stop_event s' = stop_event s /\ posts s' = posts s
        /\ clock s <= clock s'
        /\ PyQueue.maxsize (message_queue s') = PyQueue.maxsize (message_queue s)
        /\ exists taken, it :: its = taken ++ PyQueue.items (message_queue s')).
      { intros batch' msgs' s1.
        specialize (IH start batch' msgs' s1). cbv zeta in IH.
        destruct IH as (H1 & H2 & H3 & H4 & H5 & H6 & H7 & H8 & H9 & H10 & taken & H11).
        cbn [chat_id max_retries retry_delay batch_interval recent_messages
             failed_messages stop_event posts clock message_queue set_message_queue
             PyQueue.maxsize PyQueue.items s1] in *.
        repeat split; try assumption.
        exists (it :: taken). rewrite H11 at 1. reflexivity. }
      assert (Hend :
        let s' := set_message_queue (PyQueue.mk (PyQueue.maxsize (message_queue s)) its) s in
        chat_id s' = chat_id s /\ max_retries s' = max_retries s
        /\ retry_delay s' = retry_delay s /\ batch_interval s' = batch_interval s
        /\ recent_messages s' = recent_messages s
        /\ failed_messages s' = failed_messages s
        /\ stop_event s' = stop_event s /\ posts s' = posts s
        /\ clock s <= clock s'
        /\ PyQueue.maxsize (message_queue s') = PyQueue.maxsize (message_queue s)
        /\ exists taken, it :: its = taken ++ PyQueue.items (message_queue s')).
      { cbv zeta. repeat split; try apply Qle_refl. exists [it]. reflexivity. }
      destruct it as [[[endpoint p] f]|]; [|exact Hend].
      destruct (String.eqb endpoint "STOP"); [exact Hend|].
      destruct (String.eqb endpoint "sendMessage").
      * destruct (lookup "text" p); [apply Hstep | exact Hend].
      * apply Hstep.
Qed.

(** ** What holds in every state of a history *)

Lemma expire_sublist time l : incl (TTLCache.expire time l) l.
Proof.
  induction l as [|[k e] l IH]; simpl; [apply incl_refl|].
  destruct (Clock.Qltb time e); [apply incl_refl|].
  apply incl_tl. exact IH.
Qed.

Lemma expire_length time l : (List.length (TTLCache.expire time l) <= List.length l)%nat.
Proof.
  induction l as [|[k e] l IH]; simpl; [lia|].
  destruct (Clock.Qltb time e); simpl; lia.
Qed.

Lemma evict_sublist m l : incl (TTLCache.evict m l) l.
Proof.
  induction l as [|x l IH]; [apply incl_refl|].
  cbn [TTLCache.evict].
  destruct (m <? Z.of_nat (List.length (x :: l)) + 1)%Z; [|apply incl_refl].
  apply incl_tl. exact IH.
Qed.

Lemma evict_length m l :
  (1 <= m)%Z -> (Z.of_nat (List.length (TTLCache.evict m l)) + 1 <= m)%Z.
Proof.
  intros Hm. induction l as [|x l IH]; [simpl; lia|].
  cbn [TTLCache.evict].
  destruct (m <? Z.of_nat (List.length (x :: l)) + 1)%Z eqn:Hfull; [exact IH|].
  apply Z.ltb_ge in Hfull. lia.
Qed.

Lemma remove_sublist key l : incl (TTLCache.remove key l) l.
Proof.
  induction l as [|[k e] l IH]; simpl; [apply incl_refl|].
  destruct (String.eqb k key).
  - apply incl_tl. exact IH.
  - apply incl_cons; [left; reflexivity | apply incl_tl; exact IH].
Qed.

Lemma remove_length key l :
  (List.length (TTLCache.remove key l) <= List.length l)%nat.
Proof.
  induction l as [|[k e] l IH]; simpl; [lia|].
  destruct (String.eqb k key); simpl; lia.
Qed.

Lemma remove_length_present key l e :
  TTLCache.find key l = Some e ->
  (List.length (TTLCache.remove key l) + 1 <= List.length l)%nat.
Proof.
  induction l as [|[k e'] l IH]; simpl; [discriminate|].
  destruct (String.eqb k key).
  - intros _. pose proof (remove_length key l). lia.
  - intros H. specialize (IH H). simpl. lia.
Qed.

(** A store never makes the cache exceed its capacity. *)
Lemma setitem_length key time c :
  (1 <= TTLCache.maxsize c)%Z ->
  (Z.of_nat (List.length (TTLCache.links c)) <= TTLCache.maxsize c)%Z ->
  (Z.of_nat (List.length (TTLCache.links (TTLCache.setitem key time c)))
   <= TTLCache.maxsize c)%Z.
Proof.
  intros Hm Hlen. unfold TTLCache.setitem. cbn [TTLCache.links].
  rewrite length_app. cbn [List.length].
  pose proof (expire_length time (TTLCache.links c)) as Hexp.
  destruct (TTLCache.find key (TTLCache.expire time (TTLCache.links c))) as [e|] eqn:Hfind.
  - pose proof (remove_length_present key _ e Hfind). lia.
  - pose proof (evict_length (TTLCache.maxsize c)
                  (TTLCache.expire time (TTLCache.links c)) Hm).
    pose proof (remove_length key (TTLCache.evict (TTLCache.maxsize c)
                                     (TTLCache.expire time (TTLCache.links c)))).
    lia.
Qed.

(** Every entry of the cache after a store was there before or is the
    new one. *)
Lemma setitem_entries key time c x :
  In x (TTLCache.links (TTLCache.setitem key time c)) ->
  In x (TTLCache.links c) \/ x = (key, time + inject_Z (TTLCache.ttl c)).
Proof.
  unfold TTLCache.setitem. cbn [TTLCache.links]. intros H.
  apply in_app_or in H. destruct H as [H | [H | []]]; [left | right; auto].
  apply remove_sublist in H.
  destruct (TTLCache.find key (TTLCache.expire time (TTLCache.links c))).
  - apply expire_sublist in H. exact H.
  - apply evict_sublist in H. apply expire_sublist in H. exact H.
Qed.

Lemma sound_fresh chat mr rd qs ttl bi now : sound (fresh chat mr rd qs ttl bi now).
Proof.
  unfold sound, fresh, within_ttl, PyQueue.qsize.
  cbn [message_queue recent_messages failed_messages clock PyQueue.create
       PyQueue.items PyQueue.maxsize TTLCache.create TTLCache.links TTLCache.maxsize
       List.length forallb].
  split; [intros; lia|]. split; [reflexivity|]. split; [reflexivity|].
  split; [lia|]. split; constructor.
Qed.

Lemma sound_produces s s' : produces s s' -> sound s -> sound s'.
Proof.
  intros Hp Hs. induction Hp as [|l msg s1 _ IH|h s1 _ IH|it s1 _ IH Hit Hroom].
  - exact Hs.
  - exact IH.
  - destruct IH as (Hq & Hpr & Hmax & Hlen & Httl & Hled).
    unfold sound, within_ttl.
    cbn [message_queue recent_messages failed_messages clock set_recent_messages].
    split; [exact Hq|]. split; [exact Hpr|].
    split; [exact Hmax|]. split; [|split; [|exact Hled]].
    + pose proof (setitem_length h (clock s1) (recent_messages s1)) as Hl.
      rewrite Hmax in Hl. lia.
    + apply Forall_forall. intros x Hx. apply setitem_entries in Hx.
      change (TTLCache.ttl (TTLCache.setitem h (clock s1) (recent_messages s1)))
        with (TTLCache.ttl (recent_messages s1)).
      destruct Hx as [Hx | ->].
      * unfold within_ttl in Httl. rewrite Forall_forall in Httl. apply Httl. exact Hx.
      * cbn [snd]. apply Qle_refl.
  - destruct IH as (Hq & Hpr & Hmax & Hlen & Httl & Hled).
    unfold sound, within_ttl.
    cbn [message_queue recent_messages failed_messages clock set_message_queue
         PyQueue.items PyQueue.maxsize].
    split; [|split; [|auto]].
    + intros Hpos. unfold PyQueue.qsize. cbn [PyQueue.items].
      rewrite length_app. cbn [List.length].
      unfold PyQueue.full in Hroom. apply andb_false_iff in Hroom.
      destruct Hroom as [Hroom | Hroom].
      * apply Z.ltb_ge in Hroom. lia.
      * apply Z.leb_gt in Hroom. unfold PyQueue.qsize in Hroom. lia.
    + rewrite forallb_app, Hpr. cbn [forallb]. rewrite Hit. reflexivity.
Qed.

Lemma forallb_suffix {A} (f : A -> bool) l1 l2 :
  forallb f (l1 ++ l2) = true -> forallb f l2 = true.
Proof. rewrite forallb_app. intros H. apply andb_true_iff in H. tauto. Qed.

Lemma within_ttl_later s s' :
  recent_messages s' = recent_messages s -> clock s <= clock s' ->
  within_ttl s -> within_ttl s'.
Proof.
  unfold within_ttl. intros Hc Ht H. rewrite Hc.
  eapply Forall_impl; [|exact H]. intros x Hx. cbv beta in *. lra.
Qed.

Lemma sound_cycle (E : Env) s : sound s -> sound (fst (cycle E s)).
Proof.
  intros (Hq & Hpr & Hmax & Hlen & Httl & Hled). unfold cycle.
  pose proof (collect_effects (collect_fuel s) (clock s) [] [] s) as Hc.
  cbv zeta in Hc.
  destruct (collect (collect_fuel s) (clock s) [] [] s) as [s1 res]. cbn [fst] in Hc.
  destruct Hc as (_ & _ & _ & _ & Hcache & Hl1 & _ & _ & Hclock & Hqmax & taken & Hitems).
  assert (Hs1 : sound s1).
  { unfold sound. split; [|split; [|split; [|split; [|split]]]].
    - intros Hpos. rewrite Hqmax in *. specialize (Hq Hpos).
      unfold PyQueue.qsize in *. rewrite Hitems, length_app in Hq. lia.
    - rewrite Hitems in Hpr. apply forallb_suffix in Hpr. exact Hpr.
    - rewrite Hcache. exact Hmax.
    - rewrite Hcache. exact Hlen.
    - apply (within_ttl_later s s1 Hcache Hclock Httl).
    - rewrite Hl1. exact Hled. }
  assert (Hlog : forall l msg, sound (logger l msg s1)) by (intros; exact Hs1).
  destruct res as [b msgs| |e|]; cbn [fst]; auto.
  destruct Hs1 as (Hq1 & Hpr1 & Hmax1 & Hlen1 & Httl1 & Hled1).
  destruct (after_collect_effects E b msgs s1 Hled1)
    as ((_ & _ & _ & _ & Hc2 & Hq2 & _) & Hclock2 & (new & Hnew & Hpairs) & _).
  unfold sound. rewrite Hq2, Hc2. split; [exact Hq1|]. split; [exact Hpr1|].
  split; [exact Hmax1|]. split; [exact Hlen1|]. split.
  - apply (within_ttl_later s1 _ Hc2 Hclock2 Httl1).
  - rewrite Hnew. apply Forall_app. split; assumption.
Qed.

(** ** What the producers do to a state *)

Lemma produces_put it l1 m1 l2 m2 s :
  proper it = true ->
  produces s (fst (match PyQueue.put_nowait it (message_queue s) with
                   | Some q => (logger l1 m1 (set_message_queue q s), Returned tt)
                   | None => (logger l2 m2 s, @Returned unit tt)
                   end)).
Proof.
  intros Hit. unfold PyQueue.put_nowait.
  destruct (PyQueue.full (message_queue s)) eqn:Hfull; cbn [fst].
  - apply produces_log, produces_nothing.
  - apply produces_log. apply produces_item; [apply produces_nothing | exact Hit | exact Hfull].
Qed.

Lemma produces_trans s1 s2 s3 : produces s1 s2 -> produces s2 s3 -> produces s1 s3.
Proof.
  intros H12 H23. induction H23.
  - exact H12.
  - apply produces_log. assumption.
  - apply produces_record. assumption.
  - apply produces_item; assumption.
Qed.

Lemma send_message_produces (E : Env) m pm dup s :
  produces s (fst (send_message E m pm dup s)).
Proof.
  unfold send_message.
  destruct (negb (truthy (strip m))); [apply produces_log, produces_nothing|].
  destruct (encode (wrap E m s)) as [bytes|]; [|apply produces_nothing].
  match goal with |- context [if ?c then _ else _] => destruct c end;
    [apply produces_log, produces_nothing|].
  set (s1 := set_recent_messages _ s).
  apply (produces_trans s s1).
  - apply produces_record, produces_nothing.
  - apply produces_put. reflexivity.
Qed.

Lemma send_location_produces lat long dn reply s :
  produces s (fst (send_location lat long dn reply s)).
Proof. unfold send_location. apply produces_put. reflexivity. Qed.

Lemma send_contact_produces phone first last vcard dn reply s :
  produces s (fst (send_contact phone first last vcard dn reply s)).
Proof. unfold send_contact. apply produces_put. reflexivity. Qed.

Lemma send_venue_produces lat long title address f1 f2 g1 g2 dn reply s :
  produces s (fst (send_venue lat long title address f1 f2 g1 g2 dn reply s)).
Proof. unfold send_venue. apply produces_put. reflexivity. Qed.

Lemma send_media_produces (E : Env) fs file_path endpoint media_type caption dn reply s :
  String.eqb endpoint "STOP" = false ->
  String.eqb endpoint "sendMessage" = false ->
  produces s (fst (_send_media E fs file_path endpoint media_type caption dn reply s)).
Proof.
  intros H1 H2. unfold _send_media.
  destruct (path_exists fs file_path) as [[|]|e];
    [|apply produces_log, produces_nothing|apply produces_nothing].
  destruct (open_read fs file_path) as [file_data| |];
    try (apply produces_log, produces_nothing).
  apply (produces_trans s (logger DEBUG "Sending" s)).
  - apply produces_log, produces_nothing.
  - apply produces_put. cbn [proper]. rewrite H1, H2. reflexivity.
Qed.

(** Every state of a history is sound. *)
Lemma reachable_all_sound (E : Env) s : reachable_all E s -> sound s.
Proof.
  induction 1;
    try (eapply sound_produces; [|eassumption];
         first [ apply send_message_produces | apply send_location_produces
               | apply send_contact_produces | apply send_venue_produces
               | apply send_media_produces; reflexivity ]).
  - apply sound_fresh.
  - destruct IHreachable_all as (Hq & Hpr & Hmax & Hlen & Httl & Hled).
    unfold sound. cbn [message_queue recent_messages failed_messages elapse].
    repeat split; try assumption.
    apply (within_ttl_later s (elapse d s) eq_refl); [cbn [clock elapse]; lra | exact Httl].
  - exact IHreachable_all.
  - apply sound_cycle. exact IHreachable_all.
Qed.

Lemma reachable_reachable_all (E : Env) s : reachable E s -> reachable_all E s.
Proof.
  induction 1.
  - apply all_fresh.
  - apply all_send_message. assumption.
  - apply all_send_location. assumption.
  - apply all_elapse; assumption.
  - apply all_stop. assumption.
  - apply all_cycle; assumption.
Qed.

(** ** Properties of every history *)

(** X6.  A bounded queue never holds more tasks than its capacity,
    whatever producers, worker iterations, pauses and stop signals came
    before. *)
Theorem queue_never_exceeds_capacity (E : Env) (s : DeepWhisperer) :
  reachable_all E s ->
  (0 < PyQueue.maxsize (message_queue s))%Z ->
  (Z.of_nat (List.length (PyQueue.items (message_queue s)))
   <= PyQueue.maxsize (message_queue s))%Z.
Proof.
  intros Hr Hpos. destruct (reachable_all_sound E s Hr) as (Hq & _).
  apply Hq. exact Hpos.
Qed.

Lemma queue_never_exceeds_capacity_witness :
  let s := fst (send_message env_up (lit "second") (lit "Markdown") false
             (fst (send_message env_up (lit "first") (lit "Markdown") false
                (fresh (lit "42") 5 3 1 300 15 0)))) in
  (Z.of_nat (List.length (PyQueue.items (message_queue s))) <= 1)%Z.
Proof.
  intros s.
  apply (queue_never_exceeds_capacity env_up s).
  - unfold s. do 2 apply all_send_message. apply all_fresh.
  - vm_compute. reflexivity.
Defined.

(** Every state that texts sent one after the other lead to is a state
    of a history. *)
Lemma reachable_all_send_all (E : Env) others : forall s,
  reachable_all E s -> reachable_all E (send_all E others s).
Proof.
  induction others as [|o others IH]; intros s Hs; [exact Hs|].
  cbn [send_all fold_left]. apply IH. apply all_send_message. exact Hs.
Qed.

(** X7.  The deduplication cache never holds more than one hundred
    fingerprints.  When it holds one hundred of them, none expired at its
    old end, a text send that stores a new fingerprint pushes out the
    oldest: the cache then holds the other ninety-nine, in their order,
    and the new one behind them. *)
Theorem dedup_cache_holds_at_most_100 (E : Env) (s : DeepWhisperer) :
  reachable_all E s ->
  (List.length (TTLCache.links (recent_messages s)) <= 100)%nat
  /\ forall m pm dup bytes,
       truthy (strip m) = true -> encode (wrap E m s) = Some bytes ->
       List.length (TTLCache.links (recent_messages s)) = 100%nat ->
       TTLCache.expire (clock s) (TTLCache.links (recent_messages s))
       = TTLCache.links (recent_messages s) ->
       TTLCache.find (SHA256.hexdigest bytes) (TTLCache.links (recent_messages s)) = None ->
       TTLCache.links (recent_messages (fst (send_message E m pm dup s)))
       = tl (TTLCache.links (recent_messages s))
         ++ [(SHA256.hexdigest bytes,
              clock s + inject_Z (TTLCache.ttl (recent_messages s)))].
Proof.
  intros Hr. destruct (reachable_all_sound E s Hr) as (_ & _ & Hmax & Hlen & _).
  split; [exact Hlen|].
  intros m pm dup bytes Hm Henc Hfull Hlive Hnew.
  rewrite (send_message_passes E m pm dup s bytes Hm Henc).
  - cbv zeta.
    assert (Hlinks : TTLCache.links
                       (TTLCache.setitem (SHA256.hexdigest bytes) (clock s)
                          (recent_messages s))
                     = tl (TTLCache.links (recent_messages s))
                       ++ [(SHA256.hexdigest bytes,
                            clock s + inject_Z (TTLCache.ttl (recent_messages s)))]).
    { unfold TTLCache.setitem. cbn [TTLCache.links]. rewrite Hlive, Hnew, Hmax.
      destruct (TTLCache.links (recent_messages s)) as [|x rest] eqn:Hl;
        [discriminate Hfull|].
      cbn [List.length] in Hfull.
      change (TTLCache.evict 100 (x :: rest))
        with (if (100 <? Z.of_nat (List.length (x :: rest)) + 1)%Z
              then TTLCache.evict 100 rest else x :: rest).
      replace (100 <? Z.of_nat (List.length (x :: rest)) + 1)%Z with true
        by (symmetry; apply Z.ltb_lt; cbn [List.length]; lia).
      assert (Hrest : TTLCache.evict 100 rest = rest).
      { destruct rest as [|y rest']; [reflexivity|].
        change (TTLCache.evict 100 (y :: rest'))
          with (if (100 <? Z.of_nat (List.length (y :: rest')) + 1)%Z
                then TTLCache.evict 100 rest' else y :: rest').
        replace (100 <? Z.of_nat (List.length (y :: rest')) + 1)%Z with false;
          [reflexivity|].
        symmetry. apply Z.ltb_ge. lia. }
      rewrite Hrest. cbn [tl]. f_equal. apply remove_absent.
      destruct x as [k e]. apply find_cons_absent in Hnew. apply Hnew. }
    destruct (PyQueue.put_nowait _ _); cbn [fst recent_messages logger
                                            set_message_queue set_recent_messages];
      exact Hlinks.
  - right. unfold TTLCache.contains. rewrite Hnew. reflexivity.
Qed.

(** A cache filled by one hundred texts: the next text pushes out the
    fingerprint of the first of them. *)
Lemma dedup_cache_holds_at_most_100_witness :
  let s := send_all env_up hundred_texts notifier in
  let s' := fst (send_message env_up (lit "hello") (lit "Markdown") false s) in
  List.length (TTLCache.links (recent_messages s)) = 100%nat
  /\ TTLCache.links (recent_messages s')
     = tl (TTLCache.links (recent_messages s))
       ++ [("52d250b113f6c8c5223eea21d152735533d5cdf4271d793a17ec4bdd9b23e52e"%string,
            0 + 300)].
Proof.
  intros s s'.
  assert (Hfull : List.length (TTLCache.links (recent_messages s)) = 100%nat)
    by (vm_compute; reflexivity).
  split; [exact Hfull|].
  destruct (dedup_cache_holds_at_most_100 env_up s) as [_ Hpush].
  - apply reachable_all_send_all. apply all_fresh.
  - apply (Hpush (lit "hello") (lit "Markdown") false
             (match encode (wrap env_up (lit "hello") s) with
              | Some b => b
              | None => []
              end)).
    + reflexivity.
    + vm_compute. reflexivity.
    + exact Hfull.
    + vm_compute. reflexivity.
    + vm_compute. reflexivity.
Defined.

Lemma find_in key l e : TTLCache.find key l = Some e -> exists k, In (k, e) l.
Proof.
  induction l as [|[k e'] l IH]; simpl; [discriminate|].
  destruct (String.eqb k key).
  - intros H. inversion H. subst. exists k. left. reflexivity.
  - intros H. destruct (IH H) as [k' Hk]. exists k'. right. exact Hk.
Qed.

(** X8.  With a deduplication TTL of zero or less no text is ever
    suppressed: a send with duplicates disallowed does exactly what the
    same send with [allow_duplicates=True] does. *)
Theorem nonpositive_ttl_disables_dedup (E : Env) (s : DeepWhisperer) (m pm : str) :
  reachable_all E s ->
  (TTLCache.ttl (recent_messages s) <= 0)%Z ->
  send_message E m pm false s = send_message E m pm true s.
Proof.
  intros Hr Httl0. destruct (reachable_all_sound E s Hr) as (_ & _ & _ & _ & Httl & _).
  unfold send_message.
  destruct (negb (truthy (strip m))); [reflexivity|].
  destruct (encode (wrap E m s)) as [bytes|]; [|reflexivity].
  assert (Hc : TTLCache.contains (SHA256.hexdigest bytes) (clock s) (recent_messages s)
               = false).
  { unfold TTLCache.contains.
    destruct (TTLCache.find _ _) as [e|] eqn:Hfind; [|reflexivity].
    apply find_in in Hfind. destruct Hfind as [k Hin].
    unfold within_ttl in Httl. rewrite Forall_forall in Httl.
    specialize (Httl _ Hin). cbn [snd] in Httl.
    apply Qltb_ge.
    assert (inject_Z (TTLCache.ttl (recent_messages s)) <= 0)
      by (unfold Qle; simpl; lia).
    lra. }
  rewrite Hc. reflexivity.
Qed.

Lemma nonpositive_ttl_disables_dedup_witness :
  let s := fst (send_message env_up (lit "hello") (lit "Markdown") false
                  (fresh (lit "42") 5 3 100 0 15 0)) in
  send_message env_up (lit "hello") (lit "Markdown") false s
  = send_message env_up (lit "hello") (lit "Markdown") true s
  /\ List.length (PyQueue.items (message_queue
        (fst (send_message env_up (lit "hello") (lit "Markdown") false s)))) = 2%nat.
Proof.
  intros s. split.
  - apply nonpositive_ttl_disables_dedup.
    + unfold s. apply all_send_message. apply all_fresh.
    + vm_compute. discriminate.
  - vm_compute. reflexivity.
Defined.

Lemma collect_proper fuel : forall start batch msgs s,
  forallb proper (PyQueue.items (message_queue s)) = true ->
  (exists b m, snd (collect fuel start batch msgs s) = WindowClosed b m)
  \/ snd (collect fuel start batch msgs s) = OutOfFuel.
Proof.
  induction fuel as [|fuel IH]; intros start batch msgs s Hpr; cbn [collect].
  - right. reflexivity.
  - destruct (Clock.Qltb _ _); [|left; do 2 eexists; reflexivity].
    unfold PyQueue.get.
    destruct (PyQueue.items (message_queue s)) as [|it its] eqn:Hq.
    + apply IH. cbn [message_queue elapse]. rewrite Hq. reflexivity.
    + cbn [forallb] in Hpr. apply andb_true_iff in Hpr. destruct Hpr as [Hit Hrest].
      destruct it as [[[endpoint p] f]|]; [|discriminate Hit].
      cbn [proper] in Hit. apply andb_true_iff in Hit. destruct Hit as [Hstop Htext].
      apply negb_true_iff in Hstop. rewrite Hstop.
      destruct (String.eqb endpoint "sendMessage").
      * destruct (lookup "text" p); [|discriminate Htext]. apply IH. exact Hrest.
      * apply IH. exact Hrest.
Qed.

(** X9.  In every history the worker thread leaves its loop at the loop
    head only: no producer ever queues the stop sentinel or a text task
    without text, so each iteration runs to its end and the loop goes on. *)
Theorem worker_iteration_always_continues (E : Env) (s : DeepWhisperer) :
  reachable_all E s -> snd (cycle E s) = NextIteration.
Proof.
  intros Hr. destruct (reachable_all_sound E s Hr) as (_ & Hpr & _).
  pose proof (cycle_ends E s) as Hend. unfold cycle in *.
  destruct (collect_proper (collect_fuel s) (clock s) [] [] s Hpr) as [[b [m Hc]] | Hc];
    destruct (collect (collect_fuel s) (clock s) [] [] s) as [s1 res];
    cbn [snd] in Hc; subst res; cbn [snd] in *; [reflexivity | contradiction].
Qed.

Lemma worker_iteration_always_continues_witness :
  snd (cycle env_up three_texts) = NextIteration.
Proof.
  apply worker_iteration_always_continues.
  unfold three_texts. do 3 apply all_send_message. apply all_fresh.
Defined.

(** X10.  In every history a worker iteration only ever appends pairs to
    the failure ledger: no entry that is in the ledger is removed or
    moved by a later iteration. *)
Theorem ledger_entries_are_never_removed (E : Env) (s : DeepWhisperer) :
  reachable_all E s ->
  exists new, failed_messages (fst (cycle E s)) = failed_messages s ++ new
              /\ Forall is_pair new.
Proof.
  intros Hr. destruct (reachable_all_sound E s Hr) as (_ & _ & _ & _ & _ & Hled).
  unfold cycle.
  pose proof (collect_effects (collect_fuel s) (clock s) [] [] s) as Hc.
  cbv zeta in Hc.
  destruct (collect (collect_fuel s) (clock s) [] [] s) as [s1 res]. cbn [fst] in Hc.
  destruct Hc as (_ & _ & _ & _ & _ & Hl1 & _).
  destruct res as [b msgs| |e|]; cbn [fst];
    try (exists []; cbn [failed_messages logger]; rewrite Hl1, app_nil_r;
         split; [reflexivity | constructor]).
  rewrite <- Hl1 in Hled.
  destruct (after_collect_effects E b msgs s1 Hled) as (_ & _ & (new & Hnew & Hp) & _).
  exists new. rewrite Hnew, Hl1. split; [reflexivity | exact Hp].
Qed.

Lemma ledger_entries_are_never_removed_witness :
  exists new,
    failed_messages (fst (cycle env_500 after_failed_dispatch))
    = failed_messages after_failed_dispatch ++ new.
Proof.
  destruct (ledger_entries_are_never_removed env_500 after_failed_dispatch)
    as [new [Hnew _]].
  - unfold after_failed_dispatch. apply all_cycle; [|reflexivity].
    apply all_send_message. apply all_fresh.
  - exists new. exact Hnew.
Defined.

(** ** Worker iterations *)

Lemma collect_takes_prefix start : forall pre rest fuel batch msgs s,
  PyQueue.items (message_queue s) = pre ++ rest ->
  forallb proper pre = true ->
  Clock.Qltb (clock s - start) (inject_Z (batch_interval s)) = true ->
  collect (List.length pre + fuel) start batch msgs s
  = collect fuel start (batch ++ others_of pre) (msgs ++ texts_of pre)
            (set_message_queue (PyQueue.mk (PyQueue.maxsize (message_queue s)) rest) s).
Proof.
  induction pre as [|it pre IH]; intros rest fuel batch msgs s Hq Hproper Hopen.
  - simpl. rewrite !app_nil_r. simpl in Hq. rewrite <- Hq.
    destruct s as [? ? ? ? ? [? ?] ? ? ? ? ? ? ?]. reflexivity.
  - cbn [List.length Nat.add collect]. rewrite Hopen.
    unfold PyQueue.get. rewrite Hq. cbn [app].
    cbn [forallb] in Hproper. apply andb_true_iff in Hproper.
    destruct Hproper as [Hit Hrest].
    destruct it as [[[endpoint p] f]|]; [|discriminate Hit].
    cbn [proper] in Hit. apply andb_true_iff in Hit. destruct Hit as [Hstop Htext].
    apply negb_true_iff in Hstop. rewrite Hstop.
    set (s1 := set_message_queue
                 (PyQueue.mk (PyQueue.maxsize (message_queue s)) (pre ++ rest)) s).
    cbn [others_of texts_of].
    destruct (String.eqb endpoint "sendMessage").
    + destruct (lookup "text" p) as [v|]; [|discriminate Htext].
      rewrite (IH rest fuel batch (msgs ++ [v]) s1 eq_refl Hrest Hopen).
      rewrite <- app_assoc. reflexivity.
    + rewrite (IH rest fuel (batch ++ [(endpoint, p, f)]) msgs s1 eq_refl Hrest Hopen).
      rewrite <- app_assoc. reflexivity.
Qed.

Lemma window_opens s :
  (0 < batch_interval s)%Z ->
  Clock.Qltb (clock s - clock s) (inject_Z (batch_interval s)) = true.
Proof.
  intros Hw. apply Qltb_lt.
  setoid_replace (clock s - clock s) with (inject_Z 0 * (1 # 2)) by ring.
  apply half_steps_lt. lia.
Qed.

(** X11.  When the worker meets the stop sentinel in the queue (an item
    that is [None] or whose endpoint is ["STOP"]) its thread ends at once,
    stop event or not: the tasks it had collected before the sentinel in
    that iteration are dropped without being sent or ledgered, and what was
    queued behind the sentinel stays in the queue. *)
Theorem stop_sentinel_ends_worker_and_drops_batch (E : Env) (s : DeepWhisperer)
    (pre rest : list (option task)) (sentinel : option task) (n : nat) :
  stop_event s = false ->
  (0 < batch_interval s)%Z ->
  forallb proper pre = true ->
  sentinel = None \/ (exists p f, sentinel = Some ("STOP"%string, p, f)) ->
  PyQueue.items (message_queue s) = pre ++ sentinel :: rest ->
  _process_queue E (S n) s
  = (set_message_queue (PyQueue.mk (PyQueue.maxsize (message_queue s)) rest) s,
     Finished).
Proof.
  intros Hstop Hw Hpre Hsent Hq.
  cbn [_process_queue]. rewrite Hstop. unfold cycle, collect_fuel.
  rewrite Hq, length_app, <- !Nat.add_assoc.
  rewrite (collect_takes_prefix (clock s) pre (sentinel :: rest) _ [] [] s Hq Hpre
             (window_opens s Hw)).
  cbn [List.length Nat.add collect].
  change (clock (set_message_queue _ s)) with (clock s).
  change (batch_interval (set_message_queue _ s)) with (batch_interval s).
  rewrite (window_opens s Hw).
  cbn [PyQueue.get message_queue set_message_queue PyQueue.items PyQueue.maxsize].
  destruct Hsent as [-> | [p [f ->]]]; reflexivity.
Qed.

Lemma stop_sentinel_ends_worker_and_drops_batch_witness :
  let a := Some ("sendLocation"%string, [("chat_id"%string, VStr (lit "42"))], None) in
  let b := Some ("sendVenue"%string, [("chat_id"%string, VStr (lit "42"))], None) in
  let s := set_message_queue (PyQueue.mk 100 [a; Some ("STOP"%string, [], None); b])
                             notifier in
  _process_queue env_up 3 s = (set_message_queue (PyQueue.mk 100 [b]) notifier, Finished)
  /\ posts (fst (_process_queue env_up 3 s)) = [].
Proof.
  intros a b s.
  assert (H : _process_queue env_up 3 s
              = (set_message_queue (PyQueue.mk 100 [b]) notifier, Finished)).
  { apply (stop_sentinel_ends_worker_and_drops_batch env_up s [a] [b]
             (Some ("STOP"%string, [], None)) 2).
    - reflexivity.
    - reflexivity.
    - reflexivity.
    - right. exists [], None. reflexivity.
    - reflexivity. }
  split; [exact H|]. rewrite H. reflexivity.
Defined.

Lemma cycle_closed_window (E : Env) s :
  (batch_interval s <= 0)%Z -> cycle E s = (after_collect E [] [] s, NextIteration).
Proof.
  intros Hw. unfold cycle, collect_fuel. rewrite Nat.add_1_r. cbn [collect].
  replace (Clock.Qltb (clock s - clock s) (inject_Z (batch_interval s))) with false;
    [reflexivity|].
  symmetry. apply Qltb_ge.
  setoid_replace (clock s - clock s) with 0 by ring.
  unfold Qle. simpl. lia.
Qed.

(** X12.  With a batch interval of zero or less the collecting window
    never opens: however long the worker runs, it takes nothing from the
    queue and posts nothing as long as the ledger is empty. *)
Theorem nonpositive_batch_interval_never_drains (E : Env) (n : nat) :
  forall s,
    (batch_interval s <= 0)%Z ->
    failed_messages s = [] ->
    message_queue (fst (_process_queue E n s)) = message_queue s
    /\ posts (fst (_process_queue E n s)) = posts s.
Proof.
  induction n as [|n IH]; intros s Hw Hled; cbn [_process_queue]; [auto|].
  destruct (stop_event s); [auto|].
  rewrite (cycle_closed_window E s Hw).
  assert (Hstep : after_collect E [] [] s = pause (1 # 2) s).
  { unfold after_collect, merge, _retry_failed_messages. rewrite Hled. reflexivity. }
  rewrite Hstep.
  destruct (IH (pause (1 # 2) s) Hw Hled) as [Hq Hp].
  rewrite Hq, Hp. auto.
Qed.

Lemma nonpositive_batch_interval_never_drains_witness :
  let s := locate 2 (locate 1 (fresh (lit "42") 5 3 100 300 0 0)) in
  List.length (PyQueue.items (message_queue (fst (_process_queue env_up 50 s)))) = 2%nat
  /\ posts (fst (_process_queue env_up 50 s)) = [].
Proof.
  intros s.
  destruct (nonpositive_batch_interval_never_drains env_up 50 s) as [Hq Hp].
  - simpl. lia.
  - reflexivity.
  - rewrite Hq, Hp. split; reflexivity.
Defined.

(** X13.  In an iteration that starts with an open window, a queue of
    proper items and a ledger of pairs, every request the worker posts is
    one of the queued non-text tasks, unchanged, or the merged text
    submission, which carries the chat id and the text and nothing else:
    no text task is posted as it was queued, and the [parse_mode] its
    producer set is not sent. *)
Theorem cycle_posts_queued_tasks_or_merged_text (E : Env) (s : DeepWhisperer) :
  (0 < batch_interval s)%Z ->
  forallb proper (PyQueue.items (message_queue s)) = true ->
  Forall is_pair (failed_messages s) ->
  exists l,
    posts (fst (cycle E s)) = posts s ++ l
    /\ Forall (fun r =>
                 In r (others_of (PyQueue.items (message_queue s)))
                 \/ exists text,
                      r = ("sendMessage"%string,
                           [("chat_id"%string, VStr (chat_id s));
                            ("text"%string, VStr text)], None)) l.
Proof.
  intros Hw Hpr Hled.
  destruct (cycle_collects E s Hw Hpr) as [j Hj]. rewrite Hj. cbn [fst].
  destruct (waited_frame j (drained s)) as [(Hchat & _ & _ & _ & _ & _ & Hl0 & _) Hp0].
  cbn [chat_id failed_messages posts drained set_message_queue] in Hchat, Hl0, Hp0.
  set (s0 := waited j (drained s)) in *.
  rewrite <- Hl0 in Hled.
  destruct (after_collect_effects E (others_of (PyQueue.items (message_queue s)))
              (texts_of (PyQueue.items (message_queue s))) s0 Hled)
    as (_ & _ & _ & Hposts).
  destruct (merge (chat_id s0) (others_of (PyQueue.items (message_queue s)))
              (texts_of (PyQueue.items (message_queue s)))) as [b|] eqn:Hmerge.
  - destruct (Hposts b eq_refl) as [l [Hl Hin]]. exists l. rewrite Hl, Hp0.
    split; [reflexivity|].
    eapply Forall_impl; [|exact Hin]. intros r Hr. cbv beta.
    unfold merge in Hmerge.
    destruct (texts_of (PyQueue.items (message_queue s))) as [|v vs].
    + inversion Hmerge. subst b. left. exact Hr.
    + destruct (strs (v :: vs)) as [texts|]; [|discriminate Hmerge].
      inversion Hmerge. subst b. apply in_app_or in Hr.
      destruct Hr as [Hr | [Hr | []]]; [left; exact Hr | right].
      rewrite Hchat in Hr. eexists. symmetry. exact Hr.
  - exists []. rewrite app_nil_r. split; [|constructor].
    unfold after_collect. rewrite Hmerge. cbn [posts logger]. exact Hp0.
Qed.

Lemma cycle_posts_queued_tasks_or_merged_text_witness :
  let s := fst (send_message env_up (lit "hello") (lit "HTML") false
                  (locate 1 notifier)) in
  exists l,
    posts (fst (cycle env_up s)) = l
    /\ List.length l = 2%nat
    /\ Forall (fun r => lookup "parse_mode" (snd (fst r)) = None) l.
Proof.
  intros s.
  destruct (cycle_posts_queued_tasks_or_merged_text env_up s) as [l [Hl Hin]].
  - reflexivity.
  - vm_compute. reflexivity.
  - constructor.
  - exists l. split; [exact Hl|]. split.
    + change (posts s ++ l) with l in Hl. rewrite <- Hl. vm_compute. reflexivity.
    + eapply Forall_impl; [|exact Hin]. intros r [Hr | [text ->]].
      * vm_compute in Hr. destruct Hr as [<- | []]. reflexivity.
      * reflexivity.
Defined.




(** X15.  With a budget of at least one attempt, the dispatch step posts
    every task of the batch exactly once when the transport accepts
    everything, and leaves the ledger alone; when the transport is down, it
    posts every task exactly once all the same and appends every one of
    them to the ledger, as a pair without its files.  The threads of the
    pool post side by side and the futures are handled as they are
    yielded: posts and pairs come in an order of their own, not
    necessarily that of the batch. *)
Theorem dispatch_one_post_per_task (E : Env) (batch : list task) (s : DeepWhisperer) :
  (1 <= max_retries s)%Z ->
  (accepts_all E ->
   (exists l, posts (dispatch E batch s) = posts s ++ l /\ Permutation l batch)
   /\ failed_messages (dispatch E batch s) = failed_messages s)
  /\ (always_down E ->
      (exists l, posts (dispatch E batch s) = posts s ++ l /\ Permutation l batch)
      /\ exists new,
           failed_messages (dispatch E batch s) = failed_messages s ++ new
           /\ Permutation new (map pair_of batch)).
Proof.
  intros Hm. split; intros Hnet.
  - destruct (dispatch_at_first_turn E 1 false batch s) as [Hposts (new & Hn & Hpn)].
    + intros t tm s1 Hmax. unfold turn. destruct t as [[endpoint p] f].
      cbn [w_task w_state w_time].
      replace (0 <? max_retries s1)%Z with true by (symmetry; apply Z.ltb_lt; lia).
      unfold one_attempt.
      destruct (Hnet (List.length (posts (set_clock tm s1))) (endpoint, p, f))
        as [r [Hp Hr]].
      rewrite Hp, Hr. eexists _, (Returned (Some r)). cbn [snd].
      split; [reflexivity|]. split; reflexivity.
    + rewrite flat_map_one_copy in Hposts. split; [exact Hposts|].
      apply Permutation_sym, Permutation_nil in Hpn. subst new.
      rewrite app_nil_r in Hn. exact Hn.
  - destruct (dispatch_at_first_turn E 1 true batch s) as [Hposts Hled].
    + intros t tm s1 Hmax. unfold turn. destruct t as [[endpoint p] f].
      cbn [w_task w_state w_time].
      replace (0 <? max_retries s1)%Z with true by (symmetry; apply Z.ltb_lt; lia).
      unfold one_attempt. rewrite Hnet.
      eexists _, (Returned None). cbn [snd].
      split; [reflexivity|]. split; reflexivity.
    + rewrite flat_map_one_copy in Hposts. split; [exact Hposts | exact Hled].
Qed.

Lemma dispatch_one_post_per_task_witness :
  let a := ("sendLocation"%string, [("chat_id"%string, VStr (lit "42"))], None) in
  let b := ("sendVenue"%string, [("chat_id"%string, VStr (lit "42"))], None) in
  (exists l, posts (dispatch env_up [a; b] notifier) = l /\ Permutation l [a; b])
  /\ failed_messages (dispatch env_up [a; b] notifier) = []
  /\ exists new,
       failed_messages (dispatch env_down [a; b] notifier) = new
       /\ Permutation new
            [Tuple2 "sendLocation" [("chat_id"%string, VStr (lit "42"))];
             Tuple2 "sendVenue" [("chat_id"%string, VStr (lit "42"))]].
Proof.
  intros a b.
  destruct (dispatch_one_post_per_task env_up [a; b] notifier) as [Hup _];
    [simpl; lia|].
  destruct (dispatch_one_post_per_task env_down [a; b] notifier) as [_ Hdown];
    [simpl; lia|].
  destruct Hup as [Hp Hl].
  { intros n req. exists (mk_response 200). split; reflexivity. }
  destruct Hdown as [_ Hl'].
  { intros n req. reflexivity. }
  split; [exact Hp|]. split; [exact Hl | exact Hl'].
Defined.

(** ** The other producers *)

Lemma full_after_put {A} (q : PyQueue.t A) x :
  (PyQueue.maxsize q <= 0
   \/ Z.of_nat (List.length (PyQueue.items q)) + 2 <= PyQueue.maxsize q)%Z ->
  PyQueue.full q = false
  /\ PyQueue.full (PyQueue.mk (PyQueue.maxsize q) (PyQueue.items q ++ [x])) = false.
Proof.
  intros Hroom. unfold PyQueue.full, PyQueue.qsize. cbn [PyQueue.maxsize PyQueue.items].
  rewrite length_app. cbn [List.length].
  split; apply andb_false_iff; destruct Hroom as [H | H];
    first [left; apply Z.ltb_ge; lia | right; apply Z.leb_gt; lia].
Qed.

(** X16.  Contacts, venues and locations are never deduplicated: the
    same call made twice on a queue with room for two appends the same task
    twice, and the deduplication cache is not touched. *)
Theorem non_text_producers_are_not_deduplicated (s : DeepWhisperer) :
  (PyQueue.maxsize (message_queue s) <= 0
   \/ Z.of_nat (List.length (PyQueue.items (message_queue s))) + 2
      <= PyQueue.maxsize (message_queue s))%Z ->
  (forall phone first last vcard dn reply,
     let s2 := fst (send_contact phone first last vcard dn reply
                      (fst (send_contact phone first last vcard dn reply s))) in
     exists p, PyQueue.items (message_queue s2)
               = PyQueue.items (message_queue s)
                 ++ [Some ("sendContact"%string, p, None);
                     Some ("sendContact"%string, p, None)]
               /\ recent_messages s2 = recent_messages s)
  /\ (forall lat long title address f1 f2 g1 g2 dn reply,
        let s2 := fst (send_venue lat long title address f1 f2 g1 g2 dn reply
                         (fst (send_venue lat long title address f1 f2 g1 g2 dn reply s))) in
        exists p, PyQueue.items (message_queue s2)
                  = PyQueue.items (message_queue s)
                    ++ [Some ("sendVenue"%string, p, None);
                        Some ("sendVenue"%string, p, None)]
                  /\ recent_messages s2 = recent_messages s)
  /\ (forall lat long dn reply,
        let s2 := fst (send_location lat long dn reply
                         (fst (send_location lat long dn reply s))) in
        exists p, PyQueue.items (message_queue s2)
                  = PyQueue.items (message_queue s)
                    ++ [Some ("sendLocation"%string, p, None);
                        Some ("sendLocation"%string, p, None)]
                  /\ recent_messages s2 = recent_messages s).
Proof.
  intros Hroom.
  split; [|split]; intros; subst s2;
    match goal with
    | |- context [PyQueue.items (message_queue (fst (?f (fst (?g s)))))] =>
        unfold send_contact, send_venue, send_location
    end;
    match goal with
    | |- context [PyQueue.put_nowait ?x (message_queue s)] =>
        destruct (full_after_put (message_queue s) x Hroom) as [H1 H2];
        rewrite (put_nowait_room x _ H1); cbn [fst];
        cbn [message_queue chat_id logger set_message_queue]
    end;
    match goal with
    | |- context [PyQueue.put_nowait ?y ?q] =>
        assert (H3 : PyQueue.put_nowait y q
                     = Some (PyQueue.mk (PyQueue.maxsize q) (PyQueue.items q ++ [y])))
          by (apply put_nowait_room; exact H2);
        rewrite H3; cbn [fst];
        cbn [message_queue recent_messages logger set_message_queue PyQueue.items];
        eexists; rewrite <- app_assoc; split; reflexivity
    end.
Qed.

Lemma non_text_producers_are_not_deduplicated_witness :
  let call := send_contact (lit "+4912345") (lit "Ada") None None false None in
  List.length (PyQueue.items (message_queue (fst (call (fst (call notifier)))))) = 2%nat
  /\ recent_messages (fst (call (fst (call notifier)))) = recent_messages notifier.
Proof.
  intros call.
  destruct (non_text_producers_are_not_deduplicated notifier) as [Hc _].
  - right. simpl. lia.
  - destruct (Hc (lit "+4912345") (lit "Ada") None None false None) as [p [Hq Hr]].
    split; [|exact Hr]. unfold call. rewrite Hq. reflexivity.
Defined.

Lemma after_last_dot_scan l : forall r acc,
  ~ In 46%N l ->
  after_last_dot (l ++ 46%N :: r) acc = Some (rev l ++ acc, r).
Proof.
  induction l as [|c l IH]; intros r acc Hno.
  - simpl. reflexivity.
  - cbn [app after_last_dot].
    assert (Hc : (c =? 46)%N = false).
    { apply N.eqb_neq. intros ->. apply Hno. left. reflexivity. }
    rewrite Hc. rewrite IH by (intros H; apply Hno; right; exact H).
    cbn [rev]. rewrite <- app_assoc. reflexivity.
Qed.

Lemma after_last_dot_none l : forall acc,
  ~ In 46%N l -> after_last_dot l acc = None.
Proof.
  induction l as [|c l IH]; intros acc Hno; [reflexivity|].
  cbn [after_last_dot].
  assert (Hc : (c =? 46)%N = false).
  { apply N.eqb_neq. intros ->. apply Hno. left. reflexivity. }
  rewrite Hc. apply IH. intros H. apply Hno. right. exact H.
Qed.

(** The suffix of a name [stem.ext]. *)
Lemma suffix_of_name dir stem ext :
  stem <> [] -> ext <> [] -> ~ In 46%N ext ->
  suffix (mk_path dir (stem ++ 46%N :: ext)) = 46%N :: ext.
Proof.
  intros Hstem Hext Hno. unfold suffix. cbn [name].
  rewrite rev_app_distr. cbn [rev]. rewrite <- app_assoc. cbn [app].
  rewrite after_last_dot_scan by (rewrite <- in_rev; exact Hno).
  rewrite rev_involutive, app_nil_r.
  destruct ext as [|e ext]; [contradiction|].
  destruct (rev stem) as [|x xs] eqn:Hr; [|reflexivity].
  apply (f_equal (@rev N)) in Hr. rewrite rev_involutive in Hr. contradiction.
Qed.

Lemma suffix_without_dot dir nm : ~ In 46%N nm -> suffix (mk_path dir nm) = [].
Proof.
  intros Hno. unfold suffix. cbn [name].
  rewrite after_last_dot_none by (rewrite <- in_rev; exact Hno). reflexivity.
Qed.

Lemma suffix_of_hidden_name dir ext :
  ~ In 46%N ext -> suffix (mk_path dir (46%N :: ext)) = [].
Proof.
  intros Hno. unfold suffix. cbn [name rev].
  rewrite after_last_dot_scan by (rewrite <- in_rev; exact Hno).
  destruct (rev (rev ext) ++ []); reflexivity.
Qed.

(** X17.  A readable file sent while the queue has room is queued with
    its whole content under the media kind, and its declared content type
    is read off the file name: [kind/ext] for a name [stem.ext], and
    [application/octet-stream] for a name without a dot or with a leading
    dot only. *)
Theorem media_content_type_follows_file_name (E : Env) (fs : FileSystem)
    (dir : list str) (nm : str) (endpoint media_type : string) (caption : option str)
    (dn : bool) (reply : option Z) (file_data : list byte) (s : DeepWhisperer) :
  path_exists fs (mk_path dir nm) = Returned true ->
  open_read fs (mk_path dir nm) = Data file_data ->
  PyQueue.full (message_queue s) = false ->
  let s' := fst (_send_media E fs (mk_path dir nm) endpoint media_type caption dn reply s) in
  (forall stem ext,
     nm = stem ++ 46%N :: ext -> stem <> [] -> ext <> [] -> ~ In 46%N ext ->
     exists p, PyQueue.items (message_queue s')
               = PyQueue.items (message_queue s)
                 ++ [Some (endpoint, p,
                           Some [(media_type,
                                  (nm, file_data, lit media_type ++ lit "/" ++ ext))])])
  /\ ((~ In 46%N nm \/ exists ext, nm = 46%N :: ext /\ ~ In 46%N ext) ->
      exists p, PyQueue.items (message_queue s')
                = PyQueue.items (message_queue s)
                  ++ [Some (endpoint, p,
                            Some [(media_type,
                                   (nm, file_data, lit "application/octet-stream"))])]).
Proof.
  intros Hex Hread Hroom s'. subst s'. unfold _send_media.
  rewrite Hex, Hread.
  split.
  - intros stem ext -> Hstem Hext Hno.
    rewrite (suffix_of_name dir stem ext Hstem Hext Hno). cbn [truthy tl name].
    rewrite put_nowait_room by exact Hroom.
    cbn [fst message_queue logger set_message_queue PyQueue.items].
    eexists. reflexivity.
  - intros Hnm.
    assert (Hs : suffix (mk_path dir nm) = []).
    { destruct Hnm as [Hno | [ext [-> Hno]]].
      - apply suffix_without_dot. exact Hno.
      - apply suffix_of_hidden_name. exact Hno. }
    rewrite Hs. cbn [truthy name].
    rewrite put_nowait_room by exact Hroom.
    cbn [fst message_queue logger set_message_queue PyQueue.items].
    eexists. reflexivity.
Qed.

Lemma media_content_type_follows_file_name_witness :
  let report := mk_path [lit "tmp"] (lit "report.v2.pdf") in
  let s' := fst (send_file env_up (one_file report ["037"%byte]) report None false None
                   notifier) in
  exists p,
    PyQueue.items (message_queue s')
    = [Some ("sendDocument"%string, p,
             Some [("document"%string,
                    (lit "report.v2.pdf", ["037"%byte], lit "document/pdf"))])].
Proof.
  intros report s'.
  destruct (media_content_type_follows_file_name env_up
              (one_file report ["037"%byte]) [lit "tmp"] (lit "report.v2.pdf")
              "sendDocument" "document" None false None ["037"%byte] notifier)
    as [Hext _].
  - reflexivity.
  - reflexivity.
  - reflexivity.
  - destruct (Hext (lit "report.v2") (lit "pdf")) as [p Hp].
    + reflexivity.
    + discriminate.
    + discriminate.
    + vm_compute. intros H. repeat (destruct H as [H | H]; [discriminate H|]). exact H.
    + exists p. exact Hp.
Defined.

(** X18.  The one exception that leaves a media producer is the one
    [file_path.exists()] raises, an [OSError] of [stat] that does not mean
    absence: it leaves before anything is logged or changed.  When
    [exists] answers, the producer returns; it never touches the cache,
    the ledger or the posted requests.  It leaves the queue as it is when
    the file does not exist, cannot be read, or the queue is full; a full
    queue is then logged as an error of the send, after the debug line,
    not as the warning the other producers give. *)
Theorem media_producer_failures_only_log (E : Env) (fs : FileSystem)
    (file_path : Path) (endpoint media_type : string) (caption : option str)
    (dn : bool) (reply : option Z) (s : DeepWhisperer) :
  let run := _send_media E fs file_path endpoint media_type caption dn reply s in
  (forall e, path_exists fs file_path = Raised e -> run = (s, Raised e))
  /\ (forall b, path_exists fs file_path = Returned b -> snd run = Returned tt)
  /\ recent_messages (fst run) = recent_messages s
  /\ failed_messages (fst run) = failed_messages s
  /\ posts (fst run) = posts s
  /\ (path_exists fs file_path = Returned false
      \/ open_read fs file_path = FileNotFound
      \/ open_read fs file_path = OtherError
      \/ PyQueue.full (message_queue s) = true ->
      message_queue (fst run) = message_queue s)
  /\ (path_exists fs file_path = Returned true ->
      (exists file_data, open_read fs file_path = Data file_data) ->
      PyQueue.full (message_queue s) = true ->
      log (fst run) = log s ++ [(DEBUG, "Sending"%string); (ERROR, "Error sending"%string)]).
Proof.
  intros run. subst run. unfold _send_media.
  destruct (path_exists fs file_path) as [[|]|e0] eqn:Hex.
  - split; [intros e He; discriminate He|]. split; [|].
    { intros b _.
      destruct (open_read fs file_path) as [file_data| |]; try reflexivity.
      destruct (PyQueue.put_nowait _ _); reflexivity. }
    destruct (open_read fs file_path) as [file_data| |] eqn:Hread.
    + change (message_queue (logger DEBUG "Sending" s)) with (message_queue s).
      destruct (PyQueue.full (message_queue s)) eqn:Hfull;
        [rewrite put_nowait_full by exact Hfull
        |rewrite put_nowait_room by exact Hfull];
        cbn [fst snd]; do 3 (split; [reflexivity|]); split.
      * intros _. reflexivity.
      * intros _ _ _. cbn [log logger]. rewrite <- app_assoc. reflexivity.
      * intros [H | [H | [H | H]]]; discriminate H.
      * intros _ _ H. discriminate H.
    + cbn [fst snd]. do 3 (split; [reflexivity|]). split; [reflexivity|].
      intros _ [d Hd]. discriminate Hd.
    + cbn [fst snd]. do 3 (split; [reflexivity|]). split; [reflexivity|].
      intros _ [d Hd]. discriminate Hd.
  - cbn [fst snd]. split; [intros e He; discriminate He|].
    split; [reflexivity|]. do 3 (split; [reflexivity|]). split; [reflexivity|].
    intros H. discriminate H.
  - cbn [fst snd]. split; [intros e He; inversion He; reflexivity|].
    split; [intros b Hb; discriminate Hb|]. do 3 (split; [reflexivity|]).
    split; [reflexivity|]. intros H. discriminate H.
Qed.

(** A file that [stat] may not look at: the producer raises. *)
Lemma media_producer_failures_only_log_witness :
  let locked := mk_fs (fun _ => Raised OSError) (fun _ => OtherError) in
  send_photo env_up locked (mk_path [lit "root"] (lit "a.png")) None false None notifier
  = (notifier, Raised OSError).
Proof.
  intros locked.
  destruct (media_producer_failures_only_log env_up locked
              (mk_path [lit "root"] (lit "a.png")) "sendPhoto" "photo" None false None
              notifier) as [Hraise _].
  apply Hraise. reflexivity.
Defined.

Example suffix_known_names :
  map (fun n => suffix (mk_path [] (lit n)))
      ["report.v2.pdf"; ".bashrc"; "foo."; "a"; "..b"; "a..b"]%string
  = [lit ".pdf"; []; []; []; lit ".b"; lit ".b"].
Proof. vm_compute. reflexivity. Qed.

Lemma lookup_with_reply key reply p :
  key <> "reply_to_message_id"%string ->
  lookup key (with_reply reply p) = lookup key p.
Proof.
  intros Hkey. unfold with_reply. destruct reply as [id|]; [|reflexivity].
  destruct (id =? 0)%Z; [reflexivity|].
  induction p as [|[k v] p IH]; cbn [app lookup].
  - replace (String.eqb "reply_to_message_id" key) with false; [reflexivity|].
    symmetry. apply String.eqb_neq. congruence.
  - destruct (String.eqb k key); [reflexivity | exact IH].
Qed.

(** X19.  Every media task carries a caption: the framing of title line
    and timestamp line around the caption text, an absent caption and an
    empty one counting alike.  A video note, which is sent without a
    caption, is queued with the framing around an empty line. *)
Theorem media_task_always_carries_framed_caption (E : Env) (fs : FileSystem)
    (file_path : Path) (dn : bool) (reply : option Z) (file_data : list byte)
    (s : DeepWhisperer) :
  path_exists fs file_path = Returned true ->
  open_read fs file_path = Data file_data ->
  PyQueue.full (message_queue s) = false ->
  (forall endpoint media_type caption,
     exists p f,
       PyQueue.items (message_queue
         (fst (_send_media E fs file_path endpoint media_type caption dn reply s)))
       = PyQueue.items (message_queue s) ++ [Some (endpoint, p, f)]
       /\ lookup "caption" p = Some (VStr (wrap E (or_empty caption) s)))
  /\ (forall endpoint media_type,
        _send_media E fs file_path endpoint media_type (Some []) dn reply s
        = _send_media E fs file_path endpoint media_type None dn reply s)
  /\ exists p f,
       PyQueue.items (message_queue (fst (send_video_note E fs file_path dn reply s)))
       = PyQueue.items (message_queue s) ++ [Some ("sendVideoNote"%string, p, f)]
       /\ lookup "caption" p
          = Some (VStr (_get_formatted_title E ++ [10%N; 10%N] ++ _get_formatted_time E s)).
Proof.
  intros Hex Hread Hroom.
  assert (Hall : forall endpoint media_type caption,
     exists p f,
       PyQueue.items (message_queue
         (fst (_send_media E fs file_path endpoint media_type caption dn reply s)))
       = PyQueue.items (message_queue s) ++ [Some (endpoint, p, f)]
       /\ lookup "caption" p = Some (VStr (wrap E (or_empty caption) s))).
  { intros endpoint media_type caption. unfold _send_media.
    rewrite Hex, Hread.
    rewrite put_nowait_room by exact Hroom.
    cbn [fst message_queue logger set_message_queue PyQueue.items].
    do 2 eexists. split; [reflexivity|].
    rewrite lookup_with_reply by discriminate. reflexivity. }
  split; [exact Hall|]. split; [reflexivity|].
  destruct (Hall "sendVideoNote"%string "video_note"%string None) as [p [f [Hq Hc]]].
  exists p, f. split; [exact Hq | exact Hc].
Qed.

Lemma media_task_always_carries_framed_caption_witness :
  let clip := mk_path [] (lit "clip.mp4") in
  exists p f,
    PyQueue.items (message_queue
      (fst (send_video_note env_up (one_file clip []) clip false None notifier)))
    = [Some ("sendVideoNote"%string, p, f)]
    /\ lookup "caption" p
       = Some (VStr (lit "** DeepWhisperer **" ++ [10%N; 10%N]
                     ++ lit "[ 1970-01-01 | 00:00:00 | GMT ]")).
Proof.
  intros clip.
  destruct (media_task_always_carries_framed_caption env_up (one_file clip []) clip
              false None [] notifier) as [_ [_ [p [f [Hq Hc]]]]].
  - reflexivity.
  - reflexivity.
  - reflexivity.
  - exists p, f. split; [exact Hq|]. rewrite Hc. vm_compute. reflexivity.
Defined.

(** ** Construction *)

Lemma send_message_raises_only_encode_error (E : Env) m pm dup s :
  snd (send_message E m pm dup s) = Returned tt
  \/ snd (send_message E m pm dup s) = Raised UnicodeEncodeError.
Proof.
  unfold send_message.
  destruct (negb (truthy (strip m))); [left; reflexivity|].
  destruct (encode (wrap E m s)); [|right; reflexivity].
  match goal with |- context [if ?c then _ else _] => destruct c end;
    [left; reflexivity|].
  destruct (PyQueue.put_nowait _ _); left; reflexivity.
Qed.

Lemma fresh_queue_has_room {A} qs : PyQueue.full (@PyQueue.create A qs) = false.
Proof.
  unfold PyQueue.full, PyQueue.create, PyQueue.qsize. cbn [PyQueue.maxsize PyQueue.items].
  apply andb_false_iff. destruct (Z_lt_le_dec 0 qs).
  - right. apply Z.leb_gt. simpl. lia.
  - left. apply Z.ltb_ge. lia.
Qed.

(** X20.  The constructor raises [ValueError] exactly when neither its
    argument nor the lookup gives a non-empty chat id; a [chat_id] argument
    that is given wins over the lookup.  Otherwise, with a connection
    message that is not blank and can be encoded, it returns a notifier
    whose queue holds that greeting and nothing else, whatever the queue
    size, with its fingerprint recorded, an empty ledger and the stop event
    unset. *)
Theorem constructor_needs_chat_id_and_queues_greeting (E : Env)
    (chat looked : option str) (mr rd qs ttl bi : Z) (greeting : str) (now : Q) :
  (snd (__init__ E chat looked mr rd qs ttl bi greeting now) = Raised ValueError
   <-> given chat = false /\ given looked = false)
  /\ (forall c bytes,
        (if given chat then chat else looked) = Some c -> truthy c = true ->
        forallb isspace greeting = false ->
        encode (wrap E greeting (fresh c mr rd qs ttl bi now)) = Some bytes ->
        exists s,
          __init__ E chat looked mr rd qs ttl bi greeting now = (s, Returned tt)
          /\ chat_id s = c
          /\ PyQueue.items (message_queue s)
             = [Some ("sendMessage"%string,
                      [("chat_id"%string, VStr c);
                       ("parse_mode"%string, VStr (lit "Markdown"));
                       ("text"%string, VStr (wrap E greeting (fresh c mr rd qs ttl bi now)))],
                      None)]
          /\ TTLCache.find (SHA256.hexdigest bytes) (TTLCache.links (recent_messages s))
             = Some (now + inject_Z ttl)
          /\ failed_messages s = [] /\ stop_event s = false).
Proof.
  split.
  - unfold __init__.
    destruct (given chat) eqn:Hc.
    + destruct chat as [c|]; [|discriminate Hc]. cbn [given] in Hc. rewrite Hc.
      split; [|intros [H _]; discriminate H].
      intros H.
      destruct (send_message_raises_only_encode_error E greeting (lit "Markdown") false
                  (logger INFO "DeepWhisperer initialized" (fresh c mr rd qs ttl bi now)))
        as [H' | H']; rewrite H' in H; discriminate H.
    + destruct looked as [c|]; cbn [given].
      * destruct (truthy c) eqn:Ht.
        -- split; [|intros [_ H]; discriminate H].
           intros H.
           destruct (send_message_raises_only_encode_error E greeting (lit "Markdown") false
                       (logger INFO "DeepWhisperer initialized"
                               (fresh c mr rd qs ttl bi now)))
             as [H' | H']; rewrite H' in H; discriminate H.
        -- cbn [snd]. tauto.
      * cbn [snd]. tauto.
  - intros c bytes Hid Ht Hg Henc. unfold __init__. rewrite Hid, Ht.
    set (s0 := logger INFO "DeepWhisperer initialized" (fresh c mr rd qs ttl bi now)).
    assert (Hnb : truthy (strip greeting) = true) by (rewrite truthy_strip, Hg; reflexivity).
    rewrite (send_message_passes E greeting (lit "Markdown") false s0 bytes Hnb Henc
               (or_intror eq_refl)).
    cbv zeta.
    rewrite put_nowait_room by apply fresh_queue_has_room.
    eexists. split; [reflexivity|].
    cbn [chat_id message_queue recent_messages failed_messages stop_event logger
         set_message_queue set_recent_messages PyQueue.items s0 fresh PyQueue.create app].
    repeat split. apply find_setitem.
Qed.

(** ** The ledger and the shutdown wait *)

(** X21.  On a ledger whose entries have three fields, and with a budget
    of at least one attempt, the retry step resubmits every entry once and
    in order; the ledger is empty afterwards when the transport accepts
    everything, and unchanged when the transport is down. *)
Theorem retry_step_resubmits_three_field_entries (E : Env) (tasks : list task)
    (s : DeepWhisperer) :
  failed_messages s = map triple tasks ->
  (1 <= max_retries s)%Z ->
  accepts_all E \/ always_down E ->
  posts (fst (_retry_failed_messages E s)) = posts s ++ tasks
  /\ ((accepts_all E -> failed_messages (fst (_retry_failed_messages E s)) = [])
      /\ (always_down E ->
          failed_messages (fst (_retry_failed_messages E s)) = failed_messages s)).
Proof.
  intros Hled Hm Hnet.
  destruct (retry_on_triples E tasks s Hled Hm) as [Hup Hdown].
  split.
  - destruct Hnet as [H | H]; [apply Hup | apply Hdown]; exact H.
  - split; intros H.
    + apply Hup. exact H.
    + rewrite Hled. apply Hdown. exact H.
Qed.

Lemma retry_step_resubmits_three_field_entries_witness :
  let a := ("sendLocation"%string, [("chat_id"%string, VStr (lit "42"))], None) in
  let b := ("sendVenue"%string, [("chat_id"%string, VStr (lit "42"))], None) in
  let s := set_failed_messages [triple a; triple b] notifier in
  posts (fst (_retry_failed_messages env_up s)) = [a; b]
  /\ failed_messages (fst (_retry_failed_messages env_up s)) = [].
Proof.
  intros a b s.
  assert (Hup : accepts_all env_up).
  { intros n req. exists (mk_response 200). split; reflexivity. }
  destruct (retry_step_resubmits_three_field_entries env_up [a; b] s) as [Hp [Hl _]].
  - reflexivity.
  - simpl. lia.
  - left. exact Hup.
  - split; [exact Hp | apply Hl; exact Hup].
Defined.

Lemma stop_wait_frame k : forall s,
  message_queue (fst (stop_wait k s)) = message_queue s
  /\ posts (fst (stop_wait k s)) = posts s.
Proof.
  induction k as [|k IH]; intros s; cbn [stop_wait]; [auto|].
  destruct (PyQueue.empty (message_queue s)); [auto|].
  rewrite sleep_half_second.
  destruct (IH (pause (1 # 2) s)) as [Hq Hp]. rewrite Hq, Hp. auto.
Qed.

(** X22.  Once the worker thread has finished, the wait of [stop] for an
    empty queue returns at once, without sleeping, when the queue is empty,
    and otherwise never returns: however many polls it makes, the queue is
    what it was and nothing is posted. *)
Theorem stop_wait_returns_only_on_empty_queue (k : nat) (s : DeepWhisperer) :
  (PyQueue.items (message_queue s) = [] -> stop_wait (S k) s = (s, true))
  /\ (PyQueue.items (message_queue s) <> [] ->
      snd (stop_wait k s) = false
      /\ message_queue (fst (stop_wait k s)) = message_queue s
      /\ posts (fst (stop_wait k s)) = posts s).
Proof.
  split.
  - intros Hq. cbn [stop_wait]. unfold PyQueue.empty. rewrite Hq. reflexivity.
  - intros Hq. split; [|apply stop_wait_frame].
    apply stop_wait_never_returns. unfold PyQueue.empty.
    destruct (PyQueue.items (message_queue s)); [contradiction | reflexivity].
Qed.
